(** * Scoring engines and identity merge of the AI Specialist Finder

    A shallow embedding of

    - [src/analysis/reputation_analyzer.py]  (class [ReputationAnalyzer]:
      the reputation score and the portfolio analysis),
    - [src/analysis/relevance_scorer.py]     (class [RelevanceScorer]: the
      relevance score, the content analysis and the article score),
    - [src/database/database_manager.py]     ([DatabaseManager]:
      [add_journalist], [update_journalist], [get_journalist_by_id] and
      [add_article]),
    - [src/database/models.py]               (the [journalists] and
      [articles] tables),
    - [config/settings.py]                   ([REPUTATION_WEIGHTS]),

    together with the properties the specification states about them and
    further properties of the same code.

    Conventions of the embedding.

    - A profile is a Python [dict] with string keys: an association list in
      insertion order.  Values are dynamically typed ([pyval]).
    - Python exceptions are the [Raise] outcome of the [exc] monad; the
      [try/except Exception] of the two scoring entry points is the [match]
      at the end of their definitions.
    - Finite floating point data (the numbers found in a record) are
      rationals; the results of [math.log10], [math.log] and [math.exp] are
      real numbers, so computed scores live in [R].  Rounding is outside
      the model.  The floats that are not finite (the infinities and NaN)
      and the integers too large to convert to a float are outside
      [Reputation], and inside [FloatReputation], which embeds the
      reputation score a second time on records that can hold them.
    - Text is Latin-1: a character is a code point below 256, and
      [str.lower], [str.split], [str.strip], [\b], [\w], [\s] and
      [re.IGNORECASE] are the Python operations on such text.  Text with
      other characters is outside the model. *)

From Stdlib Require Import Reals Lra QArith Qreals ZArith String Ascii List Lia Bool.
From Stdlib Require Lqa.
Import ListNotations.

Set Implicit Arguments.
Set Warnings "-register-all".

(* ------------------------------------------------------------------ *)
(** * Python values and dictionaries *)

Module Py.

Inductive pyval : Type :=
| PNone
| PBool (b : bool)
| PInt (z : Z)
| PFloat (q : Q)
| PStr (s : string)
| PList (l : list pyval).

(** Outcome of a computation that may raise. *)
Inductive exc (A : Type) : Type :=
| Ok (a : A)
| Raise.
Arguments Raise {A}.

Definition bind {A B : Type} (e : exc A) (k : A -> exc B) : exc B :=
  match e with
  | Ok a => k a
  | Raise => Raise
  end.

Definition dict : Type := list (string * pyval).

Fixpoint lookup (d : dict) (k : string) : option pyval :=
  match d with
  | [] => None
  | (k', v) :: d' => if String.eqb k k' then Some v else lookup d' k
  end.

(** [d.get(k)] and [d.get(k, dflt)]: a key that is present with the value
    [None] yields [None], not the default. *)
Definition get (d : dict) (k : string) : pyval :=
  match lookup d k with Some v => v | None => PNone end.

Definition get_default (d : dict) (k : string) (dflt : pyval) : pyval :=
  match lookup d k with Some v => v | None => dflt end.

(** [k in d] *)
Definition has_key (d : dict) (k : string) : bool :=
  match lookup d k with Some _ => true | None => false end.

(** [d[k] = v]: overwrite in place, or append a new key. *)
Fixpoint set (d : dict) (k : string) (v : pyval) : dict :=
  match d with
  | [] => [(k, v)]
  | (k', v') :: d' =>
      if String.eqb k k' then (k', v) :: d' else (k', v') :: set d' k v
  end.

(** Truth value of an object ([bool(x)]). *)
Definition truthy (v : pyval) : bool :=
  match v with
  | PNone => false
  | PBool b => b
  | PInt z => negb (Z.eqb z 0)
  | PFloat q => negb (Qeq_bool q 0)
  | PStr s => negb (String.eqb s "")
  | PList l => match l with [] => false | _ => true end
  end.

(** [x or y] *)
Definition or_else (x y : pyval) : pyval := if truthy x then x else y.

(** The number an object stands for in arithmetic and in ordering
    comparisons with numbers ([bool] is a subclass of [int]); every other
    object raises [TypeError] there. *)
Definition num_of (v : pyval) : exc Q :=
  match v with
  | PBool b => Ok (if b then 1%Q else 0%Q)
  | PInt z => Ok (inject_Z z)
  | PFloat q => Ok q
  | _ => Raise
  end.

(** [sys.float_info.max], the largest finite float.  Arithmetic that mixes
    an [int] with a [float] converts the [int] first, and raises
    [OverflowError] on one too large to round to a finite float. *)
Definition float_max : Q := inject_Z (2 ^ 1024 - 2 ^ 971).

(** [x == 0] never raises. *)
Definition is_zero (v : pyval) : bool :=
  match num_of v with Ok q => Qeq_bool q 0 | Raise => false end.

End Py.
Export Py.

Declare Scope exc_scope.
Delimit Scope exc_scope with exc.
Notation "x <- e ;; k" := (bind e (fun x => k))
  (at level 61, e at next level, right associativity) : exc_scope.
Open Scope exc_scope.

(* ------------------------------------------------------------------ *)
(** * Text operations *)

Module Text.

(** The letters that have a lower case are A-Z and, above 127, the code
    points 192-214 and 216-222; each is 32 below its lower case. *)
Definition lower_char (c : ascii) : ascii :=
  let n := nat_of_ascii c in
  if ((Nat.leb 65 n && Nat.leb n 90) || (Nat.leb 192 n && Nat.leb n 214)
      || (Nat.leb 216 n && Nat.leb n 222))%bool
  then ascii_of_nat (n + 32)
  else c.

(** [s.lower()] *)
Fixpoint lower (s : string) : string :=
  match s with
  | EmptyString => EmptyString
  | String c s' => String (lower_char c) (lower s')
  end.

(** [c.isspace()], also the class [\s] and what [str.strip] removes: the
    code points 9-13, 28-32, 133 (next line) and 160 (no-break space). *)
Definition is_space (c : ascii) : bool :=
  let n := nat_of_ascii c in
  ((Nat.leb 9 n && Nat.leb n 13) || (Nat.leb 28 n && Nat.leb n 32)
   || Nat.eqb n 133 || Nat.eqb n 160)%bool.

(** The class [\w]: digits, letters and the underscore; above 127 the
    code points 170, 178, 179, 181, 185, 186, 188-190, 192-214, 216-246
    and 248-255. *)
Definition is_word (c : ascii) : bool :=
  let n := nat_of_ascii c in
  ((Nat.leb 48 n && Nat.leb n 57) || (Nat.leb 65 n && Nat.leb n 90)
   || (Nat.leb 97 n && Nat.leb n 122) || Nat.eqb n 95
   || Nat.eqb n 170 || Nat.eqb n 178 || Nat.eqb n 179 || Nat.eqb n 181
   || Nat.eqb n 185 || Nat.eqb n 186 || (Nat.leb 188 n && Nat.leb n 190)
   || (Nat.leb 192 n && Nat.leb n 214) || (Nat.leb 216 n && Nat.leb n 246)
   || (Nat.leb 248 n && Nat.leb n 255))%bool.

(** [not s.strip()] *)
Fixpoint is_blank (s : string) : bool :=
  match s with
  | EmptyString => true
  | String c s' => is_space c && is_blank s'
  end.

(** [len(s.split())]: the number of maximal runs of non-space characters.
    [inword] tells whether the previous character belonged to a word. *)
Fixpoint count_words (inword : bool) (s : string) : nat :=
  match s with
  | EmptyString => 0
  | String c s' =>
      if is_space c then count_words false s'
      else if inword then count_words true s'
           else S (count_words true s')
  end.

Definition word_count (s : string) : nat := count_words false s.

(** [sub in s] *)
Fixpoint contains (sub s : string) : bool :=
  (String.prefix sub s
   || match s with
      | EmptyString => false
      | String _ s' => contains sub s'
      end)%bool.

(** [sep.join(parts)] *)
Fixpoint join (sep : string) (parts : list string) : string :=
  match parts with
  | [] => EmptyString
  | [p] => p
  | p :: ps => p ++ sep ++ join sep ps
  end.

Definition first_char (s : string) : option ascii :=
  match s with EmptyString => None | String c _ => Some c end.

Fixpoint last_char (s : string) : option ascii :=
  match s with
  | EmptyString => None
  | String c EmptyString => Some c
  | String _ s' => last_char s'
  end.

Fixpoint drop (n : nat) (s : string) : string :=
  match n, s with
  | O, _ => s
  | S n', String _ s' => drop n' s'
  | S _, EmptyString => EmptyString
  end.

Definition is_word_opt (c : option ascii) : bool :=
  match c with Some c => is_word c | None => false end.

(** [\b] between the characters [before] and [after] ([None] at either end
    of the text). *)
Definition boundary (before after : option ascii) : bool :=
  xorb (is_word_opt before) (is_word_opt after).

(** Does [\b kw \b] match at the head of [text], [prev] being the character
    in front of it? *)
Definition word_match_here (prev : option ascii) (kw text : string) : bool :=
  (String.prefix kw text
   && boundary prev (first_char text)
   && boundary (last_char kw) (first_char (drop (String.length kw) text)))%bool.

(** [len(re.findall(r'\b' + re.escape(kw) + r'\b', text))]: matches are
    counted from left to right and do not overlap; [skip] counts the
    characters of the current match still to be passed. *)
Fixpoint count_matches (prev : option ascii) (kw text : string) (skip : nat)
  : nat :=
  match text with
  | EmptyString => 0
  | String c rest =>
      match skip with
      | S k => count_matches (Some c) kw rest k
      | O =>
          if word_match_here prev kw text
          then S (count_matches (Some c) kw rest (String.length kw - 1))
          else count_matches (Some c) kw rest 0
      end
  end.

Definition findall_word (kw text : string) : nat :=
  count_matches None kw text 0.

(** [re.search(r'\b' + re.escape(kw) + r'\b', text)] is not [None]. *)
Fixpoint search_from (prev : option ascii) (kw text : string) : bool :=
  (word_match_here prev kw text
   || match text with
      | EmptyString => false
      | String c rest => search_from (Some c) kw rest
      end)%bool.

Definition search_word (kw text : string) : bool := search_from None kw text.

(** Under [re.IGNORECASE] a character of the pattern matches a character
    of the text when the two are equal up to case. *)
Definition eqb_ic (a b : ascii) : bool :=
  Ascii.eqb (lower_char a) (lower_char b).

Fixpoint prefix_ic (kw text : string) : bool :=
  match kw with
  | EmptyString => true
  | String a kw' =>
      match text with
      | EmptyString => false
      | String b text' => eqb_ic a b && prefix_ic kw' text'
      end
  end.

(** The same two searches under [re.IGNORECASE]. *)
Definition word_match_here_ic (prev : option ascii) (kw text : string) : bool :=
  (prefix_ic kw text
   && boundary prev (first_char text)
   && boundary (last_char kw) (first_char (drop (String.length kw) text)))%bool.

Fixpoint count_matches_ic (prev : option ascii) (kw text : string) (skip : nat)
  : nat :=
  match text with
  | EmptyString => 0
  | String c rest =>
      match skip with
      | S k => count_matches_ic (Some c) kw rest k
      | O =>
          if word_match_here_ic prev kw text
          then S (count_matches_ic (Some c) kw rest (String.length kw - 1))
          else count_matches_ic (Some c) kw rest 0
      end
  end.

Definition findall_word_ic (kw text : string) : nat :=
  count_matches_ic None kw text 0.

Fixpoint search_from_ic (prev : option ascii) (kw text : string) : bool :=
  (word_match_here_ic prev kw text
   || match text with
      | EmptyString => false
      | String c rest => search_from_ic (Some c) kw rest
      end)%bool.

Definition search_word_ic (kw text : string) : bool := search_from_ic None kw text.

End Text.

(* ------------------------------------------------------------------ *)
(** * The regular expressions of [_is_explicit_ai_journalist] *)

Module Regex.

Inductive regex : Type :=
| Void                       (* matches nothing *)
| Eps                        (* the empty string *)
| Chr (c : ascii)
| Space                      (* \s *)
| Dot                        (* . : anything but a newline *)
| Cat (r1 r2 : regex)
| Alt (r1 r2 : regex)
| Star (r : regex).

Definition Plus (r : regex) : regex := Cat r (Star r).
Definition Opt (r : regex) : regex := Alt r Eps.

Fixpoint Lit (s : string) : regex :=
  match s with
  | EmptyString => Eps
  | String c s' => Cat (Chr c) (Lit s')
  end.

Fixpoint nullable (r : regex) : bool :=
  match r with
  | Void => false
  | Eps => true
  | Chr _ => false
  | Space => false
  | Dot => false
  | Cat r1 r2 => nullable r1 && nullable r2
  | Alt r1 r2 => nullable r1 || nullable r2
  | Star _ => true
  end.

Definition cat (r1 r2 : regex) : regex :=
  match r1, r2 with
  | Void, _ => Void
  | _, Void => Void
  | Eps, _ => r2
  | _, _ => Cat r1 r2
  end.

Definition alt (r1 r2 : regex) : regex :=
  match r1, r2 with
  | Void, _ => r2
  | _, Void => r1
  | _, _ => Alt r1 r2
  end.

(** Brzozowski derivative. *)
Fixpoint deriv (a : ascii) (r : regex) : regex :=
  match r with
  | Void => Void
  | Eps => Void
  | Chr c => if Ascii.eqb a c then Eps else Void
  | Space => if Text.is_space a then Eps else Void
  | Dot => if Ascii.eqb a "010"%char then Void else Eps
  | Cat r1 r2 =>
      if nullable r1
      then alt (cat (deriv a r1) r2) (deriv a r2)
      else cat (deriv a r1) r2
  | Alt r1 r2 => alt (deriv a r1) (deriv a r2)
  | Star r1 => cat (deriv a r1) (Star r1)
  end.

(** Some prefix of [s] is in the language of [r]. *)
Fixpoint match_prefix (r : regex) (s : string) : bool :=
  (nullable r
   || match s with
      | EmptyString => false
      | String c s' => match_prefix (deriv c r) s'
      end)%bool.

(** [re.search(r, s)] is not [None]: some substring is in the language. *)
Fixpoint search (r : regex) (s : string) : bool :=
  (match_prefix r s
   || match s with
      | EmptyString => false
      | String _ s' => search r s'
      end)%bool.

End Regex.

(* ------------------------------------------------------------------ *)
(** * [config/settings.py] *)

Module Settings.

Record reputation_weights : Type := {
  article_count : Q;
  social_followers : Q;
  engagement_rate : Q;
  publication_quality : Q;
  expertise_relevance : Q
}.

Definition REPUTATION_WEIGHTS : reputation_weights := {|
  article_count := 0.3;
  social_followers := 0.2;
  engagement_rate := 0.2;
  publication_quality := 0.2;
  expertise_relevance := 0.1
|}.

End Settings.

Definition Qlt_bool (a b : Q) : bool := negb (Qle_bool b a).

(** [math.log10] *)
Definition log10 (x : R) : R := (ln x / ln 10)%R.

(* ------------------------------------------------------------------ *)
(** * [ReputationAnalyzer]

    The numbers of a record are finite here, and an integer is converted to
    a float whatever its size: the [OverflowError] that Python raises when
    it converts an integer beyond the largest float (in [h_index / 50.0],
    or when line 96 adds an integer to a float) is not in this module.
    [FloatReputation] has it, with the infinities and NaN. *)

Module Reputation.

Import Settings Text.

Record ReputationAnalyzer : Type := { weights : reputation_weights }.

(** [ReputationAnalyzer.__init__] *)
Definition init : ReputationAnalyzer := {| weights := REPUTATION_WEIGHTS |}.

Definition tier1_publications : list string :=
  ["new york times"; "wall street journal"; "washington post"; "reuters";
   "bloomberg"; "financial times"; "the guardian"; "bbc"; "cnn";
   "techcrunch"; "wired"; "ars technica"; "the verge"]%string.

Definition tier2_publications : list string :=
  ["forbes"; "fortune"; "business insider"; "mashable"; "engadget";
   "zdnet"; "venturebeat"; "recode"; "axios"; "fast company";
   "mit technology review"; "ieee spectrum"]%string.

Definition tier3_publications : list string :=
  ["techradar"; "computerworld"; "infoworld"; "network world";
   "security week"; "ai news"; "machine learning mastery"]%string.

Definition academic_keywords : list string :=
  ["university"; "institute"; "research"; "academic"]%string.

Definition major_publications : list string :=
  ["new york times"; "wall street journal"; "washington post"; "reuters";
   "bloomberg"; "financial times"; "the guardian"; "bbc"; "cnn";
   "techcrunch"; "wired"; "ars technica"; "the verge"; "forbes"]%string.

Definition high_value_specializations : list string :=
  ["artificial intelligence"; "machine learning"; "programming";
   "data science"; "cybersecurity"; "robotics"]%string.

(** [any(pub in text for pub in pubs)] *)
Definition any_in (pubs : list string) (text : string) : bool :=
  existsb (fun pub => contains pub text) pubs.

Open Scope R_scope.

Definition _calculate_article_score (article_count : pyval) : exc R :=
  n <- num_of article_count ;;
  if Qle_bool n 0 then Ok 0
  else
    let max_articles := 1000 in
    let score := log10 (Q2R n + 1) / log10 (max_articles + 1) in
    Ok (Rmin score 1).

(** [_calculate_article_score] as a function of the number it is given. *)
Definition article_curve (n : Q) : R :=
  if Qle_bool n 0 then 0
  else Rmin (log10 (Q2R n + 1) / log10 (1000 + 1)) 1.

(** [twitter_followers + linkedin_connections * 2] succeeds on two strings
    or two lists as well, but the comparison with [0] that follows raises
    on them: the outcome is [Raise] unless both are numbers. *)
Definition _calculate_social_score (twitter_followers linkedin_connections : pyval)
  : exc R :=
  t <- num_of twitter_followers ;;
  l <- num_of linkedin_connections ;;
  let total_social := (t + l * 2)%Q in
  if Qle_bool total_social 0 then Ok 0
  else
    let max_social := 100000 in
    let score := log10 (Q2R total_social + 1) / log10 (max_social + 1) in
    Ok (Rmin score 1).

Definition _is_major_publication (publication : pyval) : exc bool :=
  if negb (truthy publication) then Ok false
  else
    match publication with
    | PStr s => Ok (any_in major_publications (lower s))
    | _ => Raise
    end.

Definition _calculate_engagement_score (journalist_data : dict) : exc R :=
  twitter_followers <- num_of (get_default journalist_data "twitter_followers" (PInt 0)) ;;
  if Qle_bool twitter_followers 0 then Ok 0.5
  else
    let base_engagement :=
      if Qlt_bool twitter_followers 1000 then 0.8
      else if Qlt_bool twitter_followers 10000 then 0.6
      else if Qlt_bool twitter_followers 100000 then 0.4
      else 0.2 in
    let is_verified := get_default journalist_data "is_verified" (PBool false) in
    let publication := get_default journalist_data "current_publication" (PStr "") in
    let base_engagement :=
      if truthy is_verified then base_engagement + 0.1 else base_engagement in
    major <- _is_major_publication publication ;;
    let base_engagement :=
      if major then base_engagement + 0.1 else base_engagement in
    Ok (Rmin base_engagement 1).

Definition _calculate_publication_quality_score (publication : pyval) : exc R :=
  if negb (truthy publication) then Ok 0.3
  else
    match publication with
    | PStr s =>
        let publication_lower := lower s in
        if any_in tier1_publications publication_lower then Ok 1
        else if any_in tier2_publications publication_lower then Ok 0.8
        else if any_in tier3_publications publication_lower then Ok 0.6
        else if any_in academic_keywords publication_lower then Ok 0.7
        else Ok 0.4
    | _ => Raise
    end.

Definition _calculate_academic_score
  (citation_count h_index publication_count source_platform : pyval) : exc R :=
  if (is_zero citation_count && is_zero h_index && is_zero publication_count)%bool
  then Ok 0
  else
    c <- num_of citation_count ;;
    h <- num_of h_index ;;
    p <- num_of publication_count ;;
    let citation_score := Rmin (log10 (Rmax (Q2R c) 1) / log10 10000) 1 in
    let h_index_score := Rmin (Q2R h / 50) 1 in
    let publication_score := Rmin (log10 (Rmax (Q2R p) 1) / log10 500) 1 in
    let academic_score :=
      citation_score * 0.5 + h_index_score * 0.3 + publication_score * 0.2 in
    Ok (Rmin academic_score 1).

(** What a [for] loop over an object visits. *)
Definition iterate (v : pyval) : exc (list pyval) :=
  match v with
  | PList l => Ok l
  | PStr s => Ok (map (fun c => PStr (String c EmptyString)) (list_ascii_of_string s))
  | _ => Raise
  end.

(** The loop [for spec in specializations] of [_calculate_expertise_score]. *)
Fixpoint specialization_loop (specs : list pyval) (specialization_bonus : R)
  : exc R :=
  match specs with
  | [] => Ok specialization_bonus
  | PStr s :: rest =>
      if existsb (String.eqb (lower s)) (map lower high_value_specializations)
      then specialization_loop rest (specialization_bonus + 0.1)
      else specialization_loop rest specialization_bonus
  | _ :: _ => Raise
  end.

Section WithJson.

(** [json.loads]: the decoder of the standard library.  An object decodes to
    the list of its keys, which is what the loop over it visits. *)
Variable json_loads : string -> exc pyval.

(** Every later use of [expertise_score] is an addition of a float or
    [min] with a float: the outcome is [Raise] unless [ai_relevance_score]
    is a number, wherever the first such use is. *)
Definition _calculate_expertise_score
  (ai_relevance_score : pyval) (journalist_data : dict) : exc R :=
  a <- num_of ai_relevance_score ;;
  let expertise_score := Q2R a in
  let programming_expertise :=
    get_default journalist_data "programming_expertise" (PBool false) in
  let expertise_score :=
    if truthy programming_expertise then expertise_score + 0.2
    else expertise_score in
  let specializations := get_default journalist_data "specializations" (PList []) in
  let specializations :=
    match specializations with
    | PStr s =>
        match json_loads s with
        | Ok v => v
        | Raise => PList [PStr s]
        end
    | v => v
    end in
  specs <- iterate specializations ;;
  specialization_bonus <- specialization_loop specs 0 ;;
  let expertise_score := expertise_score + Rmin specialization_bonus 0.3 in
  Ok (Rmin expertise_score 1).

Definition is_academic_platform (source_platform : pyval) : bool :=
  match source_platform with
  | PStr s => (String.eqb s "google_scholar" || String.eqb s "researchgate")%bool
  | _ => false
  end.

(** The body of the [try] block of [calculate_reputation_score]. *)
Definition reputation_try (self : ReputationAnalyzer) (journalist_data : dict)
  : exc R :=
  let article_count := or_else (get journalist_data "article_count") (PInt 0) in
  let twitter_followers := or_else (get journalist_data "twitter_followers") (PInt 0) in
  let linkedin_connections := or_else (get journalist_data "linkedin_connections") (PInt 0) in
  let current_publication := get_default journalist_data "current_publication" (PStr "") in
  let ai_relevance_score := or_else (get journalist_data "ai_relevance_score") (PInt 0) in
  let is_verified := get_default journalist_data "is_verified" (PBool false) in
  let citation_count := or_else (get journalist_data "citation_count") (PInt 0) in
  let h_index := or_else (get journalist_data "h_index") (PInt 0) in
  let publication_count := or_else (get journalist_data "publication_count") (PInt 0) in
  let source_platform := get_default journalist_data "source_platform" (PStr "") in
  article_score <- _calculate_article_score article_count ;;
  social_score <- _calculate_social_score twitter_followers linkedin_connections ;;
  engagement_score <- _calculate_engagement_score journalist_data ;;
  publication_score <- _calculate_publication_quality_score current_publication ;;
  expertise_score <- _calculate_expertise_score ai_relevance_score journalist_data ;;
  academic_score <-
    _calculate_academic_score citation_count h_index publication_count source_platform ;;
  let verification_bonus := if truthy is_verified then 0.1 else 0 in
  let w := weights self in
  let reputation_score :=
    if is_academic_platform source_platform
    then
      academic_score * 0.6
      + publication_score * Q2R (Settings.publication_quality w)
      + expertise_score * Q2R (Settings.expertise_relevance w)
      + verification_bonus
    else
      article_score * Q2R (Settings.article_count w)
      + social_score * Q2R (Settings.social_followers w)
      + engagement_score * Q2R (Settings.engagement_rate w)
      + publication_score * Q2R (Settings.publication_quality w)
      + expertise_score * Q2R (Settings.expertise_relevance w)
      + verification_bonus in
  let final_score := Rmin (Rmax reputation_score 0) 1 in
  Ok final_score.

(** [calculate_reputation_score]: the [try] block, and [return 0.0] in the
    [except Exception] handler. *)
Definition calculate_reputation_score
  (self : ReputationAnalyzer) (journalist_data : dict) : R :=
  match reputation_try self journalist_data with
  | Ok final_score => final_score
  | Raise => 0
  end.

End WithJson.

End Reputation.

(* ------------------------------------------------------------------ *)
(** * [RelevanceScorer] *)

Module Relevance.

Import Text Regex.

Definition _build_keyword_weights : list (string * Q) :=
  [("artificial intelligence", 1.0); ("machine learning", 1.0);
   ("deep learning", 0.95); ("neural networks", 0.9);
   ("natural language processing", 0.9); ("computer vision", 0.9);
   ("reinforcement learning", 0.85); ("automation", 0.7);
   ("robotics", 0.75); ("chatbot", 0.6); ("algorithm", 0.65);
   ("data science", 0.7); ("big data", 0.6);
   ("predictive analytics", 0.65); ("programming", 0.8);
   ("software development", 0.75); ("coding", 0.7);
   ("software engineering", 0.75); ("web development", 0.6);
   ("mobile development", 0.6); ("devops", 0.65); ("tech startup", 0.6);
   ("silicon valley", 0.5); ("innovation", 0.4);
   ("digital transformation", 0.6); ("cloud computing", 0.65);
   ("cybersecurity", 0.7); ("blockchain", 0.6); ("technology", 0.3);
   ("tech", 0.3); ("digital", 0.25); ("internet", 0.2); ("software", 0.4)]%string.

Definition _build_programming_languages : list (string * Q) :=
  [("python", 0.9); ("r", 0.8); ("julia", 0.8); ("tensorflow", 0.95);
   ("pytorch", 0.95); ("scikit-learn", 0.9); ("javascript", 0.6);
   ("java", 0.6); ("c++", 0.7); ("scala", 0.7); ("go", 0.6);
   ("rust", 0.6); ("swift", 0.5); ("kotlin", 0.5); ("sql", 0.5);
   ("matlab", 0.7); ("hadoop", 0.7); ("spark", 0.8)]%string.

Definition _build_tech_companies : list (string * Q) :=
  [("openai", 1.0); ("deepmind", 1.0); ("anthropic", 1.0);
   ("nvidia", 0.9); ("google", 0.8); ("microsoft", 0.8); ("amazon", 0.7);
   ("meta", 0.7); ("apple", 0.7); ("tesla", 0.8); ("uber", 0.6);
   ("airbnb", 0.5); ("spotify", 0.5); ("netflix", 0.6);
   ("salesforce", 0.6); ("oracle", 0.5); ("ibm", 0.7); ("intel", 0.7);
   ("amd", 0.6)]%string.

Definition _build_ai_concepts : list (string * Q) :=
  [("supervised learning", 0.9); ("unsupervised learning", 0.9);
   ("semi-supervised learning", 0.85); ("transfer learning", 0.85);
   ("generative ai", 0.95); ("large language model", 0.95);
   ("transformer", 0.9); ("gpt", 0.9); ("bert", 0.85);
   ("convolutional neural network", 0.9);
   ("recurrent neural network", 0.85); ("gradient descent", 0.8);
   ("backpropagation", 0.8); ("feature engineering", 0.75);
   ("model training", 0.8); ("hyperparameter tuning", 0.75);
   ("overfitting", 0.7); ("cross-validation", 0.7);
   ("ensemble methods", 0.75); ("random forest", 0.7);
   ("support vector machine", 0.7); ("k-means clustering", 0.65);
   ("decision tree", 0.6); ("linear regression", 0.6);
   ("logistic regression", 0.6)]%string.

Record RelevanceScorer : Type := {
  ai_keywords : list (string * Q);
  programming_languages : list (string * Q);
  tech_companies : list (string * Q);
  ai_concepts : list (string * Q)
}.

(** [RelevanceScorer.__init__] *)
Definition init : RelevanceScorer := {|
  ai_keywords := _build_keyword_weights;
  programming_languages := _build_programming_languages;
  tech_companies := _build_tech_companies;
  ai_concepts := _build_ai_concepts
|}.

Open Scope R_scope.

(** The loop of [_calculate_keyword_score] over [self.ai_keywords.items()]. *)
Fixpoint keyword_loop (table : list (string * Q)) (text : string) (score : R)
  : R :=
  match table with
  | [] => score
  | (keyword, weight) :: rest =>
      let count := findall_word_ic keyword text in
      if Nat.ltb 0 count
      then
        let keyword_score := Q2R weight * (1 - exp (- INR count)) in
        keyword_loop rest text (score + keyword_score)
      else keyword_loop rest text score
  end.

(** The entries of a table found in the text, with their numbers of
    occurrences: the iterations of [keyword_loop] that add to the score. *)
Definition keyword_hits (table : list (string * Q)) (text : string)
  : list (Q * nat) :=
  filter (fun h => Nat.ltb 0 (snd h))
         (map (fun kw => (snd kw, findall_word_ic (fst kw) text)) table).

Definition add_hit (score : R) (h : Q * nat) : R :=
  score + Q2R (fst h) * (1 - exp (- INR (snd h))).

Definition _calculate_keyword_score (self : RelevanceScorer) (text : string) : R :=
  let word_count := Text.word_count text in
  if Nat.eqb word_count 0 then 0
  else
    let score := keyword_loop (ai_keywords self) text 0 in
    let normalized_score := score / Rmax (ln (INR word_count + 1)) 1 in
    Rmin normalized_score 1.

(** The loop shared by the programming, company and concept scores: the
    weights of the entries found in the text are added up. *)
Fixpoint weight_loop (table : list (string * Q)) (text : string) (score : Q) : Q :=
  match table with
  | [] => score
  | (entry, weight) :: rest =>
      if search_word_ic entry text
      then weight_loop rest text (score + weight)%Q
      else weight_loop rest text score
  end.

Definition _calculate_programming_score (self : RelevanceScorer) (text : string) : R :=
  let score := weight_loop (programming_languages self) text 0%Q in
  Rmin (Q2R score / 3) 1.

Definition _calculate_company_score (self : RelevanceScorer) (text : string) : R :=
  let score := weight_loop (tech_companies self) text 0%Q in
  Rmin (Q2R score / 2) 1.

Definition _calculate_concept_score (self : RelevanceScorer) (text : string) : R :=
  let score := weight_loop (ai_concepts self) text 0%Q in
  Rmin (Q2R score / 5) 1.

Fixpoint seq (rs : list regex) : regex :=
  match rs with
  | [] => Eps
  | [r] => r
  | r :: rs' => Cat r (seq rs')
  end.

Definition explicit_patterns : list regex :=
  [ (* ai\s+journalist *)
    seq [Lit "ai"; Plus Space; Lit "journalist"];
    (* artificial\s+intelligence\s+reporter *)
    seq [Lit "artificial"; Plus Space; Lit "intelligence"; Plus Space; Lit "reporter"];
    (* machine\s+learning\s+correspondent *)
    seq [Lit "machine"; Plus Space; Lit "learning"; Plus Space; Lit "correspondent"];
    (* tech\s+journalist.*ai *)
    seq [Lit "tech"; Plus Space; Lit "journalist"; Star Dot; Lit "ai"];
    (* ai.*journalist *)
    seq [Lit "ai"; Star Dot; Lit "journalist"];
    (* covers?\s+artificial\s+intelligence *)
    seq [Lit "cover"; Opt (Chr "s"); Plus Space; Lit "artificial"; Plus Space;
         Lit "intelligence"];
    (* specializes?\s+in\s+ai *)
    seq [Lit "specialize"; Opt (Chr "s"); Plus Space; Lit "in"; Plus Space; Lit "ai"];
    (* focuses?\s+on\s+machine\s+learning *)
    seq [Lit "focuse"; Opt (Chr "s"); Plus Space; Lit "on"; Plus Space;
         Lit "machine"; Plus Space; Lit "learning"] ].

(** The patterns are searched with [re.IGNORECASE]; they are written in
    lower case, so the search is the case-sensitive one on the lowered
    text. *)
Definition _is_explicit_ai_journalist (text : string) : bool :=
  existsb (fun pattern => Regex.search pattern (lower text)) explicit_patterns.

(** The strings of a list, or [Raise] when an item is not a string
    ([str.join] raises [TypeError] on it). *)
Fixpoint strings_of (l : list pyval) : exc (list string) :=
  match l with
  | [] => Ok []
  | PStr s :: rest => ss <- strings_of rest ;; Ok (s :: ss)
  | _ :: _ => Raise
  end.

(** The body of the [try] block of [calculate_ai_relevance_score]. *)
Definition relevance_try (self : RelevanceScorer) (journalist_data : dict) : exc R :=
  specializations_text <-
    match get journalist_data "specializations" with
    | PList l => ss <- strings_of l ;; Ok (PStr (join " " ss))
    | _ => Ok (get_default journalist_data "specializations" (PStr ""))
    end ;;
  let text_sources :=
    [ get_default journalist_data "bio" (PStr "");
      get_default journalist_data "job_title" (PStr "");
      specializations_text;
      get_default journalist_data "name" (PStr "") ] in
  parts <- strings_of (filter truthy text_sources) ;;
  let combined_text := lower (join " " parts) in
  if is_blank combined_text then Ok 0
  else
    let keyword_score := _calculate_keyword_score self combined_text in
    let programming_score := _calculate_programming_score self combined_text in
    let company_score := _calculate_company_score self combined_text in
    let concept_score := _calculate_concept_score self combined_text in
    let final_score :=
      keyword_score * 0.4 + programming_score * 0.25
      + company_score * 0.2 + concept_score * 0.15 in
    let final_score :=
      if _is_explicit_ai_journalist combined_text then final_score + 0.2
      else final_score in
    let final_score := Rmin (Rmax final_score 0) 1 in
    Ok final_score.

(** [calculate_ai_relevance_score]: the [try] block, and [return 0.0] in
    the [except Exception] handler. *)
Definition calculate_ai_relevance_score
  (self : RelevanceScorer) (journalist_data : dict) : R :=
  match relevance_try self journalist_data with
  | Ok final_score => final_score
  | Raise => 0
  end.

End Relevance.

(* ------------------------------------------------------------------ *)
(** * The [journalists] table and [DatabaseManager.add_journalist]

    The table is the list of its rows in insertion order; [.first()] on an
    unordered query returns the first row of that list, as SQLite does on
    a table whose rows keep the identifiers they were inserted with.  A
    row holds one value per column.  Timestamps are integers and the clock reading [now]
    used by [func.now()] is an argument.  Values are stored as they are
    given (the type affinity conversions of SQLite are not modelled); keys
    of an incoming record that are attributes of the mapped class without
    being columns are treated as unknown keys. *)

Module Database.

Import Text.

(** [models.py], class [Journalist]: the columns in declaration order. *)
Definition columns : list string :=
  ["id"; "name"; "email"; "bio"; "current_publication"; "job_title";
   "specializations"; "twitter_handle"; "linkedin_url"; "website_url";
   "country"; "city"; "timezone"; "reputation_score"; "article_count";
   "twitter_followers"; "linkedin_connections"; "citation_count"; "h_index";
   "publication_count"; "ai_relevance_score"; "programming_expertise";
   "source_platform"; "last_updated"; "created_at"; "is_verified"]%string.

Definition boolean_columns : list string :=
  ["programming_expertise"; "is_verified"]%string.

Definition datetime_columns : list string :=
  ["last_updated"; "created_at"]%string.

Definition mem (k : string) (l : list string) : bool := existsb (String.eqb k) l.

Definition Journalist : Type := dict.
Definition table : Type := list Journalist.

(** [Column(..., default=...)] *)
Definition column_default (now next_id : Z) (col : string) : pyval :=
  if String.eqb col "id" then PInt next_id
  else if mem col ["reputation_score"; "ai_relevance_score"]%string then PFloat 0
  else if mem col ["article_count"; "twitter_followers"; "linkedin_connections";
                   "citation_count"; "h_index"; "publication_count"]%string
       then PInt 0
  else if mem col boolean_columns then PBool false
  else if mem col datetime_columns then PInt now
  else PNone.

Definition is_none (v : pyval) : bool :=
  match v with PNone => true | _ => false end.

(** [isinstance(v, str) and v.strip() == ""] *)
Definition is_blank_str (v : pyval) : bool :=
  match v with PStr s => is_blank s | _ => false end.

(** [hasattr(existing, key)] *)
Definition hasattr (key : string) : bool := mem key columns.

Definition is_score (key : string) : bool :=
  mem key ["reputation_score"; "ai_relevance_score"]%string.

(** [a == b] on the values a row can hold; lists compare item by item. *)
Fixpoint py_eqb (a b : pyval) : bool :=
  match a, b with
  | PNone, PNone => true
  | PStr s, PStr t => String.eqb s t
  | PList l1, PList l2 =>
      (fix go (l1 l2 : list pyval) : bool :=
         match l1, l2 with
         | [], [] => true
         | x :: xs, y :: ys => py_eqb x y && go xs ys
         | _, _ => false
         end) l1 l2
  | _, _ =>
      match num_of a, num_of b with
      | Ok p, Ok q => Qeq_bool p q
      | _, _ => false
      end
  end.

(** [value > current_value]: numbers with numbers, strings with strings;
    [TypeError] otherwise (a stored value is never a list). *)
Definition py_gt (value current : pyval) : exc bool :=
  match value, current with
  | PStr s, PStr t => Ok (String.ltb t s)
  | _, _ =>
      match num_of value, num_of current with
      | Ok p, Ok q => Ok (Qlt_bool q p)
      | _, _ => Raise
      end
  end.

(** The SQL comparison [column = value]: never true on [NULL]. *)
Definition sql_eq (stored value : pyval) : bool :=
  negb (is_none stored) && py_eqb stored value.

(** Can the driver bind the value as a statement parameter? *)
Definition bindable (v : pyval) : bool :=
  match v with PList _ => false | _ => true end.

(** Can the value be written to the column?  [Boolean] and [DateTime]
    validate what they are given. *)
Definition storable (col : string) (v : pyval) : bool :=
  if is_none v then true
  else if mem col boolean_columns then
    match v with
    | PBool _ => true
    | PInt z => Z.eqb z 0 || Z.eqb z 1
    | PFloat q => Qeq_bool q 0 || Qeq_bool q 1
    | _ => false
    end
  else if mem col datetime_columns then
    match v with PInt _ => true | _ => false end
  else bindable v.

Definition row_storable (r : Journalist) : bool :=
  forallb (fun col => storable col (get r col)) columns.

(** [query(Journalist).filter(Journalist.<col> == value).first()]: the rows
    in front of the first match, the match, and the rows behind it. *)
Fixpoint first_match (col : string) (value : pyval) (db : table)
  : option (table * Journalist * table) :=
  match db with
  | [] => None
  | r :: rest =>
      if sql_eq (get r col) value then Some ([], r, rest)
      else
        match first_match col value rest with
        | Some (before, e, after) => Some (r :: before, e, after)
        | None => None
        end
  end.

(** Is there a row whose [col] equals [value]? *)
Definition taken (col : string) (value : pyval) (db : table) : bool :=
  existsb (fun r => sql_eq (get r col) value) db.

(** The query raises (a [SQLAlchemyError]) on a value the driver cannot
    bind. *)
Definition query_first (col : string) (value : pyval) (db : table)
  : exc (option (table * Journalist * table)) :=
  if bindable value then Ok (first_match col value db) else Raise.

(** Lines 45-49: look the record up by email, then by name. *)
Definition find_existing (db : table) (journalist_data : dict)
  : exc (option (table * Journalist * table)) :=
  existing <-
    (if truthy (get journalist_data "email")
     then query_first "email" (get journalist_data "email") db
     else Ok None) ;;
  match existing with
  | Some _ => Ok existing
  | None =>
      if truthy (get journalist_data "name")
      then query_first "name" (get journalist_data "name") db
      else Ok None
  end.

(** Lines 61-67: the body of the loop, for one item of the record. *)
Definition merge_step (existing : Journalist) (key : string) (value : pyval)
  : exc Journalist :=
  if hasattr key && negb (is_none value) then
    let current_value := get existing key in
    if is_none current_value || is_blank_str current_value
    then Ok (set existing key value)
    else if is_score key then
      gt <- py_gt value current_value ;;
      if gt then Ok (set existing key value) else Ok existing
    else Ok existing
  else Ok existing.

(** Lines 60-67: the loop over [journalist_data.items()]. *)
Fixpoint merge_loop (existing : Journalist) (items : dict) : exc Journalist :=
  match items with
  | [] => Ok existing
  | (key, value) :: rest =>
      existing' <- merge_step existing key value ;;
      merge_loop existing' rest
  end.

(** Has the flush anything to write for column [col]? *)
Definition col_changed (old new : Journalist) (col : string) : bool :=
  negb (py_eqb (get old col) (get new col)).

Definition row_changed (old new : Journalist) : bool :=
  existsb (col_changed old new) columns.

(** The [UNIQUE] and [PRIMARY KEY] constraints, checked by an [UPDATE] that
    writes the column. *)
Definition unique_ok (old new : Journalist) (others : table) (col : string) : bool :=
  negb (col_changed old new col) || negb (taken col (get new col) others).

(** [onupdate=func.now()]: the [UPDATE] sets [last_updated] to the clock
    unless it writes the column itself. *)
Definition touch (now : Z) (old new : Journalist) : Journalist :=
  if col_changed old new "last_updated" then new
  else set new "last_updated" (PInt now).

Definition max_id (db : table) : Z :=
  fold_right (fun r m => match get r "id" with PInt z => Z.max z m | _ => m end)
             0%Z db.

(** The row built by the constructor call of line 77 from the keyword
    arguments, as the [INSERT] writes it: a column that is absent or [None]
    takes its default. *)
Definition new_row (now : Z) (db : table) (journalist_data : dict) : Journalist :=
  map (fun col =>
         (col,
          match lookup journalist_data col with
          | Some v => if is_none v then column_default now (max_id db + 1) col else v
          | None => column_default now (max_id db + 1) col
          end))
      columns.

Definition insert_ok (db : table) (row : Journalist) : bool :=
  negb (is_none (get row "name"))
  && row_storable row
  && match get row "id" with PInt _ => true | _ => false end
  && negb (taken "id" (get row "id") db)
  && negb (taken "email" (get row "email") db).

Inductive outcome : Type :=
| Stored (j : Journalist)    (* the refreshed row is returned *)
| NoResult                   (* SQLAlchemyError: rollback, [return None] *)
| Propagated.                (* another exception leaves the function *)

Section WithJson.

(** [json.dumps], the encoder of the standard library. *)
Variable json_dumps : list pyval -> string.

(** Lines 56-57 and 74-75: a list of specializations is replaced, in the
    caller's dictionary, by its JSON text. *)
Definition encode_specializations (journalist_data : dict) : dict :=
  if has_key journalist_data "specializations" then
    match get journalist_data "specializations" with
    | PList l => set journalist_data "specializations" (PStr (json_dumps l))
    | _ => journalist_data
    end
  else journalist_data.

(** [add_journalist]: the outcome, the table afterwards, and the caller's
    dictionary afterwards. *)
Definition add_journalist (db : table) (now : Z) (journalist_data : dict)
  : outcome * table * dict :=
  match find_existing db journalist_data with
  | Raise => (NoResult, db, journalist_data)
  | Ok (Some (before, existing, after)) =>
      let journalist_data := encode_specializations journalist_data in
      match merge_loop existing journalist_data with
      | Raise => (Propagated, db, journalist_data)
      | Ok merged =>
          if row_changed existing merged then
            if row_storable merged
               && unique_ok existing merged (before ++ after) "id"
               && unique_ok existing merged (before ++ after) "email"
            then
              let stored := touch now existing merged in
              (Stored stored, before ++ stored :: after, journalist_data)
            else (NoResult, db, journalist_data)
          else (Stored existing, db, journalist_data)
      end
  | Ok None =>
      let journalist_data := encode_specializations journalist_data in
      if forallb (fun kv => hasattr (fst kv)) journalist_data then
        let journalist := new_row now db journalist_data in
        if insert_ok db journalist
        then (Stored journalist, db ++ [journalist], journalist_data)
        else (NoResult, db, journalist_data)
      else (Propagated, db, journalist_data)
  end.

End WithJson.

End Database.

(* ------------------------------------------------------------------ *)
(** * Example data *)

Module Examples.

(** A decoder for which no text is valid JSON.  The example records hold no
    textual specializations, so it is never consulted. *)
Definition reject_json : string -> exc pyval := fun _ => Raise.

(** The profile of the specification's first scenario. *)
Definition smith : dict :=
  [("name", PStr "A. Smith");
   ("bio", PStr "Senior AI reporter covering machine learning");
   ("twitter_followers", PInt 15000);
   ("is_verified", PBool true);
   ("current_publication", PStr "TechCrunch")]%string.

(** Its combined text, and its social score. *)
Definition smith_text : string :=
  "senior ai reporter covering machine learning a. smith".

Definition smith_social : R := (log10 (15000 + 1) / log10 (100000 + 1))%R.

(** An encoder for the examples: exact on lists of strings that need no
    escaping; any other item is written as [null]. *)
Definition example_dumps (l : list pyval) : string :=
  let quote := String (ascii_of_nat 34) EmptyString in
  ("[" ++ Text.join ", "
            (map (fun v => match v with
                           | PStr s => quote ++ s ++ quote
                           | _ => "null"
                           end) l)
       ++ "]")%string.

(** A first sighting, the row it is stored as at time 100, and the table
    that holds this row only. *)
Definition ann : dict :=
  [("name", PStr "Ann Lee");
   ("email", PStr "ann@example.org");
   ("ai_relevance_score", PFloat 0.4)]%string.

Definition ann_row : Database.Journalist := Database.new_row 100 [] ann.

Definition ann_db : Database.table := [ann_row].

(** Later sightings of the same person. *)
Definition ann_better_score : dict :=
  [("name", PStr "Ann Lee"); ("ai_relevance_score", PFloat 0.9)]%string.

Definition ann_bio : dict :=
  [("name", PStr "Ann Lee"); ("bio", PStr "Writes about robots")]%string.

Definition ann_other_email : dict :=
  [("name", PStr "Ann Lee");
   ("email", PStr "lee@example.org");
   ("bio", PStr "Writes about robots")]%string.






(** A publication that is not text, and a biography that is not text. *)
Definition bad_publication : dict := [("current_publication", PInt 123)]%string.
Definition bad_bio : dict := [("bio", PInt 123)]%string.




End Examples.

(* ------------------------------------------------------------------ *)
(** * [ReputationAnalyzer.analyze_journalist_portfolio] *)

Module Portfolio.

Import Reputation.

(** The dictionary the function returns. *)
Record analysis : Type := {
  overall_score : R;
  strengths : list string;
  weaknesses : list string;
  recommendations : list string
}.

(** [value > bound] and [value < bound] against a number literal:
    [TypeError] unless the value is a number. *)
Definition gt (value : pyval) (bound : Q) : exc bool :=
  n <- num_of value ;; Ok (Qlt_bool bound n).

Definition lt (value : pyval) (bound : Q) : exc bool :=
  n <- num_of value ;; Ok (Qlt_bool n bound).

(** [if cond: l.append(item)] *)
Definition append_if (cond : bool) (item : string) (l : list string)
  : list string :=
  if cond then l ++ [item] else l.

Section WithJson.

Variable json_loads : string -> exc pyval.

(** The function has no [try]: an exception of a comparison or of
    [_is_major_publication] leaves it. *)
Definition analyze_journalist_portfolio
  (self : ReputationAnalyzer) (journalist_data : dict) : exc analysis :=
  let overall_score := calculate_reputation_score json_loads self journalist_data in
  let article_count := get_default journalist_data "article_count" (PInt 0) in
  let twitter_followers := get_default journalist_data "twitter_followers" (PInt 0) in
  let publication := get_default journalist_data "current_publication" (PStr "") in
  let ai_relevance := get_default journalist_data "ai_relevance_score" (PInt 0) in
  (* strengths *)
  many_articles <- gt article_count 100 ;;
  let strengths := append_if many_articles "High article output" [] in
  many_followers <- gt twitter_followers 10000 ;;
  let strengths := append_if many_followers "Strong social media presence" strengths in
  major <- _is_major_publication publication ;;
  let strengths := append_if major "Works for reputable publication" strengths in
  expert <- gt ai_relevance 0.7 ;;
  let strengths := append_if expert "Strong AI/tech expertise" strengths in
  (* weaknesses *)
  few_articles <- lt article_count 10 ;;
  let weaknesses := append_if few_articles "Limited published work" [] in
  few_followers <- lt twitter_followers 1000 ;;
  let weaknesses := append_if few_followers "Small social media following" weaknesses in
  let weaknesses :=
    append_if (negb (truthy publication)) "No clear publication affiliation" weaknesses in
  unfocused <- lt ai_relevance 0.3 ;;
  let weaknesses := append_if unfocused "Limited AI/tech focus" weaknesses in
  (* recommendations *)
  unproven <- lt article_count 50 ;;
  let recommendations :=
    append_if unproven "Look for more published articles to verify expertise" [] in
  let recommendations :=
    append_if (negb (truthy (get journalist_data "email")))
              "Find contact information for outreach" recommendations in
  unverified <- lt ai_relevance 0.5 ;;
  let recommendations :=
    append_if unverified "Verify AI/tech specialization before interview"
              recommendations in
  Ok {| overall_score := overall_score;
        strengths := strengths;
        weaknesses := weaknesses;
        recommendations := recommendations |}.

End WithJson.

End Portfolio.

(* ------------------------------------------------------------------ *)
(** * Weight tables *)

Module Weights.

(** No weight of the table is negative. *)
Definition nonneg (table : list (string * Q)) : Prop :=
  Forall (fun kw => (0 <= snd kw)%Q) table.

End Weights.

(* ------------------------------------------------------------------ *)
(** * [RelevanceScorer]: the analysis of a text and of a list of articles

    The numbers of this part are sums, products and quotients of the
    weights and of integers: they stay rational. *)

Module Content.

Import Text Relevance.

(** [s.count(sub)] for a [sub] that is not empty: occurrences are counted
    from left to right and do not overlap; [skip] counts the characters of
    the current occurrence still to be passed. *)
Fixpoint count_from (sub s : string) (skip : nat) : nat :=
  match s with
  | EmptyString => 0
  | String _ rest =>
      match skip with
      | S k => count_from sub rest k
      | O =>
          if String.prefix sub s
          then S (count_from sub rest (String.length sub - 1))
          else count_from sub rest 0
      end
  end.

Definition count (sub s : string) : nat := count_from sub s 0.

(** [min(a, b)] on two numbers: the first of them unless the second is
    smaller. *)
Definition py_min (a b : Q) : Q := if Qlt_bool b a then b else a.

(** The dictionary [analysis] when the function returns it: an entry of
    [ai_keywords_found] is (keyword, weight, count), an entry of the three
    other lists is (term, weight). *)
Record analysis : Type := {
  overall_relevance : Q;
  ai_keywords_found : list (string * Q * nat);
  programming_languages_found : list (string * Q);
  tech_companies_found : list (string * Q);
  ai_concepts_found : list (string * Q);
  sentiment : string;
  technical_depth : string
}.

(** What [analyze_content_relevance] returns: [analysis], or the dictionary
    [{'overall_relevance': 0.0, 'error': ...}] of its handler. *)
Inductive result : Type :=
| Analysis (a : analysis)
| Error.

(** Lines 296-302: the loop over [self.ai_keywords.items()]. *)
Fixpoint find_keywords (table : list (string * Q)) (content_lower : string)
  : list (string * Q * nat) :=
  match table with
  | [] => []
  | (keyword, weight) :: rest =>
      if contains keyword content_lower
      then (keyword, weight, count keyword content_lower)
             :: find_keywords rest content_lower
      else find_keywords rest content_lower
  end.

(** Lines 305-318: the loops over the languages and over the companies,
    which search whole words. *)
Fixpoint find_words (table : list (string * Q)) (content_lower : string)
  : list (string * Q) :=
  match table with
  | [] => []
  | (term, weight) :: rest =>
      if search_word term content_lower
      then (term, weight) :: find_words rest content_lower
      else find_words rest content_lower
  end.

(** Lines 321-326: the loop over the concepts, which tests [in]. *)
Fixpoint find_substrings (table : list (string * Q)) (content_lower : string)
  : list (string * Q) :=
  match table with
  | [] => []
  | (concept, weight) :: rest =>
      if contains concept content_lower
      then (concept, weight) :: find_substrings rest content_lower
      else find_substrings rest content_lower
  end.

(** [sum(weights)]: from 0, left to right. *)
Definition sum (weights : list Q) : Q :=
  fold_left Qplus weights 0%Q.

Definition nonempty {A : Type} (l : list A) : bool :=
  match l with [] => false | _ => true end.

Section WithLibraries.

(** [TextBlob(content).sentiment.polarity], which may raise. *)
Variable polarity : string -> exc Q.

(** [format(value, '')]: what an f-string writes for [{value}]. *)
Variable format : pyval -> string.

(** Lines 415-422 of [_calculate_recency_weight]: the date is parsed when
    it is text, and the whole days from it to the reading of the clock are
    counted; any of this may raise. *)
Variable days_ago : pyval -> exc Z.

Definition analyze_text (self : RelevanceScorer) (content : string) : analysis :=
  let content_lower := lower content in
  let ai_keywords_found := find_keywords (ai_keywords self) content_lower in
  let programming_languages_found :=
    find_words (programming_languages self) content_lower in
  let tech_companies_found := find_words (tech_companies self) content_lower in
  let ai_concepts_found := find_substrings (ai_concepts self) content_lower in
  let total_weight := 0%Q in
  let total_weight :=
    if nonempty ai_keywords_found
    then (total_weight + sum (map (fun item => snd (fst item)) ai_keywords_found))%Q
    else total_weight in
  let total_weight :=
    if nonempty programming_languages_found
    then (total_weight + sum (map snd programming_languages_found))%Q
    else total_weight in
  let total_weight :=
    if nonempty tech_companies_found
    then (total_weight + sum (map snd tech_companies_found))%Q
    else total_weight in
  let total_weight :=
    if nonempty ai_concepts_found
    then (total_weight + sum (map snd ai_concepts_found))%Q
    else total_weight in
  let sentiment :=
    match polarity content with
    | Ok sentiment_score =>
        if Qlt_bool 0.1 sentiment_score then "positive"
        else if Qlt_bool sentiment_score (-0.1) then "negative"
        else "neutral"
    | Raise => "neutral"
    end%string in
  let technical_terms :=
    (List.length ai_concepts_found + List.length programming_languages_found)%nat in
  let technical_depth :=
    (if Nat.leb 5 technical_terms then "expert"
     else if Nat.leb 3 technical_terms then "intermediate"
     else if Nat.leb 1 technical_terms then "basic"
     else "minimal")%string in
  {| overall_relevance := py_min (total_weight / 5) 1;
     ai_keywords_found := ai_keywords_found;
     programming_languages_found := programming_languages_found;
     tech_companies_found := tech_companies_found;
     ai_concepts_found := ai_concepts_found;
     sentiment := sentiment;
     technical_depth := technical_depth |}.

(** [analyze_content_relevance]: on text the [try] block returns; on any
    other object [content.lower()] raises and the handler returns. *)
Definition analyze_content_relevance (self : RelevanceScorer) (content : pyval)
  : result :=
  match content with
  | PStr s => Analysis (analyze_text self s)
  | _ => Error
  end.

(** [article_analysis.get('overall_relevance', 0.0)] *)
Definition relevance_of (r : result) : Q :=
  match r with
  | Analysis a => overall_relevance a
  | Error => 0
  end.

Definition _calculate_recency_weight (publication_date : pyval) : Q :=
  if negb (truthy publication_date) then 0.5
  else
    match days_ago publication_date with
    | Ok days =>
        if Z.leb days 30 then 1.0
        else if Z.leb days 90 then 0.9
        else if Z.leb days 180 then 0.8
        else if Z.leb days 365 then 0.7
        else if Z.leb days 730 then 0.6
        else 0.5
    | Raise => 0.5
    end.

(** Lines 379-395: the body of the loop of [score_journalist_articles]. *)
Definition weighted_relevance (self : RelevanceScorer) (article : dict) : Q :=
  let title := get_default article "title" (PStr "") in
  let content := get_default article "content" (PStr "") in
  let combined_text := (format title ++ " " ++ format content)%string in
  let article_analysis := analyze_content_relevance self (PStr combined_text) in
  let article_relevance := relevance_of article_analysis in
  let publication_date := get article "publication_date" in
  let recency_weight := _calculate_recency_weight publication_date in
  (article_relevance * recency_weight)%Q.

Definition score_journalist_articles (self : RelevanceScorer) (articles : list dict)
  : Q :=
  if negb (nonempty articles) then 0
  else
    let article_count := inject_Z (Z.of_nat (List.length articles)) in
    let total_relevance :=
      fold_left (fun total article => (total + weighted_relevance self article)%Q)
                articles 0%Q in
    let average_relevance := (total_relevance / article_count)%Q in
    let volume_bonus := py_min (article_count / 50) 0.2 in
    py_min (average_relevance + volume_bonus) 1.

End WithLibraries.

End Content.

(* ------------------------------------------------------------------ *)
(** * [RelevanceScorer.calculate_ai_relevance_score]: the text it scores *)

Module CombinedText.

Import Text Relevance.

(** Lines 159-166: the four text sources, joined and lowered. *)
Definition combined_text (journalist_data : dict) : exc string :=
  specializations_text <-
    match get journalist_data "specializations" with
    | PList l => ss <- strings_of l ;; Ok (PStr (join " " ss))
    | _ => Ok (get_default journalist_data "specializations" (PStr ""))
    end ;;
  let text_sources :=
    [ get_default journalist_data "bio" (PStr "");
      get_default journalist_data "job_title" (PStr "");
      specializations_text;
      get_default journalist_data "name" (PStr "") ] in
  parts <- strings_of (filter truthy text_sources) ;;
  Ok (lower (join " " parts)).

End CombinedText.

(* ------------------------------------------------------------------ *)
(** * [DatabaseManager.get_journalist_by_id] and [update_journalist] *)

Module Crud.

Import Database.

(** The identifier is an integer, as the signature says. *)
Definition get_journalist_by_id (db : table) (journalist_id : Z)
  : option Journalist :=
  match first_match "id" (PInt journalist_id) db with
  | Some (_, journalist, _) => Some journalist
  | None => None
  end.

(** Lines 105-107: the loop over [update_data.items()].  Setting an
    attribute to a value equal ([==]) to the one loaded leaves nothing to
    flush for its column, and the refresh reads the stored value back: the
    row is written where the value differs. *)
Fixpoint update_loop (journalist : Journalist) (items : dict) : Journalist :=
  match items with
  | [] => journalist
  | (key, value) :: rest =>
      update_loop
        (if hasattr key && negb (py_eqb (get journalist key) value)
         then set journalist key value
         else journalist)
        rest
  end.

(** Does the [UPDATE] go through?  Every value must fit its column, [name]
    is [NOT NULL], the primary key is an integer, and the primary key and
    the email stay unique. *)
Definition update_ok (old new : Journalist) (others : table) : bool :=
  row_storable new
  && negb (is_none (get new "name"))
  && match get new "id" with PInt _ => true | _ => false end
  && unique_ok old new others "id"
  && unique_ok old new others "email".

Section WithJson.

Variable json_dumps : list pyval -> string.

(** [update_journalist]: the outcome, the table afterwards, and the
    caller's dictionary afterwards. *)
Definition update_journalist
  (db : table) (now : Z) (journalist_id : Z) (update_data : dict)
  : outcome * table * dict :=
  match first_match "id" (PInt journalist_id) db with
  | None => (NoResult, db, update_data)
  | Some (before, journalist, after) =>
      let update_data := encode_specializations json_dumps update_data in
      let updated := update_loop journalist update_data in
      if row_changed journalist updated then
        if update_ok journalist updated (before ++ after)
        then
          let stored := touch now journalist updated in
          (Stored stored, before ++ stored :: after, update_data)
        else (NoResult, db, update_data)
      else (Stored journalist, db, update_data)
  end.

End WithJson.

(** The table respects its primary key: every [id] is an integer and no two
    rows share one. *)
Definition has_id (r : Journalist) : bool :=
  match get r "id" with PInt _ => true | _ => false end.

(** The identifier of a row that has one. *)
Definition id_of (r : Journalist) : Z :=
  match get r "id" with PInt z => z | _ => 0%Z end.

Fixpoint col_unique (col : string) (db : table) : bool :=
  match db with
  | [] => true
  | r :: rest => negb (taken col (get r col) rest) && col_unique col rest
  end.

Definition keyed (db : table) : bool :=
  forallb has_id db && col_unique "id" db.

End Crud.

(* ------------------------------------------------------------------ *)
(** * The [articles] table and [DatabaseManager.add_article]

    The table is modelled like [journalists]: the list of its rows in
    insertion order, one value per column, integer timestamps. *)

Module Articles.

Import Database.

Definition Article : Type := dict.

(** [models.py], class [Article]: the columns in declaration order. *)
Definition columns : list string :=
  ["id"; "journalist_id"; "title"; "url"; "publication_date";
   "publication_name"; "ai_keywords_count"; "programming_keywords_count";
   "relevance_score"; "social_shares"; "comments_count"; "scraped_at"]%string.

Definition datetime_columns : list string :=
  ["publication_date"; "scraped_at"]%string.

(** [Column(..., default=...)] *)
Definition column_default (now next_id : Z) (col : string) : pyval :=
  if String.eqb col "id" then PInt next_id
  else if mem col ["ai_keywords_count"; "programming_keywords_count";
                   "social_shares"; "comments_count"]%string
       then PInt 0
  else if String.eqb col "relevance_score" then PFloat 0
  else if String.eqb col "scraped_at" then PInt now
  else PNone.

Definition storable (col : string) (v : pyval) : bool :=
  if is_none v then true
  else if mem col datetime_columns then
    match v with PInt _ => true | _ => false end
  else bindable v.

(** The filter [Article.<col> == value]: it is rendered [IS NULL] when the
    value is [None], and as an equality, never true on [NULL], otherwise. *)
Definition matches (col : string) (value : pyval) (r : Article) : bool :=
  if is_none value then is_none (get r col) else sql_eq (get r col) value.

(** The row built by the constructor call of line 175, as the [INSERT]
    writes it. *)
Definition new_article (now : Z) (db : list Article) (article_data : dict)
  : Article :=
  map (fun col =>
         (col,
          match lookup article_data col with
          | Some v => if is_none v then column_default now (max_id db + 1) col else v
          | None => column_default now (max_id db + 1) col
          end))
      columns.

(** [journalist_id] and [title] are [NOT NULL]; [id] and [url] are unique. *)
Definition insert_ok (db : list Article) (row : Article) : bool :=
  negb (is_none (get row "journalist_id"))
  && negb (is_none (get row "title"))
  && forallb (fun col => storable col (get row col)) columns
  && match get row "id" with PInt _ => true | _ => false end
  && negb (taken "id" (get row "id") db)
  && negb (taken "url" (get row "url") db).

(** [add_article]: the outcome and the table afterwards.  The query raises
    (a [SQLAlchemyError]) on a URL the driver cannot bind; a key that is no
    column makes the constructor raise [TypeError], which is not handled. *)
Definition add_article (db : list Article) (now : Z) (article_data : dict)
  : outcome * list Article :=
  let url := get article_data "url" in
  if bindable url then
    match find (matches "url" url) db with
    | Some existing => (Stored existing, db)
    | None =>
        if forallb (fun kv => mem (fst kv) columns) article_data then
          let article := new_article now db article_data in
          if insert_ok db article
          then (Stored article, db ++ [article])
          else (NoResult, db)
        else (Propagated, db)
    end
  else (NoResult, db).

(** No row repeats the URL of an earlier row, and no row follows an
    earlier row without URL with none of its own. *)
Fixpoint urls_distinct (db : list Article) : bool :=
  match db with
  | [] => true
  | r :: rest =>
      forallb (fun s => negb (matches "url" (get s "url") r)) rest
      && urls_distinct rest
  end.

End Articles.

(* ------------------------------------------------------------------ *)
(** * More example data *)

Module MoreExamples.

(** A [format] for the examples: exact on text and on [None]. *)
Definition example_format (v : pyval) : string :=
  match v with
  | PStr s => s
  | PNone => "None"
  | _ => "?"
  end.

(** A sentiment analysis that finds every text neutral. *)
Definition example_polarity : string -> exc Q := fun _ => Ok 0.

(** The calendar as read on 21 December 2025, for two dates. *)
Definition example_days_ago (v : pyval) : exc Z :=
  match v with
  | PStr s =>
      if String.eqb s "2025-12-01" then Ok 20%Z
      else if String.eqb s "2025-01-01" then Ok 354%Z
      else Raise
  | _ => Raise
  end.

(** Two sightings of articles: one with a URL, one without. *)
Definition story : dict :=
  [("journalist_id", PInt 1); ("title", PStr "Robots at work");
   ("url", PStr "https://example.org/robots")]%string.

Definition leaflet : dict :=
  [("journalist_id", PInt 1); ("title", PStr "Untitled leaflet")]%string.

Definition other_leaflet : dict :=
  [("journalist_id", PInt 2); ("title", PStr "Another leaflet")]%string.

End MoreExamples.

(* ------------------------------------------------------------------ *)
(** * The reputation score on floats that need not be finite

    [Reputation] reads the numbers of a record as rationals.  A Python
    float can also be an infinity or NaN, and an [int] can be too large to
    convert to a float.  This part embeds [calculate_reputation_score] a
    second time, on records that can hold such values, with the
    comparisons, [min], [max], [math.log10] and the arithmetic of Python on
    them.  Arithmetic on finite floats is exact, as before. *)

Module FloatReputation.

Import Settings Text.
Open Scope R_scope.

(** A float: a finite number, an infinity or NaN. *)
Inductive pyfloat : Type :=
| Fin (x : R)
| Inf (negative : bool)
| NaN.

(** A number: an [int] (a [bool] is one) or a [float]. *)
Inductive number : Type :=
| Int (z : Z)
| Flt (f : pyfloat).

(** What a record holds under a key: a value as before, whose floats are
    finite, or a float that is not finite.  Lists hold values as before: a
    float of any kind inside a list of specializations makes the loop over
    it raise. *)
Inductive value : Type :=
| Val (v : pyval)
| VInf (negative : bool)
| VNan.

Definition record : Type := list (string * value).

Fixpoint lookup (d : record) (k : string) : option value :=
  match d with
  | [] => None
  | (k', v) :: d' => if String.eqb k k' then Some v else lookup d' k
  end.

Definition get (d : record) (k : string) : value :=
  match lookup d k with Some v => v | None => Val PNone end.

Definition get_default (d : record) (k : string) (dflt : value) : value :=
  match lookup d k with Some v => v | None => dflt end.

(** [bool(x)]: an infinity and NaN are not zero. *)
Definition truthy (v : value) : bool :=
  match v with
  | Val v => Py.truthy v
  | VInf _ | VNan => true
  end.

Definition or_else (x y : value) : value := if truthy x then x else y.

Definition number_of (v : value) : exc number :=
  match v with
  | Val (PBool b) => Ok (Int (if b then 1 else 0)%Z)
  | Val (PInt z) => Ok (Int z)
  | Val (PFloat q) => Ok (Flt (Fin (Q2R q)))
  | VInf negative => Ok (Flt (Inf negative))
  | VNan => Ok (Flt NaN)
  | Val _ => Raise
  end.

(** The conversion of an operand to [float]: [OverflowError] on an [int]
    that does not round to a finite float. *)
Definition to_float (n : number) : exc pyfloat :=
  match n with
  | Int z =>
      if Z.ltb (Z.abs z) (2 ^ 1024 - 2 ^ 970)%Z then Ok (Fin (IZR z)) else Raise
  | Flt f => Ok f
  end.

(** The value a comparison reads: an [int] is compared with a [float]
    exactly, without conversion. *)
Definition exact (n : number) : pyfloat :=
  match n with
  | Int z => Fin (IZR z)
  | Flt f => f
  end.

(** [a < b], [a <= b] and [a == b] on floats: false when either is NaN. *)
Definition flt (a b : pyfloat) : bool :=
  match a, b with
  | NaN, _ | _, NaN => false
  | Fin x, Fin y => if Rlt_dec x y then true else false
  | Fin _, Inf negative => negb negative
  | Inf negative, Fin _ => negative
  | Inf n1, Inf n2 => n1 && negb n2
  end.

Definition fle (a b : pyfloat) : bool :=
  match a, b with
  | NaN, _ | _, NaN => false
  | Fin x, Fin y => if Rle_dec x y then true else false
  | Fin _, Inf negative => negb negative
  | Inf negative, Fin _ => negative
  | Inf n1, Inf n2 => n1 || negb n2
  end.

Definition feq (a b : pyfloat) : bool :=
  match a, b with
  | NaN, _ | _, NaN => false
  | Fin x, Fin y => if Req_dec_T x y then true else false
  | Inf n1, Inf n2 => Bool.eqb n1 n2
  | _, _ => false
  end.

Definition num_lt (a b : number) : bool :=
  match a, b with
  | Int x, Int y => Z.ltb x y
  | _, _ => flt (exact a) (exact b)
  end.

Definition num_le (a b : number) : bool :=
  match a, b with
  | Int x, Int y => Z.leb x y
  | _, _ => fle (exact a) (exact b)
  end.

(** [x == 0] never raises. *)
Definition is_zero (v : value) : bool :=
  match number_of v with
  | Ok (Int z) => Z.eqb z 0
  | Ok (Flt f) => feq f (Fin 0)
  | Raise => false
  end.

(** [min(a, b)] is [b] when [b < a] and [a] otherwise; [max(a, b)] is [b]
    when [b > a] and [a] otherwise.  A NaN in the first place is
    returned, a NaN in the second place is dropped. *)
Definition fmin (a b : pyfloat) : pyfloat := if flt b a then b else a.
Definition fmax (a b : pyfloat) : pyfloat := if flt a b then b else a.
Definition max_number (a b : number) : number := if num_lt a b then b else a.

(** [a + b] and [a * b] on floats. *)
Definition fadd (a b : pyfloat) : pyfloat :=
  match a, b with
  | NaN, _ | _, NaN => NaN
  | Fin x, Fin y => Fin (x + y)
  | Fin _, Inf negative | Inf negative, Fin _ => Inf negative
  | Inf n1, Inf n2 => if Bool.eqb n1 n2 then Inf n1 else NaN
  end.

Definition scale (negative : bool) (x : R) : pyfloat :=
  if Req_dec_T x 0 then NaN
  else if Rlt_dec 0 x then Inf negative else Inf (negb negative).

Definition fmul (a b : pyfloat) : pyfloat :=
  match a, b with
  | NaN, _ | _, NaN => NaN
  | Fin x, Fin y => Fin (x * y)
  | Fin x, Inf negative | Inf negative, Fin x => scale negative x
  | Inf n1, Inf n2 => Inf (xorb n1 n2)
  end.

(** [a / c] for a float [c] that is finite and positive. *)
Definition fdiv (a : pyfloat) (c : R) : pyfloat :=
  match a with
  | Fin x => Fin (x / c)
  | Inf negative => Inf negative
  | NaN => NaN
  end.

(** [a + b] and [a * b] on numbers: on two [int]s the result is an [int];
    otherwise both operands are converted. *)
Definition num_add (a b : number) : exc number :=
  match a, b with
  | Int x, Int y => Ok (Int (x + y))
  | _, _ => x <- to_float a ;; y <- to_float b ;; Ok (Flt (fadd x y))
  end.

Definition num_mul (a b : number) : exc number :=
  match a, b with
  | Int x, Int y => Ok (Int (x * y))
  | _, _ => x <- to_float a ;; y <- to_float b ;; Ok (Flt (fmul x y))
  end.

(** [math.log10]: [ValueError] on what is not positive; an [int] of any
    size is accepted. *)
Definition math_log10 (n : number) : exc pyfloat :=
  match n with
  | Int z => if Z.ltb 0 z then Ok (Fin (log10 (IZR z))) else Raise
  | Flt (Fin x) => if Rlt_dec 0 x then Ok (Fin (log10 x)) else Raise
  | Flt (Inf negative) => if negative then Raise else Ok (Inf false)
  | Flt NaN => Ok NaN
  end.

Definition _calculate_article_score (article_count : value) : exc pyfloat :=
  n <- number_of article_count ;;
  if num_le n (Int 0) then Ok (Fin 0)
  else
    let max_articles := 1000 in
    m <- num_add n (Int 1) ;;
    l <- math_log10 m ;;
    let score := fdiv l (log10 (max_articles + 1)) in
    Ok (fmin score (Fin 1)).

(** As in [Reputation]: the outcome is [Raise] unless both are numbers. *)
Definition _calculate_social_score (twitter_followers linkedin_connections : value)
  : exc pyfloat :=
  t <- number_of twitter_followers ;;
  l <- number_of linkedin_connections ;;
  l2 <- num_mul l (Int 2) ;;
  total_social <- num_add t l2 ;;
  if num_le total_social (Int 0) then Ok (Fin 0)
  else
    let max_social := 100000 in
    m <- num_add total_social (Int 1) ;;
    lg <- math_log10 m ;;
    let score := fdiv lg (log10 (max_social + 1)) in
    Ok (fmin score (Fin 1)).

(** A float that is not finite is true, and has no [lower]. *)
Definition _is_major_publication (publication : value) : exc bool :=
  match publication with
  | Val v => Reputation._is_major_publication v
  | VInf _ | VNan => Raise
  end.

Definition _calculate_engagement_score (journalist_data : record) : exc pyfloat :=
  twitter_followers <-
    number_of (get_default journalist_data "twitter_followers" (Val (PInt 0))) ;;
  if num_le twitter_followers (Int 0) then Ok (Fin 0.5)
  else
    let base_engagement :=
      if num_lt twitter_followers (Int 1000) then 0.8
      else if num_lt twitter_followers (Int 10000) then 0.6
      else if num_lt twitter_followers (Int 100000) then 0.4
      else 0.2 in
    let is_verified := get_default journalist_data "is_verified" (Val (PBool false)) in
    let publication := get_default journalist_data "current_publication" (Val (PStr "")) in
    let base_engagement :=
      if truthy is_verified then base_engagement + 0.1 else base_engagement in
    major <- _is_major_publication publication ;;
    let base_engagement :=
      if major then base_engagement + 0.1 else base_engagement in
    Ok (Fin (Rmin base_engagement 1)).

Definition _calculate_publication_quality_score (publication : value) : exc pyfloat :=
  match publication with
  | Val v => score <- Reputation._calculate_publication_quality_score v ;; Ok (Fin score)
  | VInf _ | VNan => Raise
  end.

Definition _calculate_academic_score
  (citation_count h_index publication_count source_platform : value) : exc pyfloat :=
  if (is_zero citation_count && is_zero h_index && is_zero publication_count)%bool
  then Ok (Fin 0)
  else
    c <- number_of citation_count ;;
    h <- number_of h_index ;;
    p <- number_of publication_count ;;
    lc <- math_log10 (max_number c (Int 1)) ;;
    let citation_score := fmin (fdiv lc (log10 10000)) (Fin 1) in
    hf <- to_float h ;;
    let h_index_score := fmin (fdiv hf 50) (Fin 1) in
    lp <- math_log10 (max_number p (Int 1)) ;;
    let publication_score := fmin (fdiv lp (log10 500)) (Fin 1) in
    let academic_score :=
      fadd (fadd (fmul citation_score (Fin 0.5)) (fmul h_index_score (Fin 0.3)))
           (fmul publication_score (Fin 0.2)) in
    Ok (fmin academic_score (Fin 1)).

(** What a [for] loop over an object visits. *)
Definition iterate (v : value) : exc (list pyval) :=
  match v with
  | Val v => Reputation.iterate v
  | VInf _ | VNan => Raise
  end.

Section WithJson.

(** [json.loads], which also reads [NaN] and [Infinity]. *)
Variable json_loads : string -> exc value.

(** As in [Reputation]: the outcome is [Raise] unless [ai_relevance_score]
    is a number.  The second addition has a float on its right, so its
    result is a float. *)
Definition _calculate_expertise_score
  (ai_relevance_score : value) (journalist_data : record) : exc pyfloat :=
  expertise_score <- number_of ai_relevance_score ;;
  let programming_expertise :=
    get_default journalist_data "programming_expertise" (Val (PBool false)) in
  expertise_score <-
    (if truthy programming_expertise then num_add expertise_score (Flt (Fin 0.2))
     else Ok expertise_score) ;;
  let specializations :=
    get_default journalist_data "specializations" (Val (PList [])) in
  let specializations :=
    match specializations with
    | Val (PStr s) =>
        match json_loads s with
        | Ok v => v
        | Raise => Val (PList [PStr s])
        end
    | v => v
    end in
  specs <- iterate specializations ;;
  specialization_bonus <- Reputation.specialization_loop specs 0 ;;
  e <- to_float expertise_score ;;
  let expertise_score := fadd e (Fin (Rmin specialization_bonus 0.3)) in
  Ok (fmin expertise_score (Fin 1)).

(** [source_platform in ['google_scholar', 'researchgate']] *)
Definition is_academic_platform (source_platform : value) : bool :=
  match source_platform with
  | Val v => Reputation.is_academic_platform v
  | VInf _ | VNan => false
  end.

(** The body of the [try] block of [calculate_reputation_score]. *)
Definition reputation_try
  (self : Reputation.ReputationAnalyzer) (journalist_data : record) : exc pyfloat :=
  let article_count := or_else (get journalist_data "article_count") (Val (PInt 0)) in
  let twitter_followers :=
    or_else (get journalist_data "twitter_followers") (Val (PInt 0)) in
  let linkedin_connections :=
    or_else (get journalist_data "linkedin_connections") (Val (PInt 0)) in
  let current_publication :=
    get_default journalist_data "current_publication" (Val (PStr "")) in
  let ai_relevance_score :=
    or_else (get journalist_data "ai_relevance_score") (Val (PInt 0)) in
  let is_verified := get_default journalist_data "is_verified" (Val (PBool false)) in
  let citation_count := or_else (get journalist_data "citation_count") (Val (PInt 0)) in
  let h_index := or_else (get journalist_data "h_index") (Val (PInt 0)) in
  let publication_count :=
    or_else (get journalist_data "publication_count") (Val (PInt 0)) in
  let source_platform := get_default journalist_data "source_platform" (Val (PStr "")) in
  article_score <- _calculate_article_score article_count ;;
  social_score <- _calculate_social_score twitter_followers linkedin_connections ;;
  engagement_score <- _calculate_engagement_score journalist_data ;;
  publication_score <- _calculate_publication_quality_score current_publication ;;
  expertise_score <- _calculate_expertise_score ai_relevance_score journalist_data ;;
  academic_score <-
    _calculate_academic_score citation_count h_index publication_count source_platform ;;
  let verification_bonus := if truthy is_verified then 0.1 else 0 in
  let w := Reputation.weights self in
  let reputation_score :=
    if is_academic_platform source_platform
    then
      fadd (fadd (fadd (fmul academic_score (Fin 0.6))
                       (fmul publication_score (Fin (Q2R (Settings.publication_quality w)))))
                 (fmul expertise_score (Fin (Q2R (Settings.expertise_relevance w)))))
           (Fin verification_bonus)
    else
      fadd (fadd (fadd (fadd (fadd
        (fmul article_score (Fin (Q2R (Settings.article_count w))))
        (fmul social_score (Fin (Q2R (Settings.social_followers w)))))
        (fmul engagement_score (Fin (Q2R (Settings.engagement_rate w)))))
        (fmul publication_score (Fin (Q2R (Settings.publication_quality w)))))
        (fmul expertise_score (Fin (Q2R (Settings.expertise_relevance w)))))
        (Fin verification_bonus) in
  let final_score := fmin (fmax reputation_score (Fin 0)) (Fin 1) in
  Ok final_score.

(** [calculate_reputation_score]: the [try] block, and [return 0.0] in the
    [except Exception] handler. *)
Definition calculate_reputation_score
  (self : Reputation.ReputationAnalyzer) (journalist_data : record) : pyfloat :=
  match reputation_try self journalist_data with
  | Ok final_score => final_score
  | Raise => Fin 0
  end.

End WithJson.

(** [0.0 <= score <= 1.0] *)
Definition in_unit_interval (score : pyfloat) : Prop :=
  match score with
  | Fin x => 0 <= x <= 1
  | Inf _ | NaN => False
  end.

(** Values, numbers and floats that are finite; a record that holds
    finite values only. *)
Definition finite (v : value) : bool :=
  match v with Val _ => true | VInf _ | VNan => false end.

Definition finite_float (f : pyfloat) : bool :=
  match f with Fin _ => true | Inf _ | NaN => false end.

Definition finite_number (n : number) : bool :=
  match n with Int _ => true | Flt f => finite_float f end.

Definition finite_record (d : record) : bool :=
  forallb (fun kv => finite (snd kv)) d.

(** A record whose relevance score is NaN, and a record of finite values. *)
Definition nan_relevance : record := [("ai_relevance_score"%string, VNan)].

Definition lee : record :=
  [("article_count", Val (PInt 120));
   ("twitter_followers", Val (PFloat 2500));
   ("h_index", Val (PInt 12));
   ("ai_relevance_score", Val (PFloat 0.7))]%string.

End FloatReputation.

Unset Implicit Arguments.

(* ------------------------------------------------------------------ *)
(** * Searching with and without [re.IGNORECASE] *)

Module TextFacts.

Import Text.

Ltac each_char c := destruct c as [[] [] [] [] [] [] [] []].

Lemma is_word_lower (c : ascii) : is_word (lower_char c) = is_word c.
Proof. each_char c; reflexivity. Qed.

Lemma length_lower (s : string) : String.length (lower s) = String.length s.
Proof. induction s as [ | c s IH]; simpl; [ reflexivity | rewrite IH; reflexivity ]. Qed.

Lemma first_char_lower (s : string) :
  first_char (lower s) = option_map lower_char (first_char s).
Proof. destruct s; reflexivity. Qed.

Lemma last_char_lower (s : string) :
  last_char (lower s) = option_map lower_char (last_char s).
Proof.
  induction s as [ | c s IH]; [ reflexivity | ].
  destruct s as [ | d s]; [ reflexivity | ].
  change (last_char (lower (String c (String d s))))
    with (last_char (lower (String d s))).
  rewrite IH. reflexivity.
Qed.

Lemma drop_lower (n : nat) : forall s : string, drop n (lower s) = lower (drop n s).
Proof.
  induction n as [ | n IH]; intros s; [ reflexivity | ].
  destruct s as [ | c s]; [ reflexivity | ]. simpl. apply IH.
Qed.

Lemma is_word_opt_lower (c : option ascii) :
  is_word_opt (option_map lower_char c) = is_word_opt c.
Proof. destruct c as [c | ]; [ apply is_word_lower | reflexivity ]. Qed.

Lemma boundary_lower (before after : option ascii) :
  boundary (option_map lower_char before) (option_map lower_char after)
  = boundary before after.
Proof. unfold boundary. rewrite !is_word_opt_lower. reflexivity. Qed.

Lemma prefix_ic_lower (kw : string) : forall text : string,
  prefix_ic kw text = String.prefix (lower kw) (lower text).
Proof.
  induction kw as [ | a kw IH]; intros text; [ destruct text; reflexivity | ].
  destruct text as [ | b text]; [ reflexivity | ].
  simpl. unfold eqb_ic. rewrite IH.
  destruct (Ascii.eqb_spec (lower_char a) (lower_char b)) as [E | E].
  - rewrite E. destruct (ascii_dec (lower_char b) (lower_char b)); [ reflexivity | contradiction ].
  - destruct (ascii_dec (lower_char a) (lower_char b)); [ contradiction | reflexivity ].
Qed.

(** With [re.IGNORECASE], a word is found where the lowered word is found
    in the lowered text. *)
Lemma word_match_here_ic_lower (prev : option ascii) (kw text : string) :
  word_match_here_ic prev kw text
  = word_match_here (option_map lower_char prev) (lower kw) (lower text).
Proof.
  unfold word_match_here_ic, word_match_here.
  rewrite prefix_ic_lower, length_lower, drop_lower, !first_char_lower,
    last_char_lower, !boundary_lower.
  reflexivity.
Qed.

Lemma count_matches_ic_lower (kw text : string) : forall prev skip,
  count_matches_ic prev kw text skip
  = count_matches (option_map lower_char prev) (lower kw) (lower text) skip.
Proof.
  induction text as [ | c rest IH]; intros prev skip; [ reflexivity | ].
  cbn [count_matches_ic]. change (lower (String c rest))
    with (String (lower_char c) (lower rest)).
  cbn [count_matches].
  change (String (lower_char c) (lower rest)) with (lower (String c rest)).
  rewrite <- word_match_here_ic_lower, length_lower.
  destruct skip as [ | k].
  - destruct (word_match_here_ic prev kw (String c rest)); rewrite IH; reflexivity.
  - rewrite IH. reflexivity.
Qed.

Lemma findall_word_ic_lower (kw text : string) :
  findall_word_ic kw text = findall_word (lower kw) (lower text).
Proof. apply (count_matches_ic_lower kw text None 0). Qed.

Lemma search_from_ic_lower (kw text : string) : forall prev,
  search_from_ic prev kw text
  = search_from (option_map lower_char prev) (lower kw) (lower text).
Proof.
  induction text as [ | c rest IH]; intros prev.
  - cbn [search_from_ic]. rewrite word_match_here_ic_lower. reflexivity.
  - cbn [search_from_ic]. rewrite word_match_here_ic_lower, IH. reflexivity.
Qed.

Lemma search_word_ic_lower (kw text : string) :
  search_word_ic kw text = search_word (lower kw) (lower text).
Proof. apply (search_from_ic_lower kw text None). Qed.

End TextFacts.

(* ------------------------------------------------------------------ *)
(** * Properties of the scoring engines *)

Module ScoringFacts.

Import Reputation Relevance Examples.
Open Scope R_scope.

Ltac vm_eval t :=
  let v := eval vm_compute in t in
  replace t with v by (vm_compute; reflexivity).

Lemma clamp_range (x : R) : 0 <= Rmin (Rmax x 0) 1 <= 1.
Proof.
  unfold Rmin, Rmax.
  destruct (Rle_dec x 0); destruct (Rle_dec _ 1); lra.
Qed.

Lemma clamp_mono (x y : R) : x <= y -> Rmin (Rmax x 0) 1 <= Rmin (Rmax y 0) 1.
Proof.
  intros H. unfold Rmax.
  destruct (Rle_dec x 0); destruct (Rle_dec y 0); unfold Rmin;
    repeat match goal with |- context [Rle_dec ?a ?b] => destruct (Rle_dec a b) end;
    lra.
Qed.

Lemma clamp_id (x : R) : 0 <= x <= 1 -> Rmin (Rmax x 0) 1 = x.
Proof.
  intros H. unfold Rmax.
  destruct (Rle_dec x 0); unfold Rmin;
    match goal with |- context [Rle_dec ?a ?b] => destruct (Rle_dec a b) end;
    lra.
Qed.

Lemma ln_pos (x : R) : 1 < x -> 0 < ln x.
Proof.
  intros H. rewrite <- ln_1. apply ln_increasing; lra.
Qed.

Lemma ln_le_mono (x y : R) : 0 < x -> x <= y -> ln x <= ln y.
Proof.
  intros Hx [Hlt | Heq].
  - left. apply ln_increasing; assumption.
  - subst. lra.
Qed.

Lemma log10_pos (x : R) : 1 < x -> 0 < log10 x.
Proof.
  intros H. unfold log10.
  apply Rdiv_lt_0_compat; apply ln_pos; lra.
Qed.

Lemma log10_le_mono (x y : R) : 0 < x -> x <= y -> log10 x <= log10 y.
Proof.
  intros Hx Hxy. unfold log10.
  apply Rmult_le_compat_r.
  - left. apply Rinv_0_lt_compat, ln_pos. lra.
  - apply ln_le_mono; assumption.
Qed.

Lemma relevance_try_clamped self p v :
  relevance_try self p = Ok v ->
  v = 0 \/ exists x, v = Rmin (Rmax x 0) 1.
Proof.
  unfold relevance_try, bind. intros H.
  repeat match type of H with
         | match ?e with Ok _ => _ | Raise => _ end = _ =>
             destruct e; [ | discriminate H ]
         end.
  destruct (Text.is_blank _).
  - injection H as <-. left. reflexivity.
  - injection H as <-. right. eexists. reflexivity.
Qed.

(** X29.  Whatever the record holds, and whatever the scorer's tables are,
    the relevance score lies in the closed interval from 0 to 1. *)
Theorem relevance_score_in_unit_interval (scorer : RelevanceScorer) (p : dict) :
  0 <= calculate_ai_relevance_score scorer p <= 1.
Proof.
  unfold calculate_ai_relevance_score.
  destruct (relevance_try scorer p) as [v | ] eqn:E.
  - apply relevance_try_clamped in E as [-> | [x ->]].
    + lra.
    + apply clamp_range.
  - lra.
Qed.

(** C1 (amended).  When the body of the [try] block raises, each scoring
    function returns 0.0: the handlers of both functions [return 0.0]. *)
Theorem scoring_exception_returns_zero
  (json_loads : string -> exc pyval)
  (analyzer : ReputationAnalyzer) (scorer : RelevanceScorer) (p q : dict) :
  reputation_try json_loads analyzer p = Raise ->
  relevance_try scorer q = Raise ->
  calculate_reputation_score json_loads analyzer p = 0
  /\ calculate_ai_relevance_score scorer q = 0.
Proof.
  intros Hp Hq.
  unfold calculate_reputation_score, calculate_ai_relevance_score.
  rewrite Hp, Hq. split; reflexivity.
Qed.

Lemma bad_publication_raises :
  reputation_try reject_json Reputation.init bad_publication = Raise.
Proof. vm_compute. reflexivity. Qed.

Lemma bad_bio_raises : relevance_try Relevance.init bad_bio = Raise.
Proof. vm_compute. reflexivity. Qed.

Lemma scoring_exception_returns_zero_witness :
  calculate_reputation_score reject_json Reputation.init bad_publication = 0
  /\ calculate_ai_relevance_score Relevance.init bad_bio = 0.
Proof.
  apply (scoring_exception_returns_zero reject_json Reputation.init Relevance.init
           bad_publication bad_bio).
  - apply bad_publication_raises.
  - apply bad_bio_raises.
Defined.

(** C1 as stated fails: on a record whose publication is the number 123 the
    reputation body raises and the function returns 0.0, not 0.1; on a
    record whose biography is the number 123 the relevance body raises and
    the function returns 0.0, not 0.05. *)
Lemma scoring_exception_default_counterexample :
  ~ (forall (json_loads : string -> exc pyval)
            (analyzer : ReputationAnalyzer) (scorer : RelevanceScorer) (p q : dict),
        reputation_try json_loads analyzer p = Raise ->
        relevance_try scorer q = Raise ->
        calculate_reputation_score json_loads analyzer p = 0.1
        /\ calculate_ai_relevance_score scorer q = 0.05).
Proof.
  intros H.
  destruct (H reject_json Reputation.init Relevance.init bad_publication bad_bio
              bad_publication_raises bad_bio_raises) as [H1 _].
  unfold calculate_reputation_score in H1.
  rewrite bad_publication_raises in H1. lra.
Qed.

Lemma Q2R_0 : Q2R 0 = 0.
Proof. unfold Q2R. simpl. lra. Qed.

Lemma Q2R_inject_Z (z : Z) : Q2R (inject_Z z) = IZR z.
Proof. unfold Q2R, inject_Z. simpl. field. Qed.



Lemma Rmin_left (x y : R) : x <= y -> Rmin x y = x.
Proof. intros H. unfold Rmin. destruct (Rle_dec x y); lra. Qed.

Lemma Rmax_left (x y : R) : y <= x -> Rmax x y = x.
Proof. intros H. unfold Rmax. destruct (Rle_dec x y); lra. Qed.

Lemma keyword_loop_hits table text score :
  keyword_loop table text score
  = fold_left add_hit (keyword_hits table text) score.
Proof.
  revert score. induction table as [ | [kw w] rest IH]; intros score.
  - reflexivity.
  - unfold keyword_hits in *. simpl.
    destruct (Nat.ltb 0 (Text.findall_word_ic kw text)); simpl; apply IH.
Qed.

Lemma exp_minus_1_bounds : 0 < exp (- 1) < 1.
Proof.
  split.
  - apply exp_pos.
  - rewrite <- exp_0. apply exp_increasing. lra.
Qed.

Lemma ln_9_gt_1 : 1 < ln 9.
Proof.
  rewrite <- (ln_exp 1). apply ln_increasing.
  - apply exp_pos.
  - pose proof exp_le_3. lra.
Qed.

Lemma smith_social_bounds : 0 < smith_social < 1.
Proof.
  unfold smith_social.
  assert (H1 : 0 < log10 (15000 + 1)) by (apply log10_pos; lra).
  assert (H2 : 0 < log10 (100000 + 1)) by (apply log10_pos; lra).
  assert (H3 : log10 (15000 + 1) < log10 (100000 + 1)).
  { unfold log10. apply Rmult_lt_compat_r.
    - apply Rinv_0_lt_compat, ln_pos. lra.
    - apply ln_increasing; lra. }
  split.
  - apply Rdiv_lt_0_compat; assumption.
  - apply Rmult_lt_reg_r with (r := log10 (100000 + 1)); [ assumption | ].
    unfold Rdiv. rewrite Rmult_assoc, Rinv_l by lra. lra.
Qed.

Lemma smith_reputation (json_loads : string -> exc pyval) :
  calculate_reputation_score json_loads Reputation.init smith
  = 0 * 0.3 + smith_social * 0.2 + 0.6 * 0.2 + 1 * 0.2 + 0 * 0.1 + 0.1.
Proof.
  unfold calculate_reputation_score, reputation_try.
  unfold _calculate_publication_quality_score, _calculate_engagement_score,
    _is_major_publication, _calculate_expertise_score, _calculate_academic_score,
    _calculate_social_score, _calculate_article_score.
  repeat match goal with
         | |- context [get_default smith ?k ?d] => vm_eval (get_default smith k d)
         end.
  repeat match goal with
         | |- context [get smith ?k] => vm_eval (get smith k)
         end.
  repeat match goal with
         | |- context [any_in ?l (Text.lower ?t)] => vm_eval (any_in l (Text.lower t))
         end.
  cbn.
  replace (Q2R (inject_Z 15000 + inject_Z 0 * 2)) with 15000
    by (unfold Q2R; simpl; lra).
  rewrite Q2R_inject_Z.
  fold smith_social.
  pose proof smith_social_bounds as Hs.
  rewrite (Rmin_left smith_social 1) by lra.
  rewrite (Rmin_left (0.4 + 0.1 + 0.1) 1) by lra.
  rewrite (Rmin_left 0 0.3) by lra.
  rewrite (Rmin_left (0 + 0) 1) by lra.
  rewrite clamp_id; lra.
Qed.

Lemma smith_relevance :
  calculate_ai_relevance_score Relevance.init smith
  = (1 - exp (- 1)) / ln 9 * 0.4.
Proof.
  unfold calculate_ai_relevance_score, relevance_try.
  repeat match goal with
         | |- context [get_default smith ?k ?d] => vm_eval (get_default smith k d)
         end.
  repeat match goal with
         | |- context [get smith ?k] => vm_eval (get smith k)
         end.
  cbn [bind strings_of filter truthy negb String.eqb Ascii.eqb Bool.eqb].
  match goal with |- context [Text.lower ?t] => vm_eval (Text.lower t) end.
  fold smith_text.
  vm_eval (Text.is_blank smith_text).
  vm_eval (_is_explicit_ai_journalist smith_text).
  unfold _calculate_keyword_score, _calculate_programming_score,
    _calculate_company_score, _calculate_concept_score.
  vm_eval (Text.word_count smith_text).
  cbn [Nat.eqb].
  rewrite keyword_loop_hits.
  vm_eval (keyword_hits (ai_keywords Relevance.init) smith_text).
  vm_eval (weight_loop (programming_languages Relevance.init) smith_text 0%Q).
  vm_eval (weight_loop (tech_companies Relevance.init) smith_text 0%Q).
  vm_eval (weight_loop (ai_concepts Relevance.init) smith_text 0%Q).
  cbn [fold_left]. unfold add_hit. cbn [fst snd].
  replace (Q2R 1.0) with 1 by (unfold Q2R; simpl; lra).
  rewrite Q2R_0.
  replace (- INR 1) with (-1) by (simpl; lra).
  replace (INR 8 + 1) with 9 by (simpl; lra).
  pose proof exp_minus_1_bounds as He.
  pose proof ln_9_gt_1 as Hl.
  rewrite (Rmax_left (ln 9) 1) by lra.
  assert (Hk : 0 < (0 + 1 * (1 - exp (- 1))) / ln 9 < 1).
  { split.
    - apply Rdiv_lt_0_compat; lra.
    - apply Rmult_lt_reg_r with (r := ln 9); [ lra | ].
      unfold Rdiv. rewrite Rmult_assoc, Rinv_l by lra. lra. }
  rewrite (Rmin_left ((0 + 1 * (1 - exp (-1))) / ln 9) 1) by lra.
  replace (0 / 3) with 0 by lra.
  replace (0 / 2) with 0 by lra.
  replace (0 / 5) with 0 by lra.
  rewrite (Rmin_left 0 1) by lra.
  rewrite clamp_id by lra.
  replace (0 + 1 * (1 - exp (- 1))) with (1 - exp (- 1)) by lra.
  lra.
Qed.

Lemma smith_relevance_small : calculate_ai_relevance_score Relevance.init smith < 0.4.
Proof.
  rewrite smith_relevance.
  pose proof exp_minus_1_bounds as He.
  pose proof ln_9_gt_1 as Hl.
  assert (H : (1 - exp (- 1)) / ln 9 < 1).
  { apply Rmult_lt_reg_r with (r := ln 9); [ lra | ].
    unfold Rdiv. rewrite Rmult_assoc, Rinv_l by lra. lra. }
  lra.
Qed.

(** C7 (amended).  For the scenario profile, the publication score is 1.0
    (tier 1, TechCrunch), the verification bonus of 0.1 applies, the social
    score is positive, and the reputation score is the weighted sum of
    these with the engagement score 0.6; the relevance score is
    0.4 (1 - 1/e) / ln 9, below 0.4: the text has one keyword hit
    (machine learning) in eight words and matches none of the explicit
    patterns. *)
Theorem smith_scenario (json_loads : string -> exc pyval) :
  _calculate_publication_quality_score (get smith "current_publication") = Ok 1
  /\ truthy (get smith "is_verified") = true
  /\ _calculate_social_score (get smith "twitter_followers") (PInt 0) = Ok smith_social
  /\ 0 < smith_social
  /\ calculate_reputation_score json_loads Reputation.init smith
     = 0 * 0.3 + smith_social * 0.2 + 0.6 * 0.2 + 1 * 0.2 + 0 * 0.1 + 0.1
  /\ _is_explicit_ai_journalist smith_text = false
  /\ calculate_ai_relevance_score Relevance.init smith = (1 - exp (- 1)) / ln 9 * 0.4
  /\ calculate_ai_relevance_score Relevance.init smith < 0.4.
Proof.
  pose proof smith_social_bounds as Hs.
  repeat apply conj.
  - unfold _calculate_publication_quality_score.
    vm_eval (get smith "current_publication").
    vm_eval (any_in tier1_publications (Text.lower "TechCrunch")).
    reflexivity.
  - vm_compute. reflexivity.
  - unfold _calculate_social_score.
    vm_eval (get smith "twitter_followers"). cbn.
    replace (Q2R (inject_Z 15000 + inject_Z 0 * 2)) with 15000
      by (unfold Q2R; simpl; lra).
    fold smith_social. rewrite (Rmin_left smith_social 1) by lra. reflexivity.
  - lra.
  - apply smith_reputation.
  - vm_compute. reflexivity.
  - apply smith_relevance.
  - apply smith_relevance_small.
Qed.

(** C7 as stated fails: the relevance score of the scenario profile does
    not exceed 0.5. *)
Lemma smith_relevance_counterexample :
  ~ (calculate_ai_relevance_score Relevance.init smith > 0.5).
Proof.
  pose proof smith_relevance_small. lra.
Qed.

Section ArticleCount.

Variable json_loads : string -> exc pyval.
Variables p1 p2 : dict.
Hypothesis same_elsewhere :
  forall k : string, k <> "article_count"%string -> lookup p1 k = lookup p2 k.

Lemma get_elsewhere (k : string) :
  k <> "article_count"%string -> get p1 k = get p2 k.
Proof. intros H. unfold get. rewrite (same_elsewhere k H). reflexivity. Qed.

Lemma get_default_elsewhere (k : string) (d : pyval) :
  k <> "article_count"%string -> get_default p1 k d = get_default p2 k d.
Proof. intros H. unfold get_default. rewrite (same_elsewhere k H). reflexivity. Qed.

Lemma engagement_elsewhere :
  _calculate_engagement_score p1 = _calculate_engagement_score p2.
Proof.
  unfold _calculate_engagement_score.
  rewrite !get_default_elsewhere by discriminate. reflexivity.
Qed.

Lemma expertise_elsewhere (a : pyval) :
  _calculate_expertise_score json_loads a p1
  = _calculate_expertise_score json_loads a p2.
Proof.
  unfold _calculate_expertise_score.
  rewrite !get_default_elsewhere by discriminate. reflexivity.
Qed.

End ArticleCount.

Lemma article_score_curve (v : pyval) (n : Q) :
  num_of v = Ok n ->
  exists n', (n' == n)%Q
             /\ _calculate_article_score (or_else v (PInt 0)) = Ok (article_curve n').
Proof.
  intros Hv. unfold or_else.
  destruct (truthy v) eqn:Ht.
  - exists n. split; [ reflexivity | ].
    unfold _calculate_article_score, article_curve. rewrite Hv. cbn [bind].
    destruct (Qle_bool n 0); reflexivity.
  - exists (inject_Z 0). split.
    + destruct v as [ | b | z | q | t | l ]; cbn in Hv, Ht; try discriminate.
      * destruct b; [ discriminate | ]. injection Hv as <-. reflexivity.
      * apply negb_false_iff, Z.eqb_eq in Ht. subst z. injection Hv as <-. reflexivity.
      * apply negb_false_iff, Qeq_bool_iff in Ht. injection Hv as <-.
        symmetry. exact Ht.
    + reflexivity.
Qed.

Lemma article_curve_mono (n1 n2 : Q) :
  (n1 <= n2)%Q -> article_curve n1 <= article_curve n2.
Proof.
  intros Hle. unfold article_curve.
  assert (Hden : 0 < log10 (1000 + 1)) by (apply log10_pos; lra).
  destruct (Qle_bool n1 0) eqn:E1; destruct (Qle_bool n2 0) eqn:E2.
  - lra.
  - assert (H2 : 0 < Q2R n2).
    { destruct (Qlt_le_dec 0 n2) as [Hlt | Hge].
      - apply Qlt_Rlt in Hlt. rewrite Q2R_0 in Hlt. exact Hlt.
      - apply Qle_bool_iff in Hge. congruence. }
    apply Rmin_glb; [ | lra ].
    left. apply Rdiv_lt_0_compat; [ apply log10_pos; lra | assumption ].
  - apply Qle_bool_iff in E2.
    assert (Hn1 : (n1 <= 0)%Q) by (eapply Qle_trans; eassumption).
    apply Qle_bool_iff in Hn1. congruence.
  - assert (H1 : 0 < Q2R n1).
    { destruct (Qlt_le_dec 0 n1) as [Hlt | Hge].
      - apply Qlt_Rlt in Hlt. rewrite Q2R_0 in Hlt. exact Hlt.
      - apply Qle_bool_iff in Hge. congruence. }
    apply Qle_Rle in Hle.
    apply Rle_min_compat_r.
    apply Rmult_le_compat_r.
    + left. apply Rinv_0_lt_compat. assumption.
    + apply log10_le_mono; lra.
Qed.

Lemma article_curve_proper (n n' : Q) :
  (n' == n)%Q -> article_curve n' = article_curve n.
Proof.
  intros H. apply Rle_antisym; apply article_curve_mono; rewrite H; apply Qle_refl.
Qed.

(** C6.  Two records that differ only in [article_count], the second
    holding the larger number: the reputation score of the second is at
    least that of the first. *)
Theorem reputation_monotone_in_article_count
  (json_loads : string -> exc pyval) (p1 p2 : dict) (n1 n2 : Q) :
  (forall k : string, k <> "article_count"%string -> lookup p1 k = lookup p2 k) ->
  num_of (get p1 "article_count") = Ok n1 ->
  num_of (get p2 "article_count") = Ok n2 ->
  (n1 <= n2)%Q ->
  calculate_reputation_score json_loads Reputation.init p1
  <= calculate_reputation_score json_loads Reputation.init p2.
Proof.
  intros Hsame H1 H2 Hle.
  destruct (article_score_curve _ _ H1) as (m1 & Hm1 & E1).
  destruct (article_score_curve _ _ H2) as (m2 & Hm2 & E2).
  assert (Hcurve : article_curve m1 <= article_curve m2).
  { rewrite (article_curve_proper _ _ Hm1), (article_curve_proper _ _ Hm2).
    apply article_curve_mono, Hle. }
  unfold calculate_reputation_score, reputation_try.
  rewrite (engagement_elsewhere p1 p2 Hsame), (expertise_elsewhere json_loads p1 p2 Hsame).
  repeat match goal with
         | |- context [get p1 ?k] =>
             lazymatch k with
             | "article_count"%string => fail
             | _ => rewrite (get_elsewhere p1 p2 Hsame k) by discriminate
             end
         | |- context [get_default p1 ?k ?d] =>
             rewrite (get_default_elsewhere p1 p2 Hsame k d) by discriminate
         end.
  rewrite E1, E2. cbn [bind].
  destruct (_calculate_social_score _ _) as [social | ]; cbn [bind]; [ | lra ].
  destruct (_calculate_engagement_score p2) as [engagement | ]; cbn [bind]; [ | lra ].
  destruct (_calculate_publication_quality_score _) as [publication | ];
    cbn [bind]; [ | lra ].
  destruct (_calculate_expertise_score _ _ _) as [expertise | ]; cbn [bind]; [ | lra ].
  destruct (_calculate_academic_score _ _ _ _) as [academic | ]; cbn [bind]; [ | lra ].
  apply clamp_mono.
  destruct (is_academic_platform _).
  - lra.
  - assert (Hw : 0 <= Q2R (Settings.article_count (weights Reputation.init))).
    { unfold Q2R. simpl. lra. }
    pose proof (Rmult_le_compat_r _ _ _ Hw Hcurve). lra.
Qed.

Lemma reputation_monotone_in_article_count_witness :
  calculate_reputation_score reject_json Reputation.init
    [("name", PStr "A"); ("article_count", PInt 10)]%string
  <= calculate_reputation_score reject_json Reputation.init
       [("name", PStr "A"); ("article_count", PInt 500)]%string.
Proof.
  apply (reputation_monotone_in_article_count reject_json
           [("name", PStr "A"); ("article_count", PInt 10)]%string
           [("name", PStr "A"); ("article_count", PInt 500)]%string
           (inject_Z 10) (inject_Z 500)).
  - intros k Hk. cbn.
    destruct (String.eqb k "name"); [ reflexivity | ].
    destruct (String.eqb k "article_count") eqn:E; [ | reflexivity ].
    apply String.eqb_eq in E. contradiction.
  - reflexivity.
  - reflexivity.
  - vm_compute. discriminate.
Defined.

End ScoringFacts.

(* ------------------------------------------------------------------ *)
(** * Properties of the identity merge *)

Module DatabaseFacts.

Import Database.

(** ** Dictionaries *)

Lemma lookup_set_same (d : dict) (k : string) (v : pyval) :
  lookup (set d k v) k = Some v.
Proof.
  induction d as [ | [k' v'] d IH]; simpl.
  - rewrite String.eqb_refl. reflexivity.
  - destruct (String.eqb k k') eqn:E; simpl; rewrite E; [ reflexivity | exact IH ].
Qed.

Lemma lookup_set_other (d : dict) (k k' : string) (v : pyval) :
  k' <> k -> lookup (set d k v) k' = lookup d k'.
Proof.
  intros Hne. induction d as [ | [k0 v0] d IH]; simpl.
  - apply String.eqb_neq in Hne. rewrite Hne. reflexivity.
  - destruct (String.eqb k k0) eqn:E; simpl.
    + apply String.eqb_eq in E. subst k0.
      apply String.eqb_neq in Hne. rewrite Hne. reflexivity.
    + destruct (String.eqb k' k0); [ reflexivity | exact IH ].
Qed.

Lemma get_set_same (d : dict) (k : string) (v : pyval) : get (set d k v) k = v.
Proof. unfold get. rewrite lookup_set_same. reflexivity. Qed.

Lemma get_set_other (d : dict) (k k' : string) (v : pyval) :
  k' <> k -> get (set d k v) k' = get d k'.
Proof. intros H. unfold get. rewrite lookup_set_other by exact H. reflexivity. Qed.

(** Writing the value a key already has changes nothing. *)
Lemma set_same_id (d : dict) (k : string) (v : pyval) :
  lookup d k = Some v -> set d k v = d.
Proof.
  induction d as [ | [k' v'] d IH]; simpl; intros H.
  - discriminate.
  - destruct (String.eqb k k') eqn:E.
    + injection H as ->. reflexivity.
    + rewrite IH by exact H. reflexivity.
Qed.

Lemma keys_set_present (d : dict) (k : string) (v : pyval) :
  has_key d k = true -> map fst (set d k v) = map fst d.
Proof.
  unfold has_key. induction d as [ | [k' v'] d IH]; simpl; intros H.
  - discriminate.
  - destruct (String.eqb k k') eqn:E; simpl.
    + reflexivity.
    + rewrite IH by exact H. reflexivity.
Qed.


Lemma lookup_not_in (d : dict) (k : string) :
  ~ In k (map fst d) -> lookup d k = None.
Proof.
  induction d as [ | [k' v'] d IH]; simpl; intros H.
  - reflexivity.
  - destruct (String.eqb k k') eqn:E.
    + apply String.eqb_eq in E. subst. exfalso. apply H. left. reflexivity.
    + apply IH. intros Hin. apply H. right. exact Hin.
Qed.

(** ** Equality of values *)

Section PyvalInduction.

Variable P : pyval -> Prop.
Hypothesis HNone : P PNone.
Hypothesis HBool : forall b, P (PBool b).
Hypothesis HInt : forall z, P (PInt z).
Hypothesis HFloat : forall q, P (PFloat q).
Hypothesis HStr : forall s, P (PStr s).
Hypothesis HList : forall l, Forall P l -> P (PList l).

Fixpoint pyval_nested_ind (v : pyval) : P v :=
  match v with
  | PNone => HNone
  | PBool b => HBool b
  | PInt z => HInt z
  | PFloat q => HFloat q
  | PStr s => HStr s
  | PList l =>
      HList l
        ((fix all (l : list pyval) : Forall P l :=
            match l with
            | [] => Forall_nil P
            | x :: xs => Forall_cons x (pyval_nested_ind x) (all xs)
            end) l)
  end.

End PyvalInduction.

Lemma Qeq_bool_refl (q : Q) : Qeq_bool q q = true.
Proof. apply Qeq_bool_iff. reflexivity. Qed.

Lemma py_eqb_refl (v : pyval) : py_eqb v v = true.
Proof.
  induction v as [ | b | z | q | s | l IH] using pyval_nested_ind; simpl.
  - reflexivity.
  - apply Qeq_bool_refl.
  - apply Qeq_bool_refl.
  - apply Qeq_bool_refl.
  - apply String.eqb_refl.
  - induction IH as [ | x xs Hx _ IHxs].
    + reflexivity.
    + rewrite Hx. simpl. exact IHxs.
Qed.

Lemma sql_eq_refl (v : pyval) : is_none v = false -> sql_eq v v = true.
Proof. intros H. unfold sql_eq. rewrite H, py_eqb_refl. reflexivity. Qed.



(** ** Queries *)

Lemma first_match_some col value (db before : table) (e : Journalist) (after : table) :
  first_match col value db = Some (before, e, after) ->
  db = before ++ e :: after
  /\ sql_eq (get e col) value = true
  /\ taken col value before = false.
Proof.
  revert before. induction db as [ | r db IH]; simpl; intros before H.
  - discriminate.
  - destruct (sql_eq (get r col) value) eqn:E.
    + injection H as <- <- <-. repeat split. exact E.
    + destruct (first_match col value db) as [[[b x] a] | ] eqn:F; [ | discriminate ].
      injection H as <- <- <-.
      destruct (IH b eq_refl) as (-> & Hm & Ht).
      repeat split; [ exact Hm | ]. simpl. rewrite E. exact Ht.
Qed.


Lemma first_match_intro col value (before : table) (e : Journalist) (after : table) :
  taken col value before = false ->
  sql_eq (get e col) value = true ->
  first_match col value (before ++ e :: after) = Some (before, e, after).
Proof.
  induction before as [ | r before IH]; simpl; intros Ht He.
  - rewrite He. reflexivity.
  - apply orb_false_iff in Ht as [Hr Ht]. rewrite Hr.
    rewrite (IH Ht He). reflexivity.
Qed.


(** ** The merge loop *)

Lemma merge_step_cases existing key value existing' :
  merge_step existing key value = Ok existing' ->
  existing' = existing
  \/ (existing' = set existing key value
      /\ hasattr key = true /\ is_none value = false).
Proof.
  unfold merge_step.
  destruct (hasattr key) eqn:Hh; simpl; [ | intros [= <-]; left; reflexivity ].
  destruct (is_none value) eqn:Hn; simpl; [ intros [= <-]; left; reflexivity | ].
  destruct (is_none (get existing key) || is_blank_str (get existing key)).
  - intros [= <-]. right. repeat split.
  - destruct (is_score key).
    + destruct (py_gt value (get existing key)) as [[ | ] | ]; simpl.
      * intros [= <-]. right. repeat split.
      * intros [= <-]. left. reflexivity.
      * discriminate.
    + intros [= <-]. left. reflexivity.
Qed.

Lemma merge_step_other existing key value existing' k :
  merge_step existing key value = Ok existing' ->
  k <> key -> lookup existing' k = lookup existing k.
Proof.
  intros H Hne.
  destruct (merge_step_cases _ _ _ _ H) as [-> | (-> & _ & _)].
  - reflexivity.
  - apply lookup_set_other. exact Hne.
Qed.



(** A column that holds a value which is neither [None] nor blank, and is
    not a score, is never written. *)
Lemma merge_step_keeps existing key value existing' col :
  merge_step existing key value = Ok existing' ->
  is_none (get existing col) = false ->
  is_blank_str (get existing col) = false ->
  is_score col = false ->
  lookup existing' col = lookup existing col.
Proof.
  intros H Hn Hb Hs.
  destruct (String.eqb col key) eqn:E.
  - apply String.eqb_eq in E. subst key.
    unfold merge_step in H. rewrite Hn, Hb, Hs in H. simpl in H.
    destruct (hasattr col && negb (is_none value)); injection H as <-; reflexivity.
  - apply String.eqb_neq in E. apply (merge_step_other _ _ _ _ _ H E).
Qed.

Lemma merge_loop_keeps items : forall existing merged col,
  merge_loop existing items = Ok merged ->
  is_none (get existing col) = false ->
  is_blank_str (get existing col) = false ->
  is_score col = false ->
  lookup merged col = lookup existing col.
Proof.
  induction items as [ | [key value] rest IH]; simpl;
    intros existing merged col H Hn Hb Hs.
  - injection H as <-. reflexivity.
  - destruct (merge_step existing key value) as [e1 | ] eqn:E; simpl in H;
      [ | discriminate ].
    pose proof (merge_step_keeps _ _ _ _ _ E Hn Hb Hs) as Hk.
    rewrite <- Hk. apply IH; try assumption; unfold get; rewrite Hk; assumption.
Qed.


(** ** The encoding of specializations *)

Section Encoding.

Variable json_dumps : list pyval -> string.



Lemma encode_keys (jd : dict) :
  map fst (encode_specializations json_dumps jd) = map fst jd.
Proof.
  unfold encode_specializations.
  destruct (has_key jd "specializations") eqn:E; [ | reflexivity ].
  destruct (get jd "specializations"); try reflexivity.
  apply keys_set_present. exact E.
Qed.



End Encoding.

Lemma find_existing_some (db : table) (jd : dict) (before : table) (e : Journalist) (after : table) :
  find_existing db jd = Ok (Some (before, e, after)) ->
  db = before ++ e :: after
  /\ ((truthy (get jd "email") = true
       /\ first_match "email" (get jd "email") db = Some (before, e, after))
      \/ ((truthy (get jd "email") = false
           \/ first_match "email" (get jd "email") db = None)
          /\ truthy (get jd "name") = true
          /\ first_match "name" (get jd "name") db = Some (before, e, after))).
Proof.
  unfold find_existing, query_first, bind. intros H.
  destruct (truthy (get jd "email")) eqn:TE.
  - destruct (bindable (get jd "email")); [ | discriminate ].
    destruct (first_match "email" (get jd "email") db) as [[[b x] a] | ] eqn:F.
    + injection H as <- <- <-. split.
      * apply (first_match_some _ _ _ _ _ _ F).
      * left. split; reflexivity.
    + destruct (truthy (get jd "name")) eqn:TN; [ | discriminate ].
      destruct (bindable (get jd "name")); [ | discriminate ].
      injection H as H. split.
      * apply (first_match_some _ _ _ _ _ _ H).
      * right. repeat split; [ right; reflexivity | exact H ].
  - destruct (truthy (get jd "name")) eqn:TN; [ | discriminate ].
    destruct (bindable (get jd "name")); [ | discriminate ].
    injection H as H. split.
    + apply (first_match_some _ _ _ _ _ _ H).
    + right. repeat split; [ left; reflexivity | exact H ].
Qed.

Lemma get_touch_other now old new col :
  col <> "last_updated"%string -> get (touch now old new) col = get new col.
Proof.
  intros H. unfold touch.
  destruct (col_changed old new "last_updated"); [ reflexivity | ].
  apply get_set_other. exact H.
Qed.

Lemma col_changed_columns old new col :
  mem col columns = true -> col_changed old new col = true ->
  row_changed old new = true.
Proof.
  intros Hm Hc. unfold row_changed. apply existsb_exists.
  unfold mem in Hm. apply existsb_exists in Hm as (c & Hin & Heq).
  apply String.eqb_eq in Heq. subst c. exists col. split; assumption.
Qed.

Lemma Qlt_bool_iff (a b : Q) : Qlt_bool a b = true <-> (a < b)%Q.
Proof.
  unfold Qlt_bool. rewrite negb_true_iff. split.
  - intros H. apply Qnot_le_lt. intros Hle. apply Qle_bool_iff in Hle. congruence.
  - intros H. destruct (Qle_bool b a) eqn:E; [ | reflexivity ].
    apply Qle_bool_iff in E. exfalso. apply (Qlt_not_le _ _ H E).
Qed.

(** The comparison of two numbers. *)
Lemma py_gt_numbers value current v s :
  num_of value = Ok v -> num_of current = Ok s ->
  py_gt value current = Ok (Qlt_bool s v).
Proof.
  intros Hv Hs. unfold py_gt.
  destruct value; try discriminate; destruct current; try discriminate;
    rewrite ?Hv, ?Hs; simpl in *;
    try (injection Hv as <-); try (injection Hs as <-); reflexivity.
Qed.

Lemma num_not_blank value v :
  num_of value = Ok v -> is_none value = false /\ is_blank_str value = false.
Proof. destruct value; simpl; intros H; try discriminate; split; reflexivity. Qed.

Lemma sql_eq_not_none stored value :
  sql_eq stored value = true -> is_none stored = false.
Proof.
  unfold sql_eq. intros H. apply andb_true_iff in H as [H _].
  apply negb_true_iff in H. exact H.
Qed.

(** A blank stored text equals only itself. *)
Lemma sql_eq_blank stored value :
  sql_eq stored value = true -> is_blank_str stored = true -> value = stored.
Proof.
  unfold sql_eq. intros H Hb. apply andb_true_iff in H as [_ H].
  destruct stored; try discriminate.
  destruct value; simpl in H; try discriminate.
  apply String.eqb_eq in H. subst. reflexivity.
Qed.

Lemma get_some (d : dict) (k : string) :
  is_none (get d k) = false -> lookup d k = Some (get d k).
Proof. unfold get. destruct (lookup d k); [ reflexivity | discriminate ]. Qed.

(** Merging the key on which the row was found leaves the row as it is. *)
Lemma merge_step_matched e key value :
  sql_eq (get e key) value = true ->
  is_score key = false ->
  merge_step e key value = Ok e.
Proof.
  intros Hm Hs. unfold merge_step.
  destruct (hasattr key && negb (is_none value)); [ | reflexivity ].
  rewrite (sql_eq_not_none _ _ Hm). simpl.
  destruct (is_blank_str (get e key)) eqn:Hb.
  - rewrite (sql_eq_blank _ _ Hm Hb).
    rewrite set_same_id; [ reflexivity | ].
    apply get_some. apply (sql_eq_not_none _ _ Hm).
  - rewrite Hs. reflexivity.
Qed.

Lemma row_storable_get r col :
  row_storable r = true -> In col columns -> storable col (get r col) = true.
Proof.
  unfold row_storable. intros H Hin.
  apply (proj1 (forallb_forall _ _) H col Hin).
Qed.

Lemma in_columns col : In col columns <-> mem col columns = true.
Proof.
  unfold mem. rewrite existsb_exists. split.
  - intros H. exists col. split; [ exact H | apply String.eqb_refl ].
  - intros (c & Hin & Heq). apply String.eqb_eq in Heq. subst. exact Hin.
Qed.

Lemma unique_ok_unchanged old new others col :
  get new col = get old col -> unique_ok old new others col = true.
Proof.
  intros H. unfold unique_ok, col_changed. rewrite H, py_eqb_refl. reflexivity.
Qed.


(** C4 (amended).  The record holds the key it is matched on (name or
    email) and a biography; the matched row has no biography.  Then the
    call stores the row with the incoming biography; every other column is
    as before, except [last_updated], which the update sets to the clock. *)
Theorem merge_fills_bio
  (json_dumps : list pyval -> string) (db : table) (now : Z)
  (key : string) (idv : pyval) (b : string)
  (before after : table) (e : Journalist) :
  key = "name"%string \/ key = "email"%string ->
  find_existing db [(key, idv); ("bio"%string, PStr b)]
    = Ok (Some (before, e, after)) ->
  get e "bio" = PNone ->
  row_storable e = true ->
  exists r,
    add_journalist json_dumps db now [(key, idv); ("bio"%string, PStr b)]
      = (Stored r, before ++ r :: after, [(key, idv); ("bio"%string, PStr b)])
    /\ get r "bio" = PStr b
    /\ get r "last_updated" = PInt now
    /\ forall col, col <> "bio"%string -> col <> "last_updated"%string ->
                   get r col = get e col.
Proof.
  intros Hkey Hfind Hbio Hst.
  set (jd := [(key, idv); ("bio"%string, PStr b)]) in *.
  assert (Henc : encode_specializations json_dumps jd = jd).
  { unfold encode_specializations, jd. destruct Hkey as [-> | ->]; reflexivity. }
  assert (Hmatch : sql_eq (get e key) idv = true).
  { destruct (find_existing_some _ _ _ _ _ Hfind) as [_ [[Ht Hf] | (_ & Ht & Hf)]];
      destruct Hkey as [-> | ->]; try discriminate Ht;
      apply first_match_some in Hf as (_ & Hf & _); exact Hf. }
  assert (Hscore : is_score key = false) by (destruct Hkey as [-> | ->]; reflexivity).
  set (m := set e "bio" (PStr b)).
  assert (Hloop : merge_loop e jd = Ok m).
  { unfold jd. simpl. rewrite (merge_step_matched _ _ _ Hmatch Hscore). simpl.
    unfold merge_step. rewrite Hbio. reflexivity. }
  assert (Hother : forall col, col <> "bio"%string -> get m col = get e col).
  { intros col Hc. apply get_set_other. exact Hc. }
  assert (Hch : row_changed e m = true).
  { apply (col_changed_columns _ _ "bio"); [ reflexivity | ].
    unfold col_changed, m. rewrite Hbio, get_set_same. reflexivity. }
  assert (Hstm : row_storable m = true).
  { unfold row_storable. apply forallb_forall. intros col Hin.
    destruct (String.eqb col "bio") eqn:E.
    - apply String.eqb_eq in E. subst col. unfold m. rewrite get_set_same. reflexivity.
    - apply String.eqb_neq in E. rewrite (Hother col E).
      apply row_storable_get; assumption. }
  exists (touch now e m).
  unfold add_journalist. rewrite Hfind, Henc, Hloop, Hch, Hstm.
  rewrite !unique_ok_unchanged by (apply Hother; discriminate).
  assert (Htouch : touch now e m = set m "last_updated" (PInt now)).
  { unfold touch, col_changed. rewrite (Hother "last_updated"%string) by discriminate.
    rewrite py_eqb_refl. reflexivity. }
  repeat apply conj.
  - reflexivity.
  - rewrite get_touch_other by discriminate. apply get_set_same.
  - rewrite Htouch. apply get_set_same.
  - intros col Hb Hl. rewrite get_touch_other by exact Hl. apply Hother. exact Hb.
Qed.


(** ** Idempotence *)













Lemma lookup_map_keys (f : string -> pyval) (cols : list string) (k : string) :
  In k cols -> lookup (map (fun c => (c, f c)) cols) k = Some (f k).
Proof.
  induction cols as [ | c cols IH]; simpl; intros H.
  - contradiction.
  - destruct (String.eqb k c) eqn:E.
    + apply String.eqb_eq in E. subst. reflexivity.
    + destruct H as [-> | H]; [ rewrite String.eqb_refl in E; discriminate | ].
      apply IH. exact H.
Qed.




Lemma forallb_same {A : Type} (f g : A -> bool) (l : list A) :
  (forall x, In x l -> f x = g x) -> forallb f l = forallb g l.
Proof.
  induction l as [ | a l IH]; simpl; intros H.
  - reflexivity.
  - rewrite (H a) by (left; reflexivity).
    rewrite IH by (intros x Hx; apply H; right; exact Hx). reflexivity.
Qed.


Lemma row_changed_touch now e m :
  row_changed e m = true -> touch now e m <> e.
Proof.
  intros Hch Heq.
  unfold row_changed in Hch. apply existsb_exists in Hch as (col & _ & Hc).
  unfold col_changed in Hc. apply negb_true_iff in Hc.
  destruct (String.eqb col "last_updated") eqn:E.
  - apply String.eqb_eq in E. subst col.
    unfold touch, col_changed in Heq. rewrite Hc in Heq. simpl in Heq.
    subst m. rewrite py_eqb_refl in Hc. discriminate.
  - apply String.eqb_neq in E.
    rewrite <- (get_touch_other now e m col E), Heq, py_eqb_refl in Hc.
    discriminate.
Qed.

Section Idempotence.

Variable json_dumps : list pyval -> string.



End Idempotence.



(** ** The laws on the example data *)

Import Examples.


Lemma ann_stored :
  add_journalist example_dumps [] 100 ann = (Stored ann_row, ann_db, ann).
Proof. vm_compute. reflexivity. Qed.



Lemma merge_fills_bio_witness :
  exists r,
    add_journalist example_dumps ann_db 200 ann_bio
      = (Stored r, [] ++ r :: [], ann_bio)
    /\ get r "bio" = PStr "Writes about robots"
    /\ get r "last_updated" = PInt 200
    /\ forall col, col <> "bio"%string -> col <> "last_updated"%string ->
                   get r col = get ann_row col.
Proof.
  apply (merge_fills_bio example_dumps ann_db 200 "name" (PStr "Ann Lee")
           "Writes about robots" [] [] ann_row).
  - left. reflexivity.
  - vm_compute. reflexivity.
  - vm_compute. reflexivity.
  - vm_compute. reflexivity.
Defined.

(** C4 as stated fails: the row stored at time 100 and merged at time 200
    has a column other than [bio] that changed, its [last_updated]. *)
Lemma merge_fills_bio_counterexample :
  exists r,
    add_journalist example_dumps ann_db 200 ann_bio = (Stored r, [r], ann_bio)
    /\ get ann_row "bio" = PNone
    /\ ~ (forall col, col <> "bio"%string -> get r col = get ann_row col).
Proof.
  eexists. split; [ vm_compute; reflexivity | ].
  split; [ vm_compute; reflexivity | ].
  intros H. specialize (H "last_updated"%string). vm_compute in H.
  assert (E : PInt 200 = PInt 100) by (apply H; discriminate).
  discriminate E.
Qed.





End DatabaseFacts.

(* ------------------------------------------------------------------ *)
(** * Further properties of the reputation engine *)

Module ReputationMore.

Import Reputation Examples ScoringFacts.
Open Scope R_scope.

Lemma Qle_bool_false (a b : Q) : Qle_bool a b = false <-> (b < a)%Q.
Proof.
  split.
  - intros H. apply Qnot_le_lt. intros Hle. apply Qle_bool_iff in Hle. congruence.
  - intros H. destruct (Qle_bool a b) eqn:E; [ | reflexivity ].
    apply Qle_bool_iff in E. exfalso. apply (Qlt_not_le _ _ H E).
Qed.

Lemma Q2R_pos (q : Q) : (0 < q)%Q -> 0 < Q2R q.
Proof. intros H. apply Qlt_Rlt in H. rewrite Q2R_0 in H. exact H. Qed.

Lemma Q2R_nonneg (q : Q) : (0 <= q)%Q -> 0 <= Q2R q.
Proof. intros H. apply Qle_Rle in H. rewrite Q2R_0 in H. exact H. Qed.

Lemma Q2R_IZR (z : Z) : Q2R (z # 1) = IZR z.
Proof. unfold Q2R. simpl. field. Qed.

Lemma div_le_1 (a b : R) : 0 < b -> a <= b -> a / b <= 1.
Proof.
  intros Hb Hab. apply Rmult_le_reg_r with (r := b); [ exact Hb | ].
  unfold Rdiv. rewrite Rmult_assoc, Rinv_l by lra. lra.
Qed.

Lemma div_lt_1 (a b : R) : 0 < b -> a < b -> a / b < 1.
Proof.
  intros Hb Hab. apply Rmult_lt_reg_r with (r := b); [ exact Hb | ].
  unfold Rdiv. rewrite Rmult_assoc, Rinv_l by lra. lra.
Qed.

Lemma div_ge_1 (a b : R) : 0 < b -> b <= a -> 1 <= a / b.
Proof.
  intros Hb Hab. apply Rmult_le_reg_r with (r := b); [ exact Hb | ].
  unfold Rdiv. rewrite Rmult_assoc, Rinv_l by lra. lra.
Qed.

Lemma log10_lt_mono (x y : R) : 0 < x -> x < y -> log10 x < log10 y.
Proof.
  intros Hx Hxy. unfold log10. apply Rmult_lt_compat_r.
  - apply Rinv_0_lt_compat, ln_pos. lra.
  - apply ln_increasing; assumption.
Qed.

(** X1.  On a number, the article score is 0 up to a count of 0, positive
    above it, below 1 under a thousand articles and exactly 1 from a
    thousand on. *)
Theorem article_score_saturates (article_count : pyval) (n : Q) :
  num_of article_count = Ok n ->
  exists a,
    _calculate_article_score article_count = Ok a
    /\ 0 <= a <= 1
    /\ ((n <= 0)%Q -> a = 0)
    /\ ((0 < n)%Q -> 0 < a)
    /\ ((n < 1000)%Q -> a < 1)
    /\ ((1000 <= n)%Q -> a = 1).
Proof.
  intros Hn. unfold _calculate_article_score. rewrite Hn. cbn [bind].
  assert (Hden : 0 < log10 (1000 + 1)) by (apply log10_pos; lra).
  destruct (Qle_bool n 0) eqn:E.
  - apply Qle_bool_iff in E. exists 0. repeat apply conj; try lra; try reflexivity.
    + intros H. exfalso. apply (Qlt_not_le _ _ H E).
    + intros H. exfalso.
      apply (Qlt_not_le 0 1000); [ reflexivity | ].
      apply (Qle_trans _ n); assumption.
  - apply Qle_bool_false in E. pose proof (Q2R_pos _ E) as Hpos.
    assert (Hnum : 0 < log10 (Q2R n + 1)) by (apply log10_pos; lra).
    eexists. split; [ reflexivity | ].
    repeat apply conj.
    + apply Rmin_glb; [ | lra ]. left. apply Rdiv_lt_0_compat; assumption.
    + apply Rmin_r.
    + intros H. exfalso. apply (Qlt_not_le _ _ E H).
    + intros _. unfold Rmin. destruct (Rle_dec _ 1); [ | lra ].
      apply Rdiv_lt_0_compat; assumption.
    + intros H. apply Qlt_Rlt in H. rewrite Q2R_IZR in H.
      apply Rle_lt_trans with (r2 := log10 (Q2R n + 1) / log10 (1000 + 1)).
      * apply Rmin_l.
      * apply div_lt_1; [ exact Hden | ]. apply log10_lt_mono; lra.
    + intros H. apply Qle_Rle in H. rewrite Q2R_IZR in H.
      apply Rmin_right. apply div_ge_1; [ exact Hden | ].
      apply log10_le_mono; lra.
Qed.

Lemma article_score_saturates_witness :
  exists a,
    _calculate_article_score (PInt 2500) = Ok a
    /\ 0 <= a <= 1
    /\ ((inject_Z 2500 <= 0)%Q -> a = 0)
    /\ ((0 < inject_Z 2500)%Q -> 0 < a)
    /\ ((inject_Z 2500 < 1000)%Q -> a < 1)
    /\ ((1000 <= inject_Z 2500)%Q -> a = 1).
Proof. apply (article_score_saturates (PInt 2500) (inject_Z 2500)). reflexivity. Defined.

Section SameElsewhere.

Variable key : string.
Variables p1 p2 : dict.
Hypothesis same_elsewhere : forall k : string, k <> key -> lookup p1 k = lookup p2 k.

Lemma get_other (k : string) : k <> key -> get p1 k = get p2 k.
Proof. intros H. unfold get. rewrite (same_elsewhere k H). reflexivity. Qed.

Lemma get_default_other (k : string) (d : pyval) :
  k <> key -> get_default p1 k d = get_default p2 k d.
Proof. intros H. unfold get_default. rewrite (same_elsewhere k H). reflexivity. Qed.

Lemma engagement_other :
  key <> "twitter_followers"%string -> key <> "is_verified"%string ->
  key <> "current_publication"%string ->
  _calculate_engagement_score p1 = _calculate_engagement_score p2.
Proof.
  intros H1 H2 H3. unfold _calculate_engagement_score.
  rewrite (get_default_other "twitter_followers" (PInt 0)) by auto.
  rewrite (get_default_other "is_verified" (PBool false)) by auto.
  rewrite (get_default_other "current_publication" (PStr "")) by auto.
  reflexivity.
Qed.

Lemma expertise_other (json_loads : string -> exc pyval) (a : pyval) :
  key <> "programming_expertise"%string -> key <> "specializations"%string ->
  _calculate_expertise_score json_loads a p1
  = _calculate_expertise_score json_loads a p2.
Proof.
  intros H1 H2. unfold _calculate_expertise_score.
  rewrite (get_default_other "programming_expertise" (PBool false)) by auto.
  rewrite (get_default_other "specializations" (PList [])) by auto.
  reflexivity.
Qed.

End SameElsewhere.

(** The base engagement of a positive follower count. *)
Lemma band_antitone (t1 t2 : Q) :
  (t1 <= t2)%Q ->
  (if Qlt_bool t2 1000 then 0.8
   else if Qlt_bool t2 10000 then 0.6
   else if Qlt_bool t2 100000 then 0.4 else 0.2)
  <= (if Qlt_bool t1 1000 then 0.8
      else if Qlt_bool t1 10000 then 0.6
      else if Qlt_bool t1 100000 then 0.4 else 0.2).
Proof.
  intros Hle.
  assert (Hdown : forall c, Qlt_bool t2 c = true -> Qlt_bool t1 c = true).
  { intros c H. apply DatabaseFacts.Qlt_bool_iff in H.
    apply DatabaseFacts.Qlt_bool_iff. apply (Qle_lt_trans _ t2); assumption. }
  destruct (Qlt_bool t2 1000) eqn:A2; [ rewrite (Hdown _ A2); lra | ].
  destruct (Qlt_bool t2 10000) eqn:B2.
  { rewrite (Hdown _ B2). destruct (Qlt_bool t1 1000); lra. }
  destruct (Qlt_bool t2 100000) eqn:C2.
  { rewrite (Hdown _ C2).
    destruct (Qlt_bool t1 1000); [ lra | ]. destruct (Qlt_bool t1 10000); lra. }
  destruct (Qlt_bool t1 1000); [ lra | ].
  destruct (Qlt_bool t1 10000); [ lra | ].
  destruct (Qlt_bool t1 100000); lra.
Qed.

(** X2.  Two records that differ only in a positive number of Twitter
    followers: the one with more followers has the lower (or the same)
    engagement score, and both scores lie between 0.2 and 1. *)
Theorem engagement_shrinks_with_followers (p1 p2 : dict) (t1 t2 : Q) (e1 e2 : R) :
  (forall k : string, k <> "twitter_followers"%string -> lookup p1 k = lookup p2 k) ->
  num_of (get p1 "twitter_followers") = Ok t1 ->
  num_of (get p2 "twitter_followers") = Ok t2 ->
  (0 < t1)%Q -> (t1 <= t2)%Q ->
  _calculate_engagement_score p1 = Ok e1 ->
  _calculate_engagement_score p2 = Ok e2 ->
  e2 <= e1 /\ 0.2 <= e2 /\ e1 <= 1.
Proof.
  intros Hsame H1 H2 Hpos Hle.
  assert (Hd : forall p t, num_of (get p "twitter_followers") = Ok t ->
                 num_of (get_default p "twitter_followers" (PInt 0)) = Ok t).
  { intros p t. unfold get, get_default.
    destruct (lookup p "twitter_followers"); [ auto | discriminate ]. }
  unfold _calculate_engagement_score.
  rewrite (Hd _ _ H1), (Hd _ _ H2). cbn [bind].
  rewrite !(get_default_other "twitter_followers" p1 p2 Hsame) by discriminate.
  assert (Hpos2 : (0 < t2)%Q) by (apply (Qlt_le_trans _ t1); assumption).
  rewrite (proj2 (Qle_bool_false t1 0) Hpos), (proj2 (Qle_bool_false t2 0) Hpos2).
  pose proof (band_antitone t1 t2 Hle) as Hband.
  set (b1 := if Qlt_bool t1 1000 then 0.8 else _) in *.
  set (b2 := if Qlt_bool t2 1000 then 0.8 else _) in *.
  assert (Hb2 : 0.2 <= b2).
  { unfold b2. destruct (Qlt_bool t2 1000); [ lra | ].
    destruct (Qlt_bool t2 10000); [ lra | ]. destruct (Qlt_bool t2 100000); lra. }
  destruct (_is_major_publication _) as [major | ]; cbn [bind]; [ | discriminate ].
  intros [= <-] [= <-].
  destruct (truthy _); destruct major;
    repeat apply conj;
    try (apply Rle_min_compat_r; lra);
    try (apply Rmin_glb; lra);
    apply Rmin_r.
Qed.

Lemma engagement_shrinks_with_followers_witness :
  Rmin 0.6 1 <= Rmin 0.8 1 /\ 0.2 <= Rmin 0.6 1 /\ Rmin 0.8 1 <= 1.
Proof.
  apply (engagement_shrinks_with_followers
           [("twitter_followers", PInt 500)]%string
           [("twitter_followers", PInt 5000)]%string
           (inject_Z 500) (inject_Z 5000)).
  - intros k Hk. cbn. destruct (String.eqb k "twitter_followers") eqn:E;
      [ apply String.eqb_eq in E; contradiction | reflexivity ].
  - reflexivity.
  - reflexivity.
  - reflexivity.
  - vm_compute. discriminate.
  - reflexivity.
  - reflexivity.
Defined.

(** X3.  A record that holds [twitter_followers] with the value [None]
    gets the reputation score 0.0: the engagement score reads the key with
    a default that a present [None] bypasses, and comparing [None] with 0
    raises. *)
Theorem followers_none_scores_zero
  (json_loads : string -> exc pyval) (analyzer : ReputationAnalyzer) (p : dict) :
  lookup p "twitter_followers" = Some PNone ->
  _calculate_engagement_score p = Raise
  /\ calculate_reputation_score json_loads analyzer p = 0.
Proof.
  intros H.
  assert (He : _calculate_engagement_score p = Raise).
  { unfold _calculate_engagement_score, get_default. rewrite H. reflexivity. }
  split; [ exact He | ].
  unfold calculate_reputation_score, reputation_try. rewrite He.
  destruct (_calculate_article_score _); cbn [bind]; [ | reflexivity ].
  destruct (_calculate_social_score _ _); reflexivity.
Qed.

Lemma followers_none_scores_zero_witness :
  _calculate_engagement_score
    [("name", PStr "Ann Lee"); ("twitter_followers", PNone)]%string = Raise
  /\ calculate_reputation_score reject_json Reputation.init
       [("name", PStr "Ann Lee"); ("twitter_followers", PNone)]%string = 0.
Proof.
  apply (followers_none_scores_zero reject_json Reputation.init
           [("name", PStr "Ann Lee"); ("twitter_followers", PNone)]%string).
  reflexivity.
Defined.

Lemma lower_empty (s t : string) :
  Text.lower s = Text.lower t -> truthy (PStr s) = truthy (PStr t).
Proof. destruct s; destruct t; simpl; intros H; try discriminate; reflexivity. Qed.

(** X4.  The publication score and the major-outlet test do not depend on
    the case of the publication name. *)
Theorem publication_score_ignores_case (s t : string) :
  Text.lower s = Text.lower t ->
  _calculate_publication_quality_score (PStr s)
  = _calculate_publication_quality_score (PStr t)
  /\ _is_major_publication (PStr s) = _is_major_publication (PStr t).
Proof.
  intros H. unfold _calculate_publication_quality_score, _is_major_publication.
  rewrite (lower_empty s t H), H. split; reflexivity.
Qed.

Lemma publication_score_ignores_case_witness :
  _calculate_publication_quality_score (PStr "The Guardian")
  = _calculate_publication_quality_score (PStr "THE GUARDIAN")
  /\ _is_major_publication (PStr "The Guardian")
     = _is_major_publication (PStr "THE GUARDIAN").
Proof.
  apply (publication_score_ignores_case "The Guardian" "THE GUARDIAN").
  vm_compute. reflexivity.
Defined.

Lemma major_is_tier1_or_forbes (text : string) :
  any_in major_publications text
  = (any_in tier1_publications text || Text.contains "forbes" text)%bool.
Proof.
  unfold any_in.
  change major_publications with (tier1_publications ++ ["forbes"%string]).
  rewrite existsb_app. cbn [existsb]. rewrite !orb_false_r. reflexivity.
Qed.

Lemma tier2_has_forbes (text : string) :
  Text.contains "forbes" text = true -> any_in tier2_publications text = true.
Proof. intros H. unfold any_in, tier2_publications. simpl. rewrite H. reflexivity. Qed.

(** X5.  Whatever the engagement score treats as a major outlet has a
    publication score of 1.0 or 0.8, and whatever has the publication
    score 1.0 is a major outlet. *)
Theorem major_publication_scores_high (publication : pyval) :
  (_is_major_publication publication = Ok true ->
   _calculate_publication_quality_score publication = Ok 1
   \/ _calculate_publication_quality_score publication = Ok 0.8)
  /\ (_calculate_publication_quality_score publication = Ok 1 ->
      _is_major_publication publication = Ok true).
Proof.
  unfold _is_major_publication, _calculate_publication_quality_score.
  destruct (truthy publication); cbn [negb].
  - destruct publication as [ | b | z | q | s | l ]; try (split; discriminate).
    rewrite major_is_tier1_or_forbes.
    destruct (any_in tier1_publications (Text.lower s)); cbn [orb].
    + split; [ left | ]; reflexivity.
    + split.
      * intros [= H]. rewrite (tier2_has_forbes _ H). right. reflexivity.
      * destruct (any_in tier2_publications _); [ intros [= H]; lra | ].
        destruct (any_in tier3_publications _); [ intros [= H]; lra | ].
        destruct (any_in academic_keywords _); intros [= H]; lra.
  - split; [ discriminate | intros [= H]; lra ].
Qed.

Lemma major_publication_scores_high_witness :
  _calculate_publication_quality_score (PStr "Forbes Magazine") = Ok 1
  \/ _calculate_publication_quality_score (PStr "Forbes Magazine") = Ok 0.8.
Proof.
  apply (proj1 (major_publication_scores_high (PStr "Forbes Magazine"))).
  vm_compute. reflexivity.
Defined.

Lemma log10_nonneg (x : R) : 1 <= x -> 0 <= log10 x.
Proof.
  intros [H | <-].
  - left. apply log10_pos. exact H.
  - unfold log10. rewrite ln_1. lra.
Qed.

(** X6.  On numbers, with an h-index that is not negative and not beyond
    the largest float (the division [h_index / 50.0] raises on a larger
    integer), the academic score lies between 0 and 1. *)
Theorem academic_score_in_unit_interval
  (citation_count h_index publication_count source_platform : pyval) (c h p : Q) :
  num_of citation_count = Ok c ->
  num_of h_index = Ok h ->
  num_of publication_count = Ok p ->
  (0 <= h)%Q ->
  (h <= float_max)%Q ->
  exists a,
    _calculate_academic_score citation_count h_index publication_count source_platform
    = Ok a
    /\ 0 <= a <= 1.
Proof.
  intros Hc Hh Hp Hh0 _. unfold _calculate_academic_score.
  destruct (is_zero citation_count && is_zero h_index && is_zero publication_count)%bool.
  - exists 0. split; [ reflexivity | lra ].
  - rewrite Hc, Hh, Hp. cbn [bind]. eexists. split; [ reflexivity | ].
    assert (H4 : 0 < log10 10000) by (apply log10_pos; lra).
    assert (H5 : 0 < log10 500) by (apply log10_pos; lra).
    assert (Hcit : 0 <= Rmin (log10 (Rmax (Q2R c) 1) / log10 10000) 1 <= 1).
    { split; [ | apply Rmin_r ]. apply Rmin_glb; [ | lra ].
      apply Rmult_le_pos; [ apply log10_nonneg, Rmax_r | left; apply Rinv_0_lt_compat, H4 ]. }
    assert (Hpub : 0 <= Rmin (log10 (Rmax (Q2R p) 1) / log10 500) 1 <= 1).
    { split; [ | apply Rmin_r ]. apply Rmin_glb; [ | lra ].
      apply Rmult_le_pos; [ apply log10_nonneg, Rmax_r | left; apply Rinv_0_lt_compat, H5 ]. }
    assert (Hhi : 0 <= Rmin (Q2R h / 50) 1 <= 1).
    { split; [ | apply Rmin_r ]. apply Rmin_glb; [ | lra ].
      pose proof (Q2R_nonneg h Hh0). lra. }
    split; [ apply Rmin_glb; lra | apply Rmin_r ].
Qed.

Lemma academic_score_in_unit_interval_witness :
  exists a,
    _calculate_academic_score (PInt 1200) (PInt 18) (PInt 40) (PStr "google_scholar")
    = Ok a
    /\ 0 <= a <= 1.
Proof.
  apply (academic_score_in_unit_interval (PInt 1200) (PInt 18) (PInt 40)
           (PStr "google_scholar") (inject_Z 1200) (inject_Z 18) (inject_Z 40));
    try reflexivity.
  - vm_compute. discriminate.
  - vm_compute. discriminate.
Defined.

Lemma specialization_loop_grows specs : forall bonus b,
  specialization_loop specs bonus = Ok b -> bonus <= b.
Proof.
  induction specs as [ | spec rest IH]; cbn [specialization_loop]; intros bonus b H.
  - injection H as <-. lra.
  - destruct spec; try discriminate.
    match type of H with
    | (if ?c then _ else _) = _ => destruct c
    end.
    + apply IH in H. lra.
    + apply IH in H. exact H.
Qed.

(** X7.  When the expertise score is computed from a relevance score [a],
    it is at most 1 and at most [a + 0.5] (0.2 for programming expertise,
    and a specialization bonus capped at 0.3 however many specializations
    match), and it is not below [a] capped at 1. *)
Theorem expertise_score_bounds
  (json_loads : string -> exc pyval)
  (ai_relevance_score : pyval) (journalist_data : dict) (a : Q) (e : R) :
  num_of ai_relevance_score = Ok a ->
  _calculate_expertise_score json_loads ai_relevance_score journalist_data = Ok e ->
  e <= 1 /\ e <= Q2R a + 0.5 /\ Rmin (Q2R a) 1 <= e.
Proof.
  intros Ha. unfold _calculate_expertise_score. rewrite Ha. cbn [bind].
  destruct (iterate _) as [specs | ]; cbn [bind]; [ | discriminate ].
  destruct (specialization_loop specs 0) as [bonus | ] eqn:Hl; cbn [bind];
    [ | discriminate ].
  apply specialization_loop_grows in Hl.
  intros [= <-].
  assert (Hb : 0 <= Rmin bonus 0.3 <= 0.3).
  { split; [ apply Rmin_glb; lra | apply Rmin_r ]. }
  destruct (truthy _); repeat apply conj;
    try apply Rmin_r;
    try (eapply Rle_trans; [ apply Rmin_l | lra ]);
    apply Rle_min_compat_r; lra.
Qed.

Lemma expertise_score_bounds_witness :
  let e := Rmin (Q2R 0.4 + 0.2 + Rmin (0 + 0.1 + 0.1 + 0.1 + 0.1) 0.3) 1 in
  e <= 1 /\ e <= Q2R 0.4 + 0.5 /\ Rmin (Q2R 0.4) 1 <= e.
Proof.
  apply (expertise_score_bounds reject_json (PFloat 0.4)
           [("programming_expertise", PBool true);
            ("specializations",
             PList [PStr "Robotics"; PStr "machine learning"; PStr "Programming";
                    PStr "data science"; PStr "poetry"])]%string 0.4).
  - reflexivity.
  - unfold _calculate_expertise_score. vm_eval (existsb (String.eqb (Text.lower "Robotics")) (map Text.lower high_value_specializations)).
    reflexivity.
Defined.

Lemma or_else_number (v : pyval) (n : Q) :
  num_of v = Ok n ->
  exists n', num_of (or_else v (PInt 0)) = Ok n' /\ (n' == n)%Q.
Proof.
  intros Hv. unfold or_else. destruct (truthy v) eqn:Ht.
  - exists n. split; [ exact Hv | reflexivity ].
  - exists (inject_Z 0). split; [ reflexivity | ].
    destruct v as [ | b | z | q | t | l ]; cbn in Hv, Ht; try discriminate.
    + destruct b; [ discriminate | ]. injection Hv as <-. reflexivity.
    + apply negb_false_iff, Z.eqb_eq in Ht. subst z. injection Hv as <-. reflexivity.
    + apply negb_false_iff, Qeq_bool_iff in Ht. injection Hv as <-.
      symmetry. exact Ht.
Qed.

(** The logarithmic curve shared by the article and the social score. *)
Lemma log_curve_mono (m : R) (x1 x2 : Q) :
  0 < m -> (x1 <= x2)%Q ->
  (if Qle_bool x1 0 then 0 else Rmin (log10 (Q2R x1 + 1) / log10 (m + 1)) 1)
  <= (if Qle_bool x2 0 then 0 else Rmin (log10 (Q2R x2 + 1) / log10 (m + 1)) 1).
Proof.
  intros Hm Hle.
  assert (Hden : 0 < log10 (m + 1)) by (apply log10_pos; lra).
  destruct (Qle_bool x1 0) eqn:E1; destruct (Qle_bool x2 0) eqn:E2.
  - lra.
  - apply Qle_bool_false in E2. pose proof (Q2R_pos _ E2).
    apply Rmin_glb; [ | lra ].
    left. apply Rdiv_lt_0_compat; [ apply log10_pos; lra | exact Hden ].
  - apply Qle_bool_false in E1. apply Qle_bool_iff in E2.
    exfalso. apply (Qlt_not_le _ _ E1). apply (Qle_trans _ x2); assumption.
  - apply Qle_bool_false in E1. pose proof (Q2R_pos _ E1).
    apply Qle_Rle in Hle.
    apply Rle_min_compat_r. apply Rmult_le_compat_r.
    + left. apply Rinv_0_lt_compat. exact Hden.
    + apply log10_le_mono; lra.
Qed.

Lemma social_score_mono (tw lc1 lc2 : pyval) (l1 l2 : Q) :
  num_of lc1 = Ok l1 -> num_of lc2 = Ok l2 -> (l1 <= l2)%Q ->
  match _calculate_social_score tw lc1, _calculate_social_score tw lc2 with
  | Ok s1, Ok s2 => s1 <= s2
  | Raise, Raise => True
  | _, _ => False
  end.
Proof.
  intros H1 H2 Hle. unfold _calculate_social_score. rewrite H1, H2.
  destruct (num_of tw) as [t | ]; cbn [bind]; [ | exact I ].
  assert (Ht : (t + l1 * 2 <= t + l2 * 2)%Q).
  { apply Qplus_le_r. apply Qmult_le_compat_r; [ exact Hle | discriminate ]. }
  pose proof (log_curve_mono 100000 _ _ ltac:(lra) Ht) as Hc.
  destruct (Qle_bool (t + l1 * 2) 0); destruct (Qle_bool (t + l2 * 2) 0); exact Hc.
Qed.

(** X8.  Two records that differ only in [linkedin_connections], both
    holding an integer there and the second the larger one, and whose
    [twitter_followers] is not a float (so that the sum of line 96 is
    computed on integers and converts nothing): the reputation score of
    the second is at least that of the first. *)
Theorem reputation_monotone_in_linkedin_connections
  (json_loads : string -> exc pyval) (p1 p2 : dict) (z1 z2 : Z) :
  (forall k : string, k <> "linkedin_connections"%string -> lookup p1 k = lookup p2 k) ->
  get p1 "linkedin_connections" = PInt z1 ->
  get p2 "linkedin_connections" = PInt z2 ->
  (forall q : Q, get p1 "twitter_followers" <> PFloat q) ->
  (z1 <= z2)%Z ->
  calculate_reputation_score json_loads Reputation.init p1
  <= calculate_reputation_score json_loads Reputation.init p2.
Proof.
  intros Hsame G1 G2 _ Hz.
  assert (H1 : num_of (get p1 "linkedin_connections") = Ok (inject_Z z1))
    by (rewrite G1; reflexivity).
  assert (H2 : num_of (get p2 "linkedin_connections") = Ok (inject_Z z2))
    by (rewrite G2; reflexivity).
  assert (Hle : (inject_Z z1 <= inject_Z z2)%Q)
    by (rewrite <- Zle_Qle; exact Hz).
  destruct (or_else_number _ _ H1) as (m1 & Hm1 & E1).
  destruct (or_else_number _ _ H2) as (m2 & Hm2 & E2).
  assert (Hm : (m1 <= m2)%Q) by (rewrite E1, E2; exact Hle).
  unfold calculate_reputation_score, reputation_try.
  rewrite (engagement_other "linkedin_connections" p1 p2 Hsame) by discriminate.
  rewrite (expertise_other "linkedin_connections" p1 p2 Hsame json_loads) by discriminate.
  repeat match goal with
         | |- context [get p1 ?k] =>
             lazymatch k with
             | "linkedin_connections"%string => fail
             | _ => rewrite (get_other "linkedin_connections" p1 p2 Hsame k) by discriminate
             end
         | |- context [get_default p1 ?k ?d] =>
             rewrite (get_default_other "linkedin_connections" p1 p2 Hsame k d)
               by discriminate
         end.
  pose proof (social_score_mono (or_else (get p2 "twitter_followers") (PInt 0))
                _ _ _ _ Hm1 Hm2 Hm) as Hsoc.
  destruct (_calculate_article_score _) as [article | ]; cbn [bind]; [ | lra ].
  destruct (_calculate_social_score _ (or_else (get p1 _) _)) as [s1 | ];
    destruct (_calculate_social_score _ (or_else (get p2 _) _)) as [s2 | ];
    cbn [bind]; try contradiction; [ | lra ].
  destruct (_calculate_engagement_score p2) as [engagement | ]; cbn [bind]; [ | lra ].
  destruct (_calculate_publication_quality_score _) as [publication | ];
    cbn [bind]; [ | lra ].
  destruct (_calculate_expertise_score _ _ _) as [expertise | ]; cbn [bind]; [ | lra ].
  destruct (_calculate_academic_score _ _ _ _) as [academic | ]; cbn [bind]; [ | lra ].
  apply clamp_mono.
  destruct (is_academic_platform _).
  - lra.
  - assert (Hw : 0 <= Q2R (Settings.social_followers (weights Reputation.init))).
    { unfold Q2R. simpl. lra. }
    pose proof (Rmult_le_compat_r _ _ _ Hw Hsoc). lra.
Qed.

Lemma reputation_monotone_in_linkedin_connections_witness :
  calculate_reputation_score reject_json Reputation.init
    [("twitter_followers", PInt 300); ("linkedin_connections", PInt 50)]%string
  <= calculate_reputation_score reject_json Reputation.init
       [("twitter_followers", PInt 300); ("linkedin_connections", PInt 900)]%string.
Proof.
  apply (reputation_monotone_in_linkedin_connections reject_json
           [("twitter_followers", PInt 300); ("linkedin_connections", PInt 50)]%string
           [("twitter_followers", PInt 300); ("linkedin_connections", PInt 900)]%string
           50%Z 900%Z).
  - intros k Hk. cbn.
    destruct (String.eqb k "twitter_followers"); [ reflexivity | ].
    destruct (String.eqb k "linkedin_connections") eqn:E; [ | reflexivity ].
    apply String.eqb_eq in E. contradiction.
  - reflexivity.
  - reflexivity.
  - intros q. vm_compute. discriminate.
  - vm_compute. discriminate.
Defined.

Lemma log10_mult (x y : R) : 0 < x -> 0 < y -> log10 (x * y) = log10 x + log10 y.
Proof. intros Hx Hy. unfold log10. rewrite ln_mult by assumption. field.
  apply Rgt_not_eq. apply ln_pos. lra. Qed.

Lemma log10_2_small : log10 2 / log10 (100000 + 1) < 0.2.
Proof.
  assert (Hd : 0 < log10 (100000 + 1)) by (apply log10_pos; lra).
  assert (H32 : log10 32 < log10 (100000 + 1)) by (apply log10_lt_mono; lra).
  assert (H5 : log10 32 = 5 * log10 2).
  { replace 32 with (2 * (2 * (2 * (2 * 2)))) by lra.
    rewrite !log10_mult by lra. lra. }
  apply Rmult_lt_reg_r with (r := log10 (100000 + 1)); [ exact Hd | ].
  unfold Rdiv. rewrite Rmult_assoc, Rinv_l by lra. lra.
Qed.

Lemma Rmin_1_lipschitz (a b : R) : a <= b -> Rmin b 1 - Rmin a 1 <= b - a.
Proof.
  intros H. unfold Rmin. destruct (Rle_dec b 1); destruct (Rle_dec a 1); lra.
Qed.

(** One more follower moves the social score up by less than 0.2. *)
Lemma social_step_small (x1 x2 : Q) :
  Q2R x2 = Q2R x1 + 1 ->
  let curve := fun x : Q =>
    if Qle_bool x 0 then 0
    else Rmin (log10 (Q2R x + 1) / log10 (100000 + 1)) 1 in
  curve x1 <= curve x2 /\ curve x2 - curve x1 < 0.2.
Proof.
  intros Hx curve.
  assert (Hle : (x1 <= x2)%Q).
  { apply Rle_Qle. lra. }
  split; [ apply (log_curve_mono 100000 x1 x2); [ lra | exact Hle ] | ].
  unfold curve.
  assert (Hd : 0 < log10 (100000 + 1)) by (apply log10_pos; lra).
  pose proof log10_2_small as H2.
  destruct (Qle_bool x1 0) eqn:E1; destruct (Qle_bool x2 0) eqn:E2.
  - lra.
  - apply Qle_bool_iff in E1. apply Qle_bool_false in E2.
    pose proof (Q2R_pos _ E2). apply Qle_Rle in E1. rewrite Q2R_0 in E1.
    assert (Hn : log10 (Q2R x2 + 1) <= log10 2) by (apply log10_le_mono; lra).
    assert (Hq : log10 (Q2R x2 + 1) / log10 (100000 + 1)
                 <= log10 2 / log10 (100000 + 1)).
    { apply Rmult_le_compat_r; [ left; apply Rinv_0_lt_compat, Hd | exact Hn ]. }
    pose proof (Rmin_l (log10 (Q2R x2 + 1) / log10 (100000 + 1)) 1). lra.
  - apply Qle_bool_false in E1. apply Qle_bool_iff in E2.
    exfalso. apply (Qlt_not_le _ _ E1). apply (Qle_trans _ x2); assumption.
  - apply Qle_bool_false in E1. pose proof (Q2R_pos _ E1) as Hp.
    assert (Hn : log10 (Q2R x2 + 1) <= log10 2 + log10 (Q2R x1 + 1)).
    { rewrite <- log10_mult by lra. apply log10_le_mono; lra. }
    assert (Hm : log10 (Q2R x1 + 1) <= log10 (Q2R x2 + 1))
      by (apply log10_le_mono; lra).
    assert (Hq : log10 (Q2R x2 + 1) / log10 (100000 + 1)
                 - log10 (Q2R x1 + 1) / log10 (100000 + 1)
                 <= log10 2 / log10 (100000 + 1)).
    { unfold Rdiv. rewrite <- Rmult_minus_distr_r.
      apply Rmult_le_compat_r; [ left; apply Rinv_0_lt_compat, Hd | lra ]. }
    assert (Hr : log10 (Q2R x1 + 1) / log10 (100000 + 1)
                 <= log10 (Q2R x2 + 1) / log10 (100000 + 1)).
    { apply Rmult_le_compat_r; [ left; apply Rinv_0_lt_compat, Hd | exact Hm ]. }
    pose proof (Rmin_1_lipschitz _ _ Hr). lra.
Qed.

(** X9.  The thousandth follower never raises the reputation score: of two
    records that differ only in holding 999 and 1000 Twitter followers, the
    second scores no higher, and strictly lower when it is scored in
    general mode at a value strictly between 0 and 1 (the engagement band
    drops by 0.2, the social score rises by less). *)
Theorem thousandth_follower_lowers_reputation
  (json_loads : string -> exc pyval) (p1 p2 : dict) :
  (forall k : string, k <> "twitter_followers"%string -> lookup p1 k = lookup p2 k) ->
  lookup p1 "twitter_followers" = Some (PInt 999) ->
  lookup p2 "twitter_followers" = Some (PInt 1000) ->
  calculate_reputation_score json_loads Reputation.init p2
  <= calculate_reputation_score json_loads Reputation.init p1
  /\ (is_academic_platform (get_default p2 "source_platform" (PStr "")) = false ->
      0 < calculate_reputation_score json_loads Reputation.init p2 < 1 ->
      calculate_reputation_score json_loads Reputation.init p2
      < calculate_reputation_score json_loads Reputation.init p1).
Proof.
  intros Hsame H1 H2.
  unfold calculate_reputation_score, reputation_try.
  rewrite (expertise_other "twitter_followers" p1 p2 Hsame json_loads) by discriminate.
  unfold _calculate_engagement_score.
  repeat match goal with
         | |- context [get p1 ?k] =>
             lazymatch k with
             | "twitter_followers"%string => fail
             | _ => rewrite (get_other "twitter_followers" p1 p2 Hsame k) by discriminate
             end
         | |- context [get_default p1 ?k ?d] =>
             lazymatch k with
             | "twitter_followers"%string => fail
             | _ => rewrite (get_default_other "twitter_followers" p1 p2 Hsame k d)
                      by discriminate
             end
         end.
  unfold get, get_default. rewrite H1, H2.
  fold (get p2 "linkedin_connections") (get p2 "article_count")
       (get p2 "ai_relevance_score") (get p2 "citation_count")
       (get p2 "h_index") (get p2 "publication_count").
  change (or_else (PInt 999) (PInt 0)) with (PInt 999).
  change (or_else (PInt 1000) (PInt 0)) with (PInt 1000).
  destruct (_calculate_article_score _) as [article | ]; cbn [bind];
    [ | split; [ lra | intros _ H; lra ] ].
  unfold _calculate_social_score.
  cbn [num_of bind].
  destruct (num_of (or_else (get p2 "linkedin_connections") (PInt 0))) as [l | ];
    cbn [bind]; [ | split; [ lra | intros _ H; lra ] ].
  assert (Hx : Q2R (inject_Z 1000 + l * 2) = Q2R (inject_Z 999 + l * 2) + 1).
  { rewrite !Q2R_plus, !Q2R_inject_Z. lra. }
  destruct (social_step_small _ _ Hx) as [Hs1 Hs2]. cbv beta in Hs1, Hs2.
  set (s1 := if Qle_bool (inject_Z 999 + l * 2) 0 then 0 else _) in *.
  set (s2 := if Qle_bool (inject_Z 1000 + l * 2) 0 then 0 else _) in *.
  replace (if Qle_bool (inject_Z 999 + l * 2) 0 then Ok 0 else _) with (Ok s1)
    by (unfold s1; destruct (Qle_bool (inject_Z 999 + l * 2) 0); reflexivity).
  replace (if Qle_bool (inject_Z 1000 + l * 2) 0 then Ok 0 else _) with (Ok s2)
    by (unfold s2; destruct (Qle_bool (inject_Z 1000 + l * 2) 0); reflexivity).
  cbn [bind].
  change (Qle_bool (inject_Z 999) 0) with false.
  change (Qle_bool (inject_Z 1000) 0) with false.
  change (Qlt_bool (inject_Z 999) 1000) with true.
  change (Qlt_bool (inject_Z 1000) 1000) with false.
  change (Qlt_bool (inject_Z 1000) 10000) with true.
  cbv iota.
  destruct (_is_major_publication _) as [major | ]; cbn [bind];
    [ | split; [ lra | intros _ H; lra ] ].
  set (e2 := Rmin _ 1). set (e1 := Rmin _ 1).
  assert (He' : e2 + 0.2 = e1).
  { unfold e1, e2.
    destruct (truthy _); destruct major; unfold Rmin;
      repeat match goal with
             | |- context [Rle_dec ?a ?b] => destruct (Rle_dec a b)
             end; lra. }
  destruct (_calculate_publication_quality_score _) as [publication | ];
    cbn [bind]; [ | split; [ lra | intros _ H; lra ] ].
  destruct (_calculate_expertise_score _ _ _) as [expertise | ]; cbn [bind];
    [ | split; [ lra | intros _ H; lra ] ].
  destruct (_calculate_academic_score _ _ _ _) as [academic | ]; cbn [bind];
    [ | split; [ lra | intros _ H; lra ] ].
  change (Q2R (Settings.article_count (weights Reputation.init))) with (Q2R 0.3).
  change (Q2R (Settings.social_followers (weights Reputation.init))) with (Q2R 0.2).
  change (Q2R (Settings.engagement_rate (weights Reputation.init))) with (Q2R 0.2).
  change (Q2R (Settings.publication_quality (weights Reputation.init))) with (Q2R 0.2).
  change (Q2R (Settings.expertise_relevance (weights Reputation.init))) with (Q2R 0.1).
  replace (Q2R 0.3) with 0.3 by (unfold Q2R; simpl; lra).
  replace (Q2R 0.2) with 0.2 by (unfold Q2R; simpl; lra).
  replace (Q2R 0.1) with 0.1 by (unfold Q2R; simpl; lra).
  destruct (is_academic_platform _).
  - split; [ lra | intros H; discriminate H ].
  - match goal with
    | |- Rmin (Rmax ?x2 0) 1 <= Rmin (Rmax ?x1 0) 1 /\ _ =>
        assert (Hlt : x2 < x1) by lra;
        split;
        [ apply clamp_mono; lra
        | intros _ [Hpos Hone];
          unfold Rmin, Rmax in *;
          repeat match goal with
                 | H : context [Rle_dec ?a ?b] |- _ => destruct (Rle_dec a b)
                 | |- context [Rle_dec ?a ?b] => destruct (Rle_dec a b)
                 end; lra ]
    end.
Qed.

Lemma thousandth_follower_lowers_reputation_witness :
  calculate_reputation_score reject_json Reputation.init
    [("twitter_followers", PInt 1000)]%string
  <= calculate_reputation_score reject_json Reputation.init
       [("twitter_followers", PInt 999)]%string.
Proof.
  apply (proj1 (thousandth_follower_lowers_reputation reject_json
                  [("twitter_followers", PInt 999)]%string
                  [("twitter_followers", PInt 1000)]%string
                  ltac:(intros k Hk; cbn;
                        destruct (String.eqb k "twitter_followers") eqn:E;
                        [ apply String.eqb_eq in E; contradiction | reflexivity ])
                  eq_refl eq_refl)).
Defined.

End ReputationMore.

(* ------------------------------------------------------------------ *)
(** * Properties of the portfolio analysis *)

Module PortfolioFacts.

Import Reputation Portfolio Examples.

Lemma in_append_if (x : string) (cond : bool) (item : string) (l : list string) :
  In x (append_if cond item l) <-> In x l \/ (cond = true /\ x = item).
Proof.
  unfold append_if. destruct cond.
  - rewrite in_app_iff. simpl. intuition congruence.
  - intuition congruence.
Qed.

Lemma Qlt_bool_true (a b : Q) : Qlt_bool a b = true -> (a < b)%Q.
Proof.
  unfold Qlt_bool. rewrite negb_true_iff. intros H.
  apply Qnot_le_lt. intros Hle. apply Qle_bool_iff in Hle. congruence.
Qed.

(** Two bounds that leave no number between them are not both passed. *)
Lemma gt_lt_exclusive (n hi lo : Q) :
  (lo <= hi)%Q -> Qlt_bool hi n && Qlt_bool n lo = false.
Proof.
  intros H. destruct (Qlt_bool hi n) eqn:E1; [ | reflexivity ].
  destruct (Qlt_bool n lo) eqn:E2; [ | reflexivity ].
  apply Qlt_bool_true in E1. apply Qlt_bool_true in E2.
  exfalso. apply (Qlt_irrefl n).
  apply (Qlt_le_trans _ lo); [ exact E2 | ].
  apply (Qle_trans _ hi); [ exact H | apply Qlt_le_weak; exact E1 ].
Qed.

Lemma lt_lt_implies (n lo hi : Q) :
  (lo <= hi)%Q -> Qlt_bool n lo = true -> Qlt_bool n hi = true.
Proof.
  intros H E. apply Qlt_bool_true in E.
  unfold Qlt_bool. rewrite negb_true_iff.
  destruct (Qle_bool hi n) eqn:E2; [ | reflexivity ].
  apply Qle_bool_iff in E2. exfalso. apply (Qlt_irrefl n).
  apply (Qlt_le_trans _ lo); [ exact E | ].
  apply (Qle_trans _ hi); assumption.
Qed.

Lemma major_is_truthy (publication : pyval) :
  _is_major_publication publication = Ok true -> truthy publication = true.
Proof.
  unfold _is_major_publication.
  destruct (truthy publication); [ reflexivity | discriminate ].
Qed.

Ltac flags :=
  repeat match goal with
         | H : In _ (append_if _ _ _) |- _ =>
             apply (proj1 (in_append_if _ _ _ _)) in H
         | H : In _ [] |- _ => destruct H
         | H : _ \/ _ |- _ => destruct H
         | H : _ /\ _ |- _ => destruct H
         | H : @eq string _ _ |- _ => discriminate H || clear H
         end.

(** X10.  A portfolio analysis that returns never reports a strength
    together with the weakness on the same factor (article output, social
    following, publication, AI expertise); a high article output is never
    followed by the advice to look for more articles, and a limited AI focus
    always comes with the advice to verify the specialization. *)
Theorem portfolio_is_coherent
  (json_loads : string -> exc pyval) (self : ReputationAnalyzer)
  (journalist_data : dict) (a : analysis) :
  analyze_journalist_portfolio json_loads self journalist_data = Ok a ->
  ~ (In "High article output"%string (strengths a)
     /\ In "Limited published work"%string (weaknesses a))
  /\ ~ (In "Strong social media presence"%string (strengths a)
        /\ In "Small social media following"%string (weaknesses a))
  /\ ~ (In "Works for reputable publication"%string (strengths a)
        /\ In "No clear publication affiliation"%string (weaknesses a))
  /\ ~ (In "Strong AI/tech expertise"%string (strengths a)
        /\ In "Limited AI/tech focus"%string (weaknesses a))
  /\ (In "High article output"%string (strengths a) ->
      ~ In "Look for more published articles to verify expertise"%string
           (recommendations a))
  /\ (In "Limited AI/tech focus"%string (weaknesses a) ->
      In "Verify AI/tech specialization before interview"%string
         (recommendations a)).
Proof.
  unfold analyze_journalist_portfolio, gt, lt.
  destruct (num_of (get_default journalist_data "article_count" (PInt 0)))
    as [n | ]; cbn [bind]; [ | discriminate ].
  destruct (num_of (get_default journalist_data "twitter_followers" (PInt 0)))
    as [t | ]; cbn [bind]; [ | discriminate ].
  destruct (_is_major_publication _) as [major | ] eqn:M; cbn [bind];
    [ | discriminate ].
  destruct (num_of (get_default journalist_data "ai_relevance_score" (PInt 0)))
    as [r | ]; cbn [bind]; [ | discriminate ].
  intros [= <-]. cbn [strengths weaknesses recommendations].
  assert (H1 : Qlt_bool 100 n && Qlt_bool n 10 = false)
    by (apply gt_lt_exclusive; discriminate).
  assert (H2 : Qlt_bool 10000 t && Qlt_bool t 1000 = false)
    by (apply gt_lt_exclusive; discriminate).
  assert (H3 : Qlt_bool 0.7 r && Qlt_bool r 0.3 = false)
    by (apply gt_lt_exclusive; discriminate).
  assert (H4 : Qlt_bool 100 n && Qlt_bool n 50 = false)
    by (apply gt_lt_exclusive; discriminate).
  assert (H5 : Qlt_bool r 0.3 = true -> Qlt_bool r 0.5 = true)
    by (apply lt_lt_implies; discriminate).
  assert (H6 : major = true -> truthy (get_default journalist_data "current_publication" (PStr "")) = true).
  { intros ->. apply major_is_truthy. exact M. }
  set (c1 := Qlt_bool 100 n) in *. set (c2 := Qlt_bool n 10) in *.
  set (c3 := Qlt_bool n 50) in *. set (c4 := Qlt_bool 10000 t) in *.
  set (c5 := Qlt_bool t 1000) in *. set (c6 := Qlt_bool 0.7 r) in *.
  set (c7 := Qlt_bool r 0.3) in *. set (c8 := Qlt_bool r 0.5) in *.
  set (pub := truthy _) in *.
  clearbody c1 c2 c3 c4 c5 c6 c7 c8 pub. clear M.
  repeat apply conj; try intros [Hs Hw]; try intros Hs; try intros Hw; flags;
    repeat match goal with
           | H : ?c = true |- _ => is_var c; subst c
           | H : negb ?c = true |- _ => is_var c; apply negb_true_iff in H; subst c
           end;
    try discriminate H1; try discriminate H2; try discriminate H3;
    try discriminate H4; try (specialize (H6 eq_refl); discriminate H6).
  apply in_append_if. right. split; [ exact (H5 eq_refl) | reflexivity ].
Qed.

Lemma smith_portfolio :
  analyze_journalist_portfolio reject_json Reputation.init smith
  = Ok {| overall_score := calculate_reputation_score reject_json Reputation.init smith;
          strengths := ["Strong social media presence";
                        "Works for reputable publication"]%string;
          weaknesses := ["Limited published work"; "Limited AI/tech focus"]%string;
          recommendations :=
            ["Look for more published articles to verify expertise";
             "Find contact information for outreach";
             "Verify AI/tech specialization before interview"]%string |}.
Proof.
  unfold analyze_journalist_portfolio.
  generalize (calculate_reputation_score reject_json Reputation.init smith).
  intros overall. vm_compute. reflexivity.
Qed.

Lemma portfolio_is_coherent_witness :
  ~ (In "Strong social media presence"%string
        ["Strong social media presence"; "Works for reputable publication"]%string
     /\ In "Small social media following"%string
           ["Limited published work"; "Limited AI/tech focus"]%string).
Proof.
  exact (proj1 (proj2 (portfolio_is_coherent reject_json Reputation.init smith _
                         smith_portfolio))).
Defined.

(** X11.  A record that holds [None] under [article_count],
    [twitter_followers] or [ai_relevance_score] makes the portfolio
    analysis raise: it reads the three keys with a default that a present
    [None] bypasses, compares them with numbers, and has no handler. *)
Theorem portfolio_rejects_none_metric
  (json_loads : string -> exc pyval) (self : ReputationAnalyzer)
  (journalist_data : dict) (key : string) :
  In key ["article_count"; "twitter_followers"; "ai_relevance_score"]%string ->
  lookup journalist_data key = Some PNone ->
  analyze_journalist_portfolio json_loads self journalist_data = Raise.
Proof.
  intros Hkey Hnone. unfold analyze_journalist_portfolio, gt, lt, get_default.
  destruct Hkey as [<- | [<- | [<- | []]]]; rewrite Hnone; cbn [num_of bind].
  - reflexivity.
  - destruct (num_of _); reflexivity.
  - destruct (num_of _); cbn [bind]; [ | reflexivity ].
    destruct (num_of _); cbn [bind]; [ | reflexivity ].
    destruct (_is_major_publication _); reflexivity.
Qed.

Lemma portfolio_rejects_none_metric_witness :
  analyze_journalist_portfolio reject_json Reputation.init
    [("name", PStr "Ann Lee"); ("article_count", PNone)]%string
  = Raise.
Proof.
  apply (portfolio_rejects_none_metric reject_json Reputation.init
           [("name", PStr "Ann Lee"); ("article_count", PNone)]%string
           "article_count"%string).
  - left. reflexivity.
  - reflexivity.
Defined.

End PortfolioFacts.

(* ------------------------------------------------------------------ *)
(** * Further properties of the relevance engine *)

Module RelevanceMore.

Import Text Regex Relevance CombinedText Weights Examples ScoringFacts ReputationMore.
Open Scope R_scope.

Lemma nonneg_check (table : list (string * Q)) :
  forallb (fun kw => Qle_bool 0 (snd kw)) table = true -> nonneg table.
Proof.
  intros H. apply Forall_forall. intros kw Hin.
  rewrite forallb_forall in H. apply Qle_bool_iff. apply H. exact Hin.
Qed.

Lemma init_nonneg :
  nonneg (ai_keywords Relevance.init)
  /\ nonneg (programming_languages Relevance.init)
  /\ nonneg (tech_companies Relevance.init)
  /\ nonneg (ai_concepts Relevance.init).
Proof. repeat apply conj; apply nonneg_check; vm_compute; reflexivity. Qed.

Lemma exp_neg_le_1 (n : nat) : exp (- INR n) <= 1.
Proof.
  pose proof (pos_INR n) as Hn.
  destruct (Req_dec (INR n) 0) as [-> | Hne].
  - rewrite Ropp_0, exp_0. lra.
  - left. rewrite <- exp_0. apply exp_increasing. lra.
Qed.

Lemma keyword_loop_nonneg table text : forall score : R,
  nonneg table -> 0 <= score -> 0 <= keyword_loop table text score.
Proof.
  induction table as [ | [kw w] rest IH]; simpl; intros score Hn Hs.
  - exact Hs.
  - inversion Hn; subst. simpl in *.
    destruct (Nat.ltb 0 (findall_word_ic kw text)); apply IH; try assumption.
    pose proof (Q2R_nonneg w ltac:(assumption)).
    pose proof (exp_neg_le_1 (findall_word_ic kw text)).
    nra.
Qed.

Lemma weight_loop_nonneg table text : forall score : Q,
  nonneg table -> (0 <= score)%Q -> (0 <= weight_loop table text score)%Q.
Proof.
  induction table as [ | [kw w] rest IH]; simpl; intros score Hn Hs.
  - exact Hs.
  - inversion Hn; subst. simpl in *.
    destruct (search_word_ic kw text); apply IH; try assumption.
    apply Qle_trans with (y := (score + 0)%Q).
    + rewrite Qplus_0_r. exact Hs.
    + apply Qplus_le_r. assumption.
Qed.

Lemma capped_quotient (x d : R) : 0 <= x -> 0 < d -> 0 <= Rmin (x / d) 1 <= 1.
Proof.
  intros Hx Hd.
  assert (0 <= x / d).
  { unfold Rdiv. apply Rmult_le_pos; [ exact Hx | left; apply Rinv_0_lt_compat; exact Hd ]. }
  unfold Rmin. destruct (Rle_dec (x / d) 1); lra.
Qed.

Section Components.

Variable self : RelevanceScorer.
Hypothesis keywords_nonneg : nonneg (ai_keywords self).
Hypothesis languages_nonneg : nonneg (programming_languages self).
Hypothesis companies_nonneg : nonneg (tech_companies self).
Hypothesis concepts_nonneg : nonneg (ai_concepts self).

Lemma keyword_score_range (text : string) :
  0 <= _calculate_keyword_score self text <= 1.
Proof.
  unfold _calculate_keyword_score.
  destruct (Nat.eqb (word_count text) 0); [ lra | ].
  apply capped_quotient.
  - apply keyword_loop_nonneg; [ exact keywords_nonneg | lra ].
  - pose proof (Rmax_r (ln (INR (word_count text) + 1)) 1). lra.
Qed.

Lemma programming_score_range (text : string) :
  0 <= _calculate_programming_score self text <= 1.
Proof.
  unfold _calculate_programming_score. apply capped_quotient; [ | lra ].
  apply Q2R_nonneg. apply weight_loop_nonneg; [ exact languages_nonneg | apply Qle_refl ].
Qed.

Lemma company_score_range (text : string) :
  0 <= _calculate_company_score self text <= 1.
Proof.
  unfold _calculate_company_score. apply capped_quotient; [ | lra ].
  apply Q2R_nonneg. apply weight_loop_nonneg; [ exact companies_nonneg | apply Qle_refl ].
Qed.

Lemma concept_score_range (text : string) :
  0 <= _calculate_concept_score self text <= 1.
Proof.
  unfold _calculate_concept_score. apply capped_quotient; [ | lra ].
  apply Q2R_nonneg. apply weight_loop_nonneg; [ exact concepts_nonneg | apply Qle_refl ].
Qed.

End Components.

(** X12.  Each of the four component scores of the relevance engine lies
    between 0 and 1 on every text, so their weighted sum does too: only
    the bonus for an explicit mention can take the sum above 1. *)
Theorem component_scores_in_unit_interval (text : string) :
  0 <= _calculate_keyword_score Relevance.init text <= 1
  /\ 0 <= _calculate_programming_score Relevance.init text <= 1
  /\ 0 <= _calculate_company_score Relevance.init text <= 1
  /\ 0 <= _calculate_concept_score Relevance.init text <= 1
  /\ 0 <= _calculate_keyword_score Relevance.init text * 0.4
          + _calculate_programming_score Relevance.init text * 0.25
          + _calculate_company_score Relevance.init text * 0.2
          + _calculate_concept_score Relevance.init text * 0.15 <= 1.
Proof.
  destruct init_nonneg as (Hk & Hl & Hc & Ha).
  pose proof (keyword_score_range Relevance.init Hk text).
  pose proof (programming_score_range Relevance.init Hl text).
  pose proof (company_score_range Relevance.init Hc text).
  pose proof (concept_score_range Relevance.init Ha text).
  repeat apply conj; lra.
Qed.

(** ** The text that is scored *)

Lemma relevance_try_text (self : RelevanceScorer) (journalist_data : dict) :
  relevance_try self journalist_data
  = (text <- combined_text journalist_data ;;
     if is_blank text then Ok 0
     else
       let final_score :=
         _calculate_keyword_score self text * 0.4
         + _calculate_programming_score self text * 0.25
         + _calculate_company_score self text * 0.2
         + _calculate_concept_score self text * 0.15 in
       let final_score :=
         if _is_explicit_ai_journalist text then final_score + 0.2
         else final_score in
       Ok (Rmin (Rmax final_score 0) 1)).
Proof.
  unfold relevance_try, combined_text.
  destruct (match get journalist_data "specializations" with
            | PList l => _
            | _ => _
            end) as [spec | ]; cbn [bind]; [ | reflexivity ].
  destruct (strings_of _) as [parts | ]; reflexivity.
Qed.

(** ** Lower case *)

Lemma lower_char_idempotent (c : ascii) : lower_char (lower_char c) = lower_char c.
Proof. destruct c as [[] [] [] [] [] [] [] []]; reflexivity. Qed.

Lemma lower_idempotent (s : string) : lower (lower s) = lower s.
Proof.
  induction s as [ | c s IH]; simpl; [ reflexivity | ].
  rewrite lower_char_idempotent, IH. reflexivity.
Qed.

Lemma is_space_lower (c : ascii) : is_space (lower_char c) = is_space c.
Proof. destruct c as [[] [] [] [] [] [] [] []]; reflexivity. Qed.

Lemma is_blank_lower (s : string) : is_blank (lower s) = is_blank s.
Proof.
  induction s as [ | c s IH]; simpl; [ reflexivity | ].
  rewrite is_space_lower, IH. reflexivity.
Qed.

(** ** A blank text matches none of the explicit patterns *)

Lemma match_prefix_void (s : string) : match_prefix Void s = false.
Proof. induction s as [ | c s IH]; simpl; [ reflexivity | exact IH ]. Qed.

Lemma search_blank (r : regex) :
  nullable r = false ->
  (forall c : ascii, is_space c = true -> deriv c r = Void) ->
  forall s : string, is_blank s = true -> search r s = false.
Proof.
  intros Hn Hd s. induction s as [ | c s IH]; simpl; intros Hb.
  - rewrite Hn. reflexivity.
  - apply andb_true_iff in Hb as [Hc Hb].
    rewrite Hn, (Hd c Hc), match_prefix_void, (IH Hb). reflexivity.
Qed.

Lemma explicit_patterns_start_with_a_letter (c : ascii) :
  is_space c = true ->
  forallb (fun r => negb (nullable r)
                    && match deriv c r with Void => true | _ => false end)
          explicit_patterns = true.
Proof.
  destruct c as [[] [] [] [] [] [] [] []]; vm_compute; intros H;
    first [ reflexivity | discriminate H ].
Qed.

Lemma explicit_needs_text (text : string) :
  is_blank text = true -> _is_explicit_ai_journalist text = false.
Proof.
  intros Hb. unfold _is_explicit_ai_journalist.
  apply not_true_iff_false. intros H.
  apply existsb_exists in H as (r & Hin & Hs).
  assert (Hr : search r (lower text) = false); [ | congruence ].
  apply search_blank; [ | | rewrite is_blank_lower; exact Hb ].
  - pose proof (explicit_patterns_start_with_a_letter " " eq_refl) as Hall.
    rewrite forallb_forall in Hall. specialize (Hall r Hin).
    apply andb_true_iff in Hall as [Hn _]. apply negb_true_iff in Hn. exact Hn.
  - intros c Hc.
    pose proof (explicit_patterns_start_with_a_letter c Hc) as Hall.
    rewrite forallb_forall in Hall. specialize (Hall r Hin).
    apply andb_true_iff in Hall as [_ Hv].
    destruct (deriv c r); try discriminate Hv. reflexivity.
Qed.

(** X13.  An explicit mention guarantees a score: a record whose combined
    text matches one of the explicit AI-journalist patterns gets a
    relevance score of at least 0.2, whatever else the text holds. *)
Theorem explicit_mention_floor (journalist_data : dict) (text : string) :
  combined_text journalist_data = Ok text ->
  _is_explicit_ai_journalist text = true ->
  0.2 <= calculate_ai_relevance_score Relevance.init journalist_data <= 1.
Proof.
  intros Ht He. unfold calculate_ai_relevance_score.
  rewrite relevance_try_text, Ht. cbn [bind].
  destruct (is_blank text) eqn:Hb.
  - rewrite (explicit_needs_text _ Hb) in He. discriminate He.
  - rewrite He. cbv zeta.
    destruct init_nonneg as (Hk & Hl & Hc & Ha).
    pose proof (keyword_score_range Relevance.init Hk text).
    pose proof (programming_score_range Relevance.init Hl text).
    pose proof (company_score_range Relevance.init Hc text).
    pose proof (concept_score_range Relevance.init Ha text).
    unfold Rmin, Rmax.
    repeat match goal with
           | |- context [Rle_dec ?a ?b] => destruct (Rle_dec a b)
           end; lra.
Qed.

Lemma explicit_mention_floor_witness :
  0.2 <= calculate_ai_relevance_score Relevance.init
           [("name", PStr "Ann Lee"); ("job_title", PStr "AI journalist")]%string
  <= 1.
Proof.
  apply (explicit_mention_floor
           [("name", PStr "Ann Lee"); ("job_title", PStr "AI journalist")]%string
           "ai journalist ann lee").
  - vm_compute. reflexivity.
  - vm_compute. reflexivity.
Defined.

End RelevanceMore.

(* ------------------------------------------------------------------ *)
(** * Properties of the content analysis and of the article score *)

Module ContentFacts.

Import Text Relevance Content Weights MoreExamples RelevanceMore.

(** ** [min] and sums of rationals *)

Lemma py_min_cases (a b : Q) :
  (py_min a b = a /\ (a <= b)%Q) \/ (py_min a b = b /\ (b < a)%Q).
Proof.
  unfold py_min, Qlt_bool. destruct (Qle_bool a b) eqn:E; cbn [negb].
  - left. split; [ reflexivity | apply Qle_bool_iff; exact E ].
  - right. split; [ reflexivity | ].
    apply Qnot_le_lt. intros H. apply Qle_bool_iff in H. congruence.
Qed.

Lemma py_min_le_r (a b : Q) : (py_min a b <= b)%Q.
Proof. destruct (py_min_cases a b) as [[-> H] | [-> H]]; Lqa.lra. Qed.

Lemma py_min_glb (a b c : Q) : (c <= a)%Q -> (c <= b)%Q -> (c <= py_min a b)%Q.
Proof. intros. destruct (py_min_cases a b) as [[-> H'] | [-> H']]; assumption. Qed.

Lemma fold_plus_nonneg (weights : list Q) : forall acc : Q,
  (0 <= acc)%Q -> Forall (fun w => (0 <= w)%Q) weights ->
  (0 <= fold_left Qplus weights acc)%Q.
Proof.
  induction weights as [ | w ws IH]; simpl; intros acc Ha Hw.
  - exact Ha.
  - inversion Hw; subst. apply IH; [ Lqa.lra | assumption ].
Qed.

Lemma sum_nonneg (weights : list Q) :
  Forall (fun w => (0 <= w)%Q) weights -> (0 <= sum weights)%Q.
Proof. intros H. apply fold_plus_nonneg; [ Lqa.lra | exact H ]. Qed.

(** ** What the loops find comes from the tables *)

Lemma find_keywords_weights table text :
  nonneg table ->
  Forall (fun w => (0 <= w)%Q)
         (map (fun item => snd (fst item)) (find_keywords table text)).
Proof.
  induction table as [ | [kw w] rest IH]; simpl; intros H.
  - constructor.
  - inversion H; subst.
    destruct (contains kw text); [ constructor; [ assumption | ] | ]; apply IH; assumption.
Qed.

Lemma find_words_weights table text :
  nonneg table ->
  Forall (fun w => (0 <= w)%Q) (map snd (find_words table text)).
Proof.
  induction table as [ | [kw w] rest IH]; simpl; intros H.
  - constructor.
  - inversion H; subst.
    destruct (search_word kw text); [ constructor; [ assumption | ] | ]; apply IH; assumption.
Qed.

Lemma find_substrings_weights table text :
  nonneg table ->
  Forall (fun w => (0 <= w)%Q) (map snd (find_substrings table text)).
Proof.
  induction table as [ | [kw w] rest IH]; simpl; intros H.
  - constructor.
  - inversion H; subst.
    destruct (contains kw text); [ constructor; [ assumption | ] | ]; apply IH; assumption.
Qed.

Lemma guarded_sum_nonneg {A : Type} (found : list A) (weights : list Q) (total : Q) :
  (0 <= total)%Q -> Forall (fun w => (0 <= w)%Q) weights ->
  (0 <= (if nonempty found then total + sum weights else total))%Q.
Proof.
  intros Ht Hw. destruct (nonempty found); [ | exact Ht ].
  pose proof (sum_nonneg weights Hw). Lqa.lra.
Qed.

Lemma overall_relevance_range (polarity : string -> exc Q) (self : RelevanceScorer)
  (content : string) :
  nonneg (ai_keywords self) -> nonneg (programming_languages self) ->
  nonneg (tech_companies self) -> nonneg (ai_concepts self) ->
  (0 <= overall_relevance (analyze_text polarity self content) <= 1)%Q.
Proof.
  intros Hk Hl Hc Ha. unfold analyze_text. cbn [overall_relevance].
  split; [ | apply py_min_le_r ].
  apply py_min_glb; [ | Lqa.lra ].
  apply Qle_shift_div_l; [ reflexivity | ].
  rewrite Qmult_0_l.
  apply guarded_sum_nonneg; [ | apply find_substrings_weights; exact Ha ].
  apply guarded_sum_nonneg; [ | apply find_words_weights; exact Hc ].
  apply guarded_sum_nonneg; [ | apply find_words_weights; exact Hl ].
  apply guarded_sum_nonneg; [ Lqa.lra | apply find_keywords_weights; exact Hk ].
Qed.

(** X14.  Whatever object it is given, [analyze_content_relevance] reports
    an overall relevance between 0 and 1. *)
Theorem overall_relevance_in_unit_interval
  (polarity : string -> exc Q) (content : pyval) :
  (0 <= relevance_of (analyze_content_relevance polarity Relevance.init content) <= 1)%Q.
Proof.
  destruct init_nonneg as (Hk & Hl & Hc & Ha).
  destruct content; cbn [analyze_content_relevance relevance_of];
    try (split; Lqa.lra).
  apply overall_relevance_range; assumption.
Qed.

(** ** The terms found and the component scores *)

(** The tables are written in lower case. *)
Lemma init_tables_lower :
  Forall (fun kw => lower (fst kw) = fst kw) (programming_languages Relevance.init)
  /\ Forall (fun kw => lower (fst kw) = fst kw) (tech_companies Relevance.init).
Proof.
  split; apply Forall_forall; intros kw Hin;
    repeat (destruct Hin as [<- | Hin]; [ reflexivity | ]); destruct Hin.
Qed.

(** On a table written in lower case, the loop that scores a text under
    [re.IGNORECASE] adds up what the loop of the analysis finds in the
    lowered text. *)
Lemma weight_loop_found table text :
  Forall (fun kw => lower (fst kw) = fst kw) table ->
  forall acc : Q,
    weight_loop table text acc
    = fold_left Qplus (map snd (find_words table (lower text))) acc.
Proof.
  induction table as [ | [term w] rest IH]; simpl; intros Hlow acc.
  - reflexivity.
  - inversion Hlow as [ | ? ? Hterm Hrest]; subst. simpl in Hterm.
    rewrite TextFacts.search_word_ic_lower, Hterm.
    destruct (search_word term (lower text)); simpl; apply IH; exact Hrest.
Qed.

(** X15.  The languages and the companies that the content analysis lists
    for a text are the ones its programming score and its company score
    are made of: each score is the sum of the listed weights, divided by 3
    (by 2 for companies) and capped at 1.  The scores search the text
    itself with [re.IGNORECASE], the analysis searches the lowered text. *)
Theorem found_terms_make_the_scores
  (polarity : string -> exc Q) (content : string) :
  _calculate_programming_score Relevance.init content
  = Rmin (Q2R (sum (map snd (programming_languages_found
                               (analyze_text polarity Relevance.init content)))) / 3) 1
  /\ _calculate_company_score Relevance.init content
     = Rmin (Q2R (sum (map snd (tech_companies_found
                                  (analyze_text polarity Relevance.init content)))) / 2) 1.
Proof.
  destruct init_tables_lower as [Hl Hc].
  unfold _calculate_programming_score, _calculate_company_score, analyze_text, sum.
  cbn [programming_languages_found tech_companies_found].
  rewrite (weight_loop_found _ content Hl), (weight_loop_found _ content Hc).
  split; reflexivity.
Qed.

(** ** Whole words and substrings *)

Lemma prefix_empty (s : string) : String.prefix "" s = true.
Proof. destruct s; reflexivity. Qed.

Lemma contains_unfold (sub s : string) :
  contains sub s
  = (String.prefix sub s
     || match s with
        | EmptyString => false
        | String _ s' => contains sub s'
        end).
Proof. destruct s; reflexivity. Qed.

Lemma word_match_prefix prev kw text :
  word_match_here prev kw text = true -> String.prefix kw text = true.
Proof.
  unfold word_match_here. intros H.
  apply andb_true_iff in H as [H _]. apply andb_true_iff in H as [H _]. exact H.
Qed.

Lemma search_from_contains kw text : forall prev,
  search_from prev kw text = true -> contains kw text = true.
Proof.
  induction text as [ | c rest IH]; intros prev H; rewrite contains_unfold.
  - simpl in H. rewrite orb_false_r in H.
    rewrite (word_match_prefix _ _ _ H). reflexivity.
  - cbn [search_from] in H. apply orb_true_iff in H as [H | H].
    + rewrite (word_match_prefix _ _ _ H). reflexivity.
    + rewrite (IH _ H). apply orb_true_r.
Qed.

Lemma count_matches_contains kw text : forall prev skip,
  (0 < count_matches prev kw text skip)%nat ->
  text <> EmptyString /\ contains kw text = true.
Proof.
  induction text as [ | c rest IH]; intros prev skip H.
  - simpl in H. lia.
  - split; [ discriminate | ].
    rewrite contains_unfold. cbn [count_matches] in H.
    destruct skip as [ | k].
    + destruct (word_match_here prev kw (String c rest)) eqn:E.
      * rewrite (word_match_prefix _ _ _ E). reflexivity.
      * destruct (IH _ _ H) as [_ ->]. apply orb_true_r.
    + destruct (IH _ _ H) as [_ ->]. apply orb_true_r.
Qed.

Lemma count_positive sub s :
  s <> EmptyString -> contains sub s = true -> (0 < count sub s)%nat.
Proof.
  unfold count. induction s as [ | c rest IH]; intros Hs H.
  - contradiction.
  - cbn [count_from].
    destruct (String.prefix sub (String c rest)) eqn:P; [ lia | ].
    rewrite contains_unfold, P in H. cbn [orb] in H.
    apply IH; [ | exact H ].
    intros ->. rewrite contains_unfold, orb_false_r in H.
    destruct sub; [ rewrite prefix_empty in P; discriminate P | discriminate H ].
Qed.

Lemma find_keywords_in table text kw w :
  In (kw, w) table -> contains kw text = true ->
  In (kw, w, count kw text) (find_keywords table text).
Proof.
  induction table as [ | [kw' w'] rest IH]; simpl; intros Hin Hc.
  - contradiction.
  - destruct Hin as [[= -> ->] | Hin].
    + rewrite Hc. left. reflexivity.
    + destruct (contains kw' text); [ right | ]; apply IH; assumption.
Qed.

Lemma find_substrings_in table text kw w :
  In (kw, w) table -> contains kw text = true ->
  In (kw, w) (find_substrings table text).
Proof.
  induction table as [ | [kw' w'] rest IH]; simpl; intros Hin Hc.
  - contradiction.
  - destruct Hin as [[= -> ->] | Hin].
    + rewrite Hc. left. reflexivity.
    + destruct (contains kw' text); [ right | ]; apply IH; assumption.
Qed.

(** X16.  The content analysis lists at least what the scoring counts: a
    keyword written in lower case that the keyword score counts in a text
    (as a whole word, in any case) is listed among the keywords found in
    that text, with a positive count, and such a concept that the concept
    score counts is listed among the concepts found. *)
Theorem scored_terms_are_found
  (polarity : string -> exc Q) (self : RelevanceScorer) (content : string)
  (term : string) (w : Q) :
  lower term = term ->
  (In (term, w) (ai_keywords self) ->
   (0 < findall_word_ic term content)%nat ->
   exists c : nat,
     In (term, w, c) (ai_keywords_found (analyze_text polarity self content))
     /\ (0 < c)%nat)
  /\ (In (term, w) (ai_concepts self) ->
      search_word_ic term content = true ->
      In (term, w) (ai_concepts_found (analyze_text polarity self content))).
Proof.
  intros Hterm.
  rewrite TextFacts.findall_word_ic_lower, TextFacts.search_word_ic_lower.
  unfold analyze_text.
  cbn [ai_keywords_found ai_concepts_found]. rewrite Hterm. split.
  - intros Hin Hpos. unfold findall_word in Hpos.
    destruct (count_matches_contains _ _ _ _ Hpos) as [Hne Hc].
    exists (count term (lower content)). split.
    + apply find_keywords_in; assumption.
    + apply count_positive; assumption.
  - intros Hin Hs. apply find_substrings_in; [ exact Hin | ].
    apply (search_from_contains _ _ _ Hs).
Qed.

Lemma scored_terms_are_found_witness :
  exists c : nat,
    In ("robotics"%string, 0.75%Q, c)
       (ai_keywords_found
          (analyze_text example_polarity Relevance.init "Robotics and more ROBOTICS"))
    /\ (0 < c)%nat.
Proof.
  apply (proj1 (scored_terms_are_found example_polarity Relevance.init
                  "Robotics and more ROBOTICS" "robotics" 0.75%Q eq_refl)).
  - vm_compute. tauto.
  - vm_compute. lia.
Defined.

(** ** The recency weight and the article score *)

Lemma recency_weight_range (days_ago : pyval -> exc Z) (publication_date : pyval) :
  (0.5 <= _calculate_recency_weight days_ago publication_date <= 1)%Q.
Proof.
  unfold _calculate_recency_weight.
  destruct (negb (truthy publication_date)); [ split; Lqa.lra | ].
  destruct (days_ago publication_date) as [d | ]; [ | split; Lqa.lra ].
  repeat match goal with
         | |- context [Z.leb ?a ?b] => destruct (Z.leb a b)
         end; split; Lqa.lra.
Qed.

(** X17.  The recency weight of an article lies between 0.5 and 1 whatever
    its date, and of two dated articles the older one never weighs more. *)
Theorem recency_weight_antitone
  (days_ago : pyval -> exc Z) (date1 date2 : pyval) (d1 d2 : Z) :
  truthy date1 = true -> truthy date2 = true ->
  days_ago date1 = Ok d1 -> days_ago date2 = Ok d2 ->
  (d1 <= d2)%Z ->
  (_calculate_recency_weight days_ago date2
   <= _calculate_recency_weight days_ago date1)%Q
  /\ (0.5 <= _calculate_recency_weight days_ago date2)%Q
  /\ (_calculate_recency_weight days_ago date1 <= 1)%Q.
Proof.
  intros T1 T2 D1 D2 Hle.
  split; [ | split; apply recency_weight_range ].
  unfold _calculate_recency_weight. rewrite T1, T2, D1, D2. cbn [negb].
  repeat match goal with
         | |- context [Z.leb ?a ?b] => destruct (Z.leb_spec a b)
         end; try Lqa.lra; lia.
Qed.

Lemma recency_weight_antitone_witness :
  (_calculate_recency_weight example_days_ago (PStr "2025-01-01")
   <= _calculate_recency_weight example_days_ago (PStr "2025-12-01"))%Q.
Proof.
  apply (proj1 (recency_weight_antitone example_days_ago
                  (PStr "2025-12-01") (PStr "2025-01-01") 20 354
                  eq_refl eq_refl eq_refl eq_refl ltac:(lia))).
Defined.

Section Articles.

Variable polarity : string -> exc Q.
Variable format : pyval -> string.
Variable days_ago : pyval -> exc Z.

Lemma weighted_relevance_nonneg (article : dict) :
  (0 <= weighted_relevance polarity format days_ago Relevance.init article)%Q.
Proof.
  unfold weighted_relevance.
  apply Qmult_le_0_compat.
  - destruct init_nonneg as (Hk & Hl & Hc & Ha).
    cbn [analyze_content_relevance relevance_of].
    apply overall_relevance_range; assumption.
  - pose proof (recency_weight_range days_ago (get article "publication_date")).
    Lqa.lra.
Qed.

Lemma total_relevance_nonneg (articles : list dict) : forall total : Q,
  (0 <= total)%Q ->
  (0 <= fold_left
          (fun total article =>
             total + weighted_relevance polarity format days_ago Relevance.init article)
          articles total)%Q.
Proof.
  induction articles as [ | a rest IH]; simpl; intros total H.
  - exact H.
  - apply IH. pose proof (weighted_relevance_nonneg a). Lqa.lra.
Qed.

End Articles.

(** X18.  The article score of a journalist lies between 0 and 1; with no
    article it is 0, and with ten articles or more it is at least 0.2,
    whatever the articles are about and however old they are. *)
Theorem article_score_bounds
  (polarity : string -> exc Q) (format : pyval -> string)
  (days_ago : pyval -> exc Z) (articles : list dict) :
  (0 <= score_journalist_articles polarity format days_ago Relevance.init articles
   <= 1)%Q
  /\ (articles = [] ->
      score_journalist_articles polarity format days_ago Relevance.init articles
      = 0%Q)
  /\ ((10 <= List.length articles)%nat ->
      (0.2 <= score_journalist_articles polarity format days_ago Relevance.init
                                        articles)%Q).
Proof.
  unfold score_journalist_articles.
  destruct articles as [ | a rest].
  - cbn [nonempty negb List.length]. repeat apply conj; try Lqa.lra.
    + reflexivity.
    + intros H. lia.
  - cbn [nonempty negb].
    set (n := inject_Z (Z.of_nat (List.length (a :: rest)))).
    set (total := fold_left _ _ _).
    assert (Hn : (1 <= n)%Q).
    { unfold n. rewrite <- (Zle_Qle 1). cbn [List.length]. lia. }
    assert (Ht : (0 <= total)%Q) by (apply total_relevance_nonneg; Lqa.lra).
    assert (Ha : (0 <= total / n)%Q).
    { apply Qle_shift_div_l; Lqa.lra. }
    assert (Hb : (0 <= py_min (n / 50) 0.2)%Q).
    { apply py_min_glb; [ | Lqa.lra ]. apply Qle_shift_div_l; Lqa.lra. }
    repeat apply conj.
    + apply py_min_glb; Lqa.lra.
    + apply py_min_le_r.
    + discriminate.
    + intros Hlen.
      assert (Hn10 : (10 <= n)%Q).
      { unfold n. rewrite <- (Zle_Qle 10). lia. }
      assert (Hb2 : (0.2 <= py_min (n / 50) 0.2)%Q).
      { apply py_min_glb; [ | Lqa.lra ]. apply Qle_shift_div_l; Lqa.lra. }
      apply py_min_glb; Lqa.lra.
Qed.

Lemma article_score_bounds_witness :
  (0.2 <= score_journalist_articles example_polarity example_format example_days_ago
            Relevance.init (repeat [] 10))%Q.
Proof.
  apply (proj2 (proj2 (article_score_bounds example_polarity example_format
                         example_days_ago (repeat [] 10)))).
  vm_compute. lia.
Defined.

End ContentFacts.

(* ------------------------------------------------------------------ *)
(** * Properties of reading, updating and adding rows *)

Module CrudFacts.

Import Database Crud Examples DatabaseFacts.

(** ** The update loop *)

Lemma update_loop_other items : forall (journalist : Journalist) (k : string),
  ~ In k (map fst items) ->
  lookup (update_loop journalist items) k = lookup journalist k.
Proof.
  induction items as [ | [key value] rest IH]; simpl; intros journalist k Hk.
  - reflexivity.
  - rewrite IH by (intros Hin; apply Hk; right; exact Hin).
    destruct (hasattr key && negb (py_eqb (get journalist key) value));
      [ | reflexivity ].
    apply lookup_set_other. intros ->. apply Hk. left. reflexivity.
Qed.

(** With distinct keys, an item either meets an equal value and leaves it,
    or writes its own. *)
Lemma update_loop_at items : forall (journalist : Journalist) (key : string) (value : pyval),
  NoDup (map fst items) -> In (key, value) items -> hasattr key = true ->
  (get (update_loop journalist items) key = get journalist key
   /\ py_eqb (get journalist key) value = true)
  \/ (get (update_loop journalist items) key = value
      /\ py_eqb (get journalist key) value = false).
Proof.
  induction items as [ | [k0 v0] rest IH]; simpl; intros journalist key value Hnd Hin Hh.
  - contradiction.
  - inversion Hnd as [ | ? ? Hnotin Hnd']; subst.
    destruct Hin as [[= -> ->] | Hin].
    + assert (Hrest : forall j1 : Journalist, get (update_loop j1 rest) key = get j1 key).
      { intros j1. unfold get. rewrite update_loop_other by exact Hnotin. reflexivity. }
      rewrite Hrest, Hh. cbn [andb].
      destruct (py_eqb (get journalist key) value) eqn:E; cbn [negb].
      * left. split; reflexivity.
      * right. rewrite get_set_same. split; reflexivity.
    + assert (Hne : key <> k0).
      { intros ->. apply Hnotin. apply (in_map fst) in Hin. exact Hin. }
      assert (Hsame : get (if hasattr k0 && negb (py_eqb (get journalist k0) v0)
                           then set journalist k0 v0 else journalist) key
                      = get journalist key).
      { destruct (hasattr k0 && negb (py_eqb (get journalist k0) v0));
          [ apply get_set_other; exact Hne | reflexivity ]. }
      rewrite <- Hsame. apply IH; assumption.
Qed.

Lemma row_unchanged_col old new col :
  row_changed old new = false -> hasattr col = true ->
  py_eqb (get old col) (get new col) = true.
Proof.
  unfold row_changed, hasattr. intros H Hc.
  apply in_columns in Hc.
  destruct (py_eqb (get old col) (get new col)) eqn:E; [ reflexivity | ].
  exfalso. apply not_true_iff_false in H. apply H.
  apply existsb_exists. exists col. split; [ exact Hc | ].
  unfold col_changed. rewrite E. reflexivity.
Qed.

(** X19.  [update_journalist] overwrites: when it returns the row, every
    column named in the update data (the stamp [last_updated] apart) holds
    a value equal to the one given, [None] and lower scores included;
    a list of specializations is stored as its JSON text. *)
Theorem update_overwrites
  (json_dumps : list pyval -> string) (db : table) (now journalist_id : Z)
  (update_data : dict) (j : Journalist) (db' : table) (data' : dict)
  (key : string) (value : pyval) :
  NoDup (map fst update_data) ->
  update_journalist json_dumps db now journalist_id update_data
  = (Stored j, db', data') ->
  In (key, value) data' ->
  hasattr key = true ->
  key <> "last_updated"%string ->
  data' = encode_specializations json_dumps update_data
  /\ py_eqb (get j key) value = true.
Proof.
  intros Hnd Hup Hin Hh Hk. unfold update_journalist in Hup.
  destruct (first_match "id" (PInt journalist_id) db) as [[[before journalist] after] | ];
    [ | discriminate ].
  assert (Hnd' : NoDup (map fst (encode_specializations json_dumps update_data)))
    by (rewrite encode_keys; exact Hnd).
  destruct (row_changed journalist _) eqn:Hch.
  - destruct (update_ok _ _ _); [ | discriminate ].
    injection Hup as <- <- <-. split; [ reflexivity | ].
    rewrite get_touch_other by exact Hk.
    destruct (update_loop_at _ journalist key value Hnd' Hin Hh) as [[-> E] | [-> _]].
    + exact E.
    + apply py_eqb_refl.
  - injection Hup as <- <- <-. split; [ reflexivity | ].
    pose proof (row_unchanged_col _ _ key Hch Hh) as Hsame.
    destruct (update_loop_at _ journalist key value Hnd' Hin Hh) as [[_ E] | [Hv E]].
    + exact E.
    + rewrite Hv in Hsame. congruence.
Qed.

Lemma ann_found : first_match "id" (PInt 1) ann_db = Some ([], ann_row, []).
Proof. vm_compute. reflexivity. Qed.

Lemma update_overwrites_witness :
  exists j : Journalist,
    update_journalist example_dumps ann_db 200 1
      [("bio", PStr "Updated bio"); ("ai_relevance_score", PFloat 0.1)]%string
    = (Stored j,
       [j],
       [("bio", PStr "Updated bio"); ("ai_relevance_score", PFloat 0.1)]%string)
    /\ py_eqb (get j "ai_relevance_score") (PFloat 0.1) = true.
Proof.
  eexists. split.
  - vm_compute. reflexivity.
  - refine (proj2 (update_overwrites example_dumps ann_db 200 1
                     [("bio", PStr "Updated bio"); ("ai_relevance_score", PFloat 0.1)]%string
                     _ _ _ "ai_relevance_score"%string (PFloat 0.1) _ _ _ _ _)).
    + repeat constructor; simpl; intuition discriminate.
    + vm_compute. reflexivity.
    + right. left. reflexivity.
    + reflexivity.
    + discriminate.
Defined.

(** X20.  [update_journalist] touches one row: when it returns a row, the
    table is the old one with the first row of that identifier replaced by
    the returned row, in which the columns that the update data do not name
    are as they were (the stamp [last_updated] apart); in every other case
    the table is left as it was. *)
Theorem update_touches_one_row
  (json_dumps : list pyval -> string) (db : table) (now journalist_id : Z)
  (update_data : dict) (o : outcome) (db' : table) (data' : dict) :
  update_journalist json_dumps db now journalist_id update_data = (o, db', data') ->
  match o with
  | Stored j =>
      exists (before : table) (journalist : Journalist) (after : table),
        get_journalist_by_id db journalist_id = Some journalist
        /\ db = before ++ journalist :: after
        /\ db' = before ++ j :: after
        /\ forall col : string,
             ~ In col (map fst update_data) -> col <> "last_updated"%string ->
             get j col = get journalist col
  | _ => db' = db
  end.
Proof.
  unfold update_journalist, get_journalist_by_id.
  destruct (first_match "id" (PInt journalist_id) db) as [[[before journalist] after] | ] eqn:F.
  - destruct (first_match_some _ _ _ _ _ _ F) as (Hdb & _ & _).
    assert (Hframe : forall col : string,
              ~ In col (map fst update_data) ->
              get (update_loop journalist (encode_specializations json_dumps update_data)) col
              = get journalist col).
    { intros col Hc. unfold get. rewrite update_loop_other; [ reflexivity | ].
      rewrite encode_keys. exact Hc. }
    destruct (row_changed journalist _).
    + destruct (update_ok _ _ _).
      * intros [= <- <- <-]. exists before, journalist, after.
        repeat split; try assumption.
        intros col Hc Hl. rewrite get_touch_other by exact Hl. apply Hframe. exact Hc.
      * intros [= <- <- <-]. reflexivity.
    + intros [= <- <- <-]. exists before, journalist, after.
      repeat split; assumption.
  - intros [= <- <- <-]. reflexivity.
Qed.

Lemma update_touches_one_row_witness :
  fst (update_journalist example_dumps ann_db 200 7 [("bio", PStr "Updated bio")]%string)
  = (NoResult, ann_db).
Proof.
  pose proof (update_touches_one_row example_dumps ann_db 200 7
                [("bio", PStr "Updated bio")]%string) as H.
  destruct (update_journalist example_dumps ann_db 200 7 _) as [[o db'] data'] eqn:E.
  specialize (H o db' data' eq_refl).
  assert (Ho : o = NoResult) by (vm_compute in E; congruence).
  subst o. cbn [fst]. rewrite H. reflexivity.
Defined.

(** ** Tables that respect their primary key *)

Lemma has_id_get (r : Journalist) : has_id r = true -> get r "id" = PInt (id_of r).
Proof. unfold has_id, id_of. destruct (get r "id"); try discriminate. reflexivity. Qed.

Lemma sql_eq_ints (a b : Z) : sql_eq (PInt a) (PInt b) = Z.eqb a b.
Proof.
  unfold sql_eq. cbn [is_none negb andb py_eqb num_of].
  destruct (Z.eqb_spec a b) as [-> | Hne].
  - apply Qeq_bool_iff. reflexivity.
  - destruct (Qeq_bool (inject_Z a) (inject_Z b)) eqn:E; [ | reflexivity ].
    apply Qeq_bool_iff in E. apply (proj1 (inject_Z_injective a b)) in E.
    contradiction.
Qed.

Lemma taken_id (db : table) (z : Z) :
  forallb has_id db = true ->
  (taken "id" (PInt z) db = true <-> In z (map id_of db)).
Proof.
  induction db as [ | r db IH]; simpl; intros H.
  - split; [ discriminate | contradiction ].
  - apply andb_true_iff in H as [Hr H].
    rewrite orb_true_iff, (IH H), (has_id_get _ Hr), sql_eq_ints, Z.eqb_eq.
    reflexivity.
Qed.

Lemma col_unique_ids (db : table) :
  forallb has_id db = true ->
  (col_unique "id" db = true <-> NoDup (map id_of db)).
Proof.
  induction db as [ | r db IH]; simpl; intros H.
  - split; [ constructor | reflexivity ].
  - apply andb_true_iff in H as [Hr H].
    rewrite andb_true_iff, negb_true_iff, (IH H), (has_id_get _ Hr).
    rewrite NoDup_cons_iff, <- (taken_id db (id_of r) H).
    rewrite not_true_iff_false. reflexivity.
Qed.

Lemma keyed_spec (db : table) :
  keyed db = true <-> forallb has_id db = true /\ NoDup (map id_of db).
Proof.
  unfold keyed. rewrite andb_true_iff. split.
  - intros [H U]. split; [ exact H | apply col_unique_ids; assumption ].
  - intros [H U]. split; [ exact H | apply col_unique_ids; assumption ].
Qed.

(** In a keyed table the row of an identifier is found where it stands. *)
Lemma keyed_lookup (before : table) (r : Journalist) (after : table) :
  keyed (before ++ r :: after) = true ->
  get_journalist_by_id (before ++ r :: after) (id_of r) = Some r.
Proof.
  intros K. apply keyed_spec in K as [H U].
  rewrite forallb_app in H. apply andb_true_iff in H as [Hb Hr].
  cbn [forallb] in Hr. apply andb_true_iff in Hr as [Hr Ha].
  unfold get_journalist_by_id.
  rewrite (first_match_intro "id" (PInt (id_of r)) before r after); [ reflexivity | | ].
  - apply not_true_iff_false. rewrite (taken_id before (id_of r) Hb).
    rewrite map_app in U. cbn [map] in U.
    apply NoDup_remove_2 in U. intros Hin. apply U. apply in_or_app. left. exact Hin.
  - rewrite (has_id_get _ Hr). rewrite sql_eq_ints. apply Z.eqb_refl.
Qed.

(** Replacing a row by one that keeps the identifier, or takes one that no
    other row has, keeps the table keyed. *)
Lemma keyed_replace (before : table) (e s : Journalist) (after : table) :
  keyed (before ++ e :: after) = true ->
  has_id s = true ->
  id_of s = id_of e \/ taken "id" (get s "id") (before ++ after) = false ->
  keyed (before ++ s :: after) = true.
Proof.
  intros K Hs Hid. apply keyed_spec in K as [H U]. apply keyed_spec.
  rewrite forallb_app in H. apply andb_true_iff in H as [Hb He].
  cbn [forallb] in He. apply andb_true_iff in He as [He Ha].
  split.
  - rewrite forallb_app. cbn [forallb]. rewrite Hb, Hs, Ha. reflexivity.
  - rewrite map_app in *. cbn [map] in *.
    destruct Hid as [-> | Hfree]; [ exact U | ].
    apply NoDup_remove_1 in U.
    apply (proj2 (NoDup_Add (Add_app (id_of s) (map id_of before) (map id_of after)))).
    split; [ exact U | ].
    rewrite <- map_app.
    rewrite <- (taken_id (before ++ after) (id_of s))
      by (rewrite forallb_app, Hb, Ha; reflexivity).
    rewrite <- (has_id_get _ Hs). rewrite Hfree. discriminate.
Qed.

Lemma keyed_append (db : table) (r : Journalist) :
  keyed db = true -> has_id r = true -> taken "id" (get r "id") db = false ->
  keyed (db ++ [r]) = true.
Proof.
  intros K Hr Hfree. apply keyed_spec in K as [H U]. apply keyed_spec. split.
  - rewrite forallb_app. cbn [forallb]. rewrite H, Hr. reflexivity.
  - rewrite map_app. cbn [map].
    apply (proj2 (NoDup_Add (Add_app (id_of r) (map id_of db) []))).
    rewrite app_nil_r. split; [ exact U | ].
    rewrite <- (taken_id db (id_of r) H), <- (has_id_get _ Hr), Hfree. discriminate.
Qed.

Lemma keyed_row (before : table) (e : Journalist) (after : table) :
  keyed (before ++ e :: after) = true -> has_id e = true.
Proof.
  intros K. apply keyed_spec in K as [H _].
  rewrite forallb_app in H. apply andb_true_iff in H as [_ H].
  cbn [forallb] in H. apply andb_true_iff in H as [H _]. exact H.
Qed.

Lemma has_id_same (r s : Journalist) :
  get s "id" = get r "id" -> has_id r = true -> has_id s = true /\ id_of s = id_of r.
Proof. unfold has_id, id_of. intros ->. intros H. split; [ exact H | reflexivity ]. Qed.

(** X21.  Reading back what was written: on a table whose identifiers are
    distinct integers, [update_journalist] leaves such a table, and the row
    it returns is the one [get_journalist_by_id] then finds under the
    identifier that row carries. *)
Theorem update_then_get
  (json_dumps : list pyval -> string) (db : table) (now journalist_id : Z)
  (update_data : dict) (o : outcome) (db' : table) (data' : dict) :
  keyed db = true ->
  update_journalist json_dumps db now journalist_id update_data = (o, db', data') ->
  keyed db' = true
  /\ forall j : Journalist, o = Stored j ->
       get_journalist_by_id db' (id_of j) = Some j.
Proof.
  intros K. unfold update_journalist.
  destruct (first_match "id" (PInt journalist_id) db) as [[[before journalist] after] | ] eqn:F.
  - destruct (first_match_some _ _ _ _ _ _ F) as (Hdb & _ & _). subst db.
    destruct (row_changed journalist _).
    + destruct (update_ok _ _ _) eqn:Hok.
      * intros [= <- <- <-].
        set (updated := update_loop journalist _) in *.
        unfold update_ok in Hok.
        apply andb_true_iff in Hok as [Hok _].
        apply andb_true_iff in Hok as [Hok Huid].
        apply andb_true_iff in Hok as [_ Hid].
        assert (Hget : get (touch now journalist updated) "id" = get updated "id")
          by (apply get_touch_other; discriminate).
        assert (Hs : has_id (touch now journalist updated) = true)
          by (unfold has_id; rewrite Hget; exact Hid).
        assert (K' : keyed (before ++ touch now journalist updated :: after) = true).
        { apply (keyed_replace before journalist _ after K Hs).
          unfold unique_ok, col_changed in Huid.
          apply orb_true_iff in Huid as [Hsame | Hfree].
          - left. apply negb_true_iff, negb_false_iff in Hsame.
            pose proof (keyed_row _ _ _ K) as He.
            unfold id_of. rewrite Hget.
            unfold has_id in He, Hid.
            destruct (get journalist "id"); try discriminate.
            destruct (get updated "id"); try discriminate.
            change (py_eqb (PInt z) (PInt z0)) with (sql_eq (PInt z) (PInt z0)) in Hsame.
            rewrite sql_eq_ints in Hsame. apply Z.eqb_eq in Hsame. congruence.
          - right. rewrite Hget. apply negb_true_iff in Hfree. exact Hfree. }
        split; [ exact K' | ].
        intros j [= <-]. apply keyed_lookup. exact K'.
      * intros [= <- <- <-]. split; [ exact K | discriminate ].
    + intros [= <- <- <-]. split; [ exact K | ].
      intros j [= <-]. apply keyed_lookup. exact K.
  - intros [= <- <- <-]. split; [ exact K | discriminate ].
Qed.

Lemma update_then_get_witness :
  keyed (snd (fst (update_journalist example_dumps ann_db 200 1
                     [("id", PInt 5); ("bio", PStr "Updated bio")]%string)))
  = true.
Proof.
  destruct (update_journalist example_dumps ann_db 200 1
              [("id", PInt 5); ("bio", PStr "Updated bio")]%string)
    as [[o db'] data'] eqn:E.
  exact (proj1 (update_then_get example_dumps ann_db 200 1
                  [("id", PInt 5); ("bio", PStr "Updated bio")]%string
                  o db' data' eq_refl E)).
Defined.

(** X22.  Reading back what was added: on a table whose identifiers are
    distinct integers, [add_journalist] leaves such a table, and the row it
    returns, inserted or merged, is the one [get_journalist_by_id] then
    finds under the identifier that row carries. *)
Theorem add_then_get
  (json_dumps : list pyval -> string) (db : table) (now : Z)
  (journalist_data : dict) (o : outcome) (db' : table) (data' : dict) :
  keyed db = true ->
  add_journalist json_dumps db now journalist_data = (o, db', data') ->
  keyed db' = true
  /\ forall j : Journalist, o = Stored j ->
       get_journalist_by_id db' (id_of j) = Some j.
Proof.
  intros K. unfold add_journalist.
  destruct (find_existing db journalist_data) as [[[[before e] after] | ] | ] eqn:F.
  - destruct (find_existing_some _ _ _ _ _ F) as (Hdb & _). subst db.
    pose proof (keyed_row _ _ _ K) as He.
    destruct (merge_loop e _) as [merged | ] eqn:M.
    + destruct (row_changed e merged).
      * destruct (_ && _).
        -- intros [= <- <- <-].
           assert (Hget : get (touch now e merged) "id" = get e "id").
           { rewrite get_touch_other by discriminate.
             unfold get. rewrite (merge_loop_keeps _ _ _ "id" M); [ reflexivity | | | reflexivity ].
             - rewrite (has_id_get _ He). reflexivity.
             - rewrite (has_id_get _ He). reflexivity. }
           destruct (has_id_same _ _ Hget He) as [Hs Hid].
           assert (K' : keyed (before ++ touch now e merged :: after) = true).
           { apply (keyed_replace before e _ after K Hs). left. exact Hid. }
           split; [ exact K' | ].
           intros j [= <-]. apply keyed_lookup. exact K'.
        -- intros [= <- <- <-]. split; [ exact K | discriminate ].
      * intros [= <- <- <-]. split; [ exact K | ].
        intros j [= <-]. apply keyed_lookup. exact K.
    + intros [= <- <- <-]. split; [ exact K | discriminate ].
  - destruct (forallb _ _).
    + destruct (insert_ok db _) eqn:Hok.
      * intros [= <- <- <-].
        set (row := new_row now db _) in *.
        unfold insert_ok in Hok.
        apply andb_true_iff in Hok as [Hok _].
        apply andb_true_iff in Hok as [Hok Hfree].
        apply andb_true_iff in Hok as [_ Hid].
        apply negb_true_iff in Hfree.
        assert (K' : keyed (db ++ [row]) = true)
          by (apply keyed_append; assumption).
        split; [ exact K' | ].
        intros j [= <-]. apply keyed_lookup. exact K'.
      * intros [= <- <- <-]. split; [ exact K | discriminate ].
    + intros [= <- <- <-]. split; [ exact K | discriminate ].
  - intros [= <- <- <-]. split; [ exact K | discriminate ].
Qed.

Lemma add_then_get_witness :
  keyed (snd (fst (add_journalist example_dumps ann_db 200 ann_bio))) = true.
Proof.
  destruct (add_journalist example_dumps ann_db 200 ann_bio) as [[o db'] data'] eqn:E.
  exact (proj1 (add_then_get example_dumps ann_db 200 ann_bio o db' data' eq_refl E)).
Defined.



End CrudFacts.

(* ------------------------------------------------------------------ *)
(** * Properties of [add_article] *)

Module ArticleFacts.

Import Database Articles MoreExamples DatabaseFacts.

Lemma new_article_lookup now db article_data col :
  In col Articles.columns ->
  lookup (new_article now db article_data) col
  = Some match lookup article_data col with
         | Some v =>
             if is_none v then Articles.column_default now (max_id db + 1) col else v
         | None => Articles.column_default now (max_id db + 1) col
         end.
Proof.
  intros H. unfold new_article.
  apply (lookup_map_keys
           (fun c => match lookup article_data c with
                     | Some v =>
                         if is_none v
                         then Articles.column_default now (max_id db + 1) c
                         else v
                     | None => Articles.column_default now (max_id db + 1) c
                     end) Articles.columns col H).
Qed.

(** The row built from a record matches the URL of that record. *)
Lemma new_article_matches now db article_data :
  matches "url" (get article_data "url") (new_article now db article_data) = true.
Proof.
  unfold matches, get.
  rewrite new_article_lookup by (unfold Articles.columns; simpl; tauto).
  destruct (lookup article_data "url") as [v | ].
  - destruct (is_none v) eqn:E; [ reflexivity | ].
    apply sql_eq_refl. exact E.
  - reflexivity.
Qed.

Lemma find_snoc {A : Type} (f : A -> bool) (l : list A) (a : A) :
  find f l = None -> f a = true -> find f (l ++ [a]) = Some a.
Proof.
  induction l as [ | x l IH]; simpl; intros Hl Ha.
  - rewrite Ha. reflexivity.
  - destruct (f x); [ discriminate | ]. apply IH; assumption.
Qed.

(** Whether the [INSERT] is accepted does not depend on the clock. *)
Lemma article_insert_ok_now now1 now2 db article_data :
  Articles.insert_ok db (new_article now1 db article_data)
  = Articles.insert_ok db (new_article now2 db article_data).
Proof.
  assert (Hst : forallb (fun col => Articles.storable col
                                      (get (new_article now1 db article_data) col))
                        Articles.columns
                = forallb (fun col => Articles.storable col
                                        (get (new_article now2 db article_data) col))
                          Articles.columns).
  { apply forallb_same. intros col Hin.
    unfold get. rewrite !new_article_lookup by exact Hin.
    assert (Hd : Articles.storable col (Articles.column_default now1 (max_id db + 1) col)
                 = Articles.storable col (Articles.column_default now2 (max_id db + 1) col)).
    { unfold Articles.column_default.
      destruct (String.eqb col "id"); [ reflexivity | ].
      destruct (mem col _); [ reflexivity | ].
      destruct (String.eqb col "relevance_score"); [ reflexivity | ].
      destruct (String.eqb col "scraped_at") eqn:E; [ | reflexivity ].
      apply String.eqb_eq in E. subst col. reflexivity. }
    destruct (lookup article_data col) as [v | ]; [ destruct (is_none v) | ];
      try reflexivity; exact Hd. }
  assert (Hget : forall col, In col Articles.columns ->
                   String.eqb col "scraped_at" = false ->
                   get (new_article now1 db article_data) col
                   = get (new_article now2 db article_data) col).
  { intros col Hin Hd. unfold get. rewrite !new_article_lookup by exact Hin.
    unfold Articles.column_default. rewrite Hd. reflexivity. }
  unfold Articles.insert_ok. rewrite Hst.
  rewrite (Hget "journalist_id"%string), (Hget "title"%string),
          (Hget "id"%string), (Hget "url"%string);
    try reflexivity; unfold Articles.columns; simpl; tauto.
Qed.

(** X24.  [add_article] is idempotent, with or without a URL: a second call
    with the same data leaves the table as the first call left it, at
    whatever time it is made, and returns the article that the first call
    returned. *)
Theorem add_article_idempotent
  (db : list Article) (now1 now2 : Z) (article_data : dict) :
  snd (add_article (snd (add_article db now1 article_data)) now2 article_data)
  = snd (add_article db now1 article_data)
  /\ forall a : Article,
       fst (add_article db now1 article_data) = Stored a ->
       fst (add_article (snd (add_article db now1 article_data)) now2 article_data)
       = Stored a.
Proof.
  unfold add_article.
  destruct (bindable (get article_data "url")) eqn:Hb; cbn [fst snd];
    [ | split; [ reflexivity | discriminate ] ].
  destruct (find (matches "url" (get article_data "url")) db) as [existing | ] eqn:F;
    cbn [fst snd].
  - rewrite ?F. cbn [fst snd]. split; [ reflexivity | intros a H; exact H ].
  - destruct (forallb _ article_data) eqn:Hcols; cbn [fst snd].
    + destruct (Articles.insert_ok db (new_article now1 db article_data)) eqn:Hok;
        cbn [fst snd].
      * rewrite (find_snoc _ db _ F (new_article_matches now1 db article_data)).
        cbn [fst snd]. split; [ reflexivity | intros a H; exact H ].
      * rewrite ?F, ?Hcols.
        rewrite (article_insert_ok_now now2 now1), Hok. cbn [fst snd].
        split; [ reflexivity | discriminate ].
    + rewrite ?F, ?Hcols. cbn [fst snd]. split; [ reflexivity | discriminate ].
Qed.

Lemma add_article_idempotent_witness :
  fst (add_article (snd (add_article [] 10 leaflet)) 20 leaflet)
  = Stored (new_article 10 [] leaflet).
Proof.
  apply (proj2 (add_article_idempotent [] 10 20 leaflet)).
  vm_compute. reflexivity.
Defined.

(** ** URLs stay distinct *)

Lemma forallb_snoc {A : Type} (f : A -> bool) (l : list A) (a : A) :
  forallb f (l ++ [a]) = forallb f l && f a.
Proof. rewrite forallb_app. simpl. rewrite andb_true_r. reflexivity. Qed.

Lemma urls_distinct_snoc (db : list Article) (a : Article) :
  urls_distinct db = true ->
  find (matches "url" (get a "url")) db = None ->
  urls_distinct (db ++ [a]) = true.
Proof.
  induction db as [ | r db IH]; simpl; intros Hd Hf.
  - reflexivity.
  - apply andb_true_iff in Hd as [Hr Hd].
    destruct (matches "url" (get a "url") r) eqn:E; [ discriminate | ].
    rewrite forallb_snoc, Hr, E, (IH Hd Hf). reflexivity.
Qed.

Lemma find_matches_same (v w : pyval) (db : list Article) :
  (forall r, matches "url" v r = matches "url" w r) ->
  find (matches "url" v) db = find (matches "url" w) db.
Proof.
  intros H. induction db as [ | r db IH]; simpl; [ reflexivity | ].
  rewrite H, IH. reflexivity.
Qed.

Lemma new_article_url now db article_data (r : Article) :
  matches "url" (get (new_article now db article_data) "url") r
  = matches "url" (get article_data "url") r.
Proof.
  unfold get.
  rewrite new_article_lookup by (unfold Articles.columns; simpl; tauto).
  destruct (lookup article_data "url") as [v | ]; [ | reflexivity ].
  destruct (is_none v) eqn:E; [ | reflexivity ].
  destruct v; try discriminate E. reflexivity.
Qed.

(** X25.  [add_article] never stores a second article under a URL, and
    never a second article without URL: in a table where no row repeats the
    URL of an earlier row, and no row without URL follows another one, the
    same holds after the call. *)
Theorem add_article_keeps_urls_distinct
  (db : list Article) (now : Z) (article_data : dict) :
  urls_distinct db = true ->
  urls_distinct (snd (add_article db now article_data)) = true.
Proof.
  intros Hd. unfold add_article.
  destruct (bindable _); [ | exact Hd ].
  destruct (find _ db) eqn:F; [ exact Hd | ].
  destruct (forallb _ article_data); [ | exact Hd ].
  destruct (Articles.insert_ok db _); [ | exact Hd ].
  cbn [snd]. apply urls_distinct_snoc; [ exact Hd | ].
  rewrite (find_matches_same _ (get article_data "url")); [ exact F | ].
  intros r. apply new_article_url.
Qed.

Lemma add_article_keeps_urls_distinct_witness :
  urls_distinct
    (snd (add_article (snd (add_article (snd (add_article [] 10 story)) 20 leaflet))
                      30 other_leaflet))
  = true
  /\ List.length
       (snd (add_article (snd (add_article (snd (add_article [] 10 story)) 20 leaflet))
                         30 other_leaflet))
     = 2%nat.
Proof.
  split.
  - apply add_article_keeps_urls_distinct.
    apply add_article_keeps_urls_distinct.
    apply add_article_keeps_urls_distinct.
    reflexivity.
  - vm_compute. reflexivity.
Defined.

End ArticleFacts.

(* ------------------------------------------------------------------ *)
(** * What a merge by [add_journalist] keeps *)

Module MergeFacts.

Import Database Examples DatabaseFacts.

Lemma is_score_cases (col : string) :
  is_score col = true ->
  col = "reputation_score"%string \/ col = "ai_relevance_score"%string.
Proof.
  unfold is_score, mem. cbn [existsb]. rewrite orb_false_r.
  intros H. apply orb_true_iff in H as [H | H]; apply String.eqb_eq in H; auto.
Qed.

Lemma merge_step_score (e e' : Journalist) (key : string) (value : pyval)
  (col : string) (s : Q) :
  merge_step e key value = Ok e' ->
  is_score col = true -> num_of (get e col) = Ok s ->
  exists s' : Q, num_of (get e' col) = Ok s' /\ (s <= s')%Q.
Proof.
  intros H Hc Hs.
  destruct (String.eqb col key) eqn:E.
  - apply String.eqb_eq in E. subst key.
    unfold merge_step in H.
    destruct (hasattr col && negb (is_none value));
      [ | injection H as <-; exists s; split; [ exact Hs | apply Qle_refl ] ].
    destruct (num_not_blank _ _ Hs) as [Hn Hb]. rewrite Hn, Hb, Hc in H.
    cbn [orb] in H.
    destruct (num_of value) as [v | ] eqn:Hv.
    + rewrite (py_gt_numbers _ _ _ _ Hv Hs) in H. cbn [bind] in H.
      destruct (Qlt_bool s v) eqn:Hlt; injection H as <-.
      * exists v. rewrite get_set_same. split; [ exact Hv | ].
        apply Qlt_le_weak. apply Qlt_bool_iff. exact Hlt.
      * exists s. split; [ exact Hs | apply Qle_refl ].
    + exfalso. unfold py_gt in H. rewrite Hv in H.
      destruct value; try discriminate H; try discriminate Hv.
      destruct (get e col); discriminate.
  - apply String.eqb_neq in E.
    exists s. split; [ | apply Qle_refl ].
    unfold get. rewrite (merge_step_other _ _ _ _ _ H E). exact Hs.
Qed.

Lemma merge_loop_score (items : dict) : forall (e merged : Journalist) (col : string) (s : Q),
  merge_loop e items = Ok merged ->
  is_score col = true -> num_of (get e col) = Ok s ->
  exists s' : Q, num_of (get merged col) = Ok s' /\ (s <= s')%Q.
Proof.
  induction items as [ | [key value] rest IH]; simpl; intros e merged col s H Hc Hs.
  - injection H as <-. exists s. split; [ exact Hs | apply Qle_refl ].
  - destruct (merge_step e key value) as [e1 | ] eqn:E; simpl in H; [ | discriminate ].
    destruct (merge_step_score _ _ _ _ _ _ E Hc Hs) as (s1 & Hs1 & Hle1).
    destruct (IH _ _ _ _ H Hc Hs1) as (s' & Hs' & Hle).
    exists s'. split; [ exact Hs' | apply (Qle_trans _ s1); assumption ].
Qed.

(** X26.  Scores never go down through [add_journalist]: when the record
    matches a stored row whose reputation or relevance score is a number
    and the call returns the row, the returned row holds a number at least
    as large in that column. *)
Theorem scores_never_decrease
  (json_dumps : list pyval -> string) (db : table) (now : Z)
  (journalist_data : dict) (before : table) (e : Journalist) (after : table)
  (j : Journalist) (db' : table) (data' : dict) (col : string) (s : Q) :
  find_existing db journalist_data = Ok (Some (before, e, after)) ->
  is_score col = true ->
  num_of (get e col) = Ok s ->
  add_journalist json_dumps db now journalist_data = (Stored j, db', data') ->
  exists s' : Q, num_of (get j col) = Ok s' /\ (s <= s')%Q.
Proof.
  intros F Hc Hs. unfold add_journalist. rewrite F.
  destruct (merge_loop e _) as [merged | ] eqn:M; [ | discriminate ].
  destruct (row_changed e merged).
  - destruct (_ && _); [ | discriminate ].
    intros [= <- <- <-].
    rewrite get_touch_other
      by (destruct (is_score_cases _ Hc) as [-> | ->]; discriminate).
    apply (merge_loop_score _ _ _ _ _ M Hc Hs).
  - intros [= <- <- <-]. exists s. split; [ exact Hs | apply Qle_refl ].
Qed.

Lemma scores_never_decrease_witness :
  exists s' : Q,
    num_of (get (touch 200 ann_row
                   (set ann_row "ai_relevance_score" (PFloat 0.9)))
                "ai_relevance_score") = Ok s'
    /\ (0.4 <= s')%Q.
Proof.
  apply (scores_never_decrease example_dumps ann_db 200 ann_better_score
           [] ann_row [] _ [touch 200 ann_row
                              (set ann_row "ai_relevance_score" (PFloat 0.9))]
           ann_better_score "ai_relevance_score"%string 0.4%Q).
  - vm_compute. reflexivity.
  - reflexivity.
  - vm_compute. reflexivity.
  - vm_compute. reflexivity.
Defined.

(** X27.  The first writer wins: when the record matches a stored row and
    the call returns the row, every column of that row that held a value
    (neither [None] nor blank text) and is not a score holds the same value
    afterwards, whatever the record says; only [last_updated] moves. *)
Theorem established_values_are_kept
  (json_dumps : list pyval -> string) (db : table) (now : Z)
  (journalist_data : dict) (before : table) (e : Journalist) (after : table)
  (j : Journalist) (db' : table) (data' : dict) (col : string) :
  find_existing db journalist_data = Ok (Some (before, e, after)) ->
  is_none (get e col) = false ->
  is_blank_str (get e col) = false ->
  is_score col = false ->
  col <> "last_updated"%string ->
  add_journalist json_dumps db now journalist_data = (Stored j, db', data') ->
  get j col = get e col.
Proof.
  intros F Hn Hb Hs Hl. unfold add_journalist. rewrite F.
  destruct (merge_loop e _) as [merged | ] eqn:M; [ | discriminate ].
  destruct (row_changed e merged).
  - destruct (_ && _); [ | discriminate ].
    intros [= <- <- <-].
    rewrite get_touch_other by exact Hl.
    unfold get. rewrite (merge_loop_keeps _ _ _ col M Hn Hb Hs). reflexivity.
  - intros [= <- <- <-]. reflexivity.
Qed.

Lemma established_values_are_kept_witness :
  get (touch 200 ann_row (set ann_row "bio" (PStr "Writes about robots"))) "email"
  = PStr "ann@example.org".
Proof.
  apply (established_values_are_kept example_dumps ann_db 200 ann_other_email
           [] ann_row [] _
           [touch 200 ann_row (set ann_row "bio" (PStr "Writes about robots"))]
           ann_other_email "email"%string).
  - vm_compute. reflexivity.
  - reflexivity.
  - reflexivity.
  - reflexivity.
  - discriminate.
  - vm_compute. reflexivity.
Defined.

(** X28.  [add_journalist] touches one row at most: when it returns a row,
    the table is the old one with that row appended, or the old one with
    the matched row replaced by it; in every other case (database error,
    unhandled exception) the table is left as it was. *)
Theorem add_touches_one_row
  (json_dumps : list pyval -> string) (db : table) (now : Z)
  (journalist_data : dict) (o : outcome) (db' : table) (data' : dict) :
  add_journalist json_dumps db now journalist_data = (o, db', data') ->
  match o with
  | Stored j =>
      (find_existing db journalist_data = Ok None /\ db' = db ++ [j])
      \/ exists (before : table) (e : Journalist) (after : table),
           find_existing db journalist_data = Ok (Some (before, e, after))
           /\ db = before ++ e :: after
           /\ db' = before ++ j :: after
  | _ => db' = db
  end.
Proof.
  unfold add_journalist.
  destruct (find_existing db journalist_data) as [[[[before e] after] | ] | ] eqn:F.
  - destruct (find_existing_some _ _ _ _ _ F) as (Hdb & _).
    destruct (merge_loop e _) as [merged | ].
    + destruct (row_changed e merged).
      * destruct (_ && _); intros [= <- <- <-]; [ | reflexivity ].
        right. exists before, e, after. repeat split. exact Hdb.
      * intros [= <- <- <-]. right. exists before, e, after.
        repeat split; exact Hdb.
    + intros [= <- <- <-]. reflexivity.
  - destruct (forallb _ _).
    + destruct (insert_ok db _); intros [= <- <- <-]; [ | reflexivity ].
      left. split; reflexivity.
    + intros [= <- <- <-]. reflexivity.
  - intros [= <- <- <-]. reflexivity.
Qed.

Lemma add_touches_one_row_witness :
  snd (fst (add_journalist example_dumps ann_db 200 bad_publication)) = ann_db.
Proof.
  pose proof (add_touches_one_row example_dumps ann_db 200 bad_publication) as H.
  destruct (add_journalist example_dumps ann_db 200 bad_publication)
    as [[o db'] data'] eqn:E.
  specialize (H o db' data' eq_refl).
  assert (Ho : o = NoResult) by (vm_compute in E; congruence).
  subst o. exact H.
Defined.

End MergeFacts.

(* ------------------------------------------------------------------ *)
(** * The reputation score and the floats that are not finite *)

Module FloatFacts.

Import FloatReputation.
Open Scope R_scope.

Lemma clamp_float (f : pyfloat) :
  in_unit_interval (fmin (fmax f (Fin 0)) (Fin 1))
  \/ (f = NaN /\ fmin (fmax f (Fin 0)) (Fin 1) = NaN).
Proof.
  destruct f as [x | negative | ].
  - left. unfold fmax, flt. destruct (Rlt_dec x 0).
    + unfold fmin, flt. destruct (Rlt_dec 1 0); simpl; lra.
    + unfold fmin, flt. destruct (Rlt_dec 1 x); simpl; lra.
  - left. destruct negative.
    + unfold fmax, flt, fmin, flt. destruct (Rlt_dec 1 0); simpl; lra.
    + unfold fmax, flt, fmin, flt. simpl. lra.
  - right. split; reflexivity.
Qed.

(** The value of a successful [try] block has been through the final
    [min(max(_, 0.0), 1.0)]. *)
Lemma reputation_try_clamp json_loads self d v :
  reputation_try json_loads self d = Ok v ->
  exists f, v = fmin (fmax f (Fin 0)) (Fin 1).
Proof.
  unfold reputation_try, bind. intros H.
  repeat match type of H with
         | match ?e with Ok _ => _ | Raise => _ end = _ =>
             destruct e; [ | discriminate H ]
         end.
  injection H as <-. eexists. reflexivity.
Qed.

(** C2.  The range property fails on the code for a record whose relevance
    score is NaN: nothing raises, the expertise score is NaN, so is the weighted
    sum, and [min(max(nan, 0.0), 1.0)] is NaN: the reputation score that is
    returned is NaN, which is not a number between 0 and 1. *)
Theorem nan_relevance_score_escapes_the_clamp (json_loads : string -> exc value) :
  reputation_try json_loads Reputation.init nan_relevance = Ok NaN
  /\ calculate_reputation_score json_loads Reputation.init nan_relevance = NaN
  /\ ~ in_unit_interval
         (calculate_reputation_score json_loads Reputation.init nan_relevance).
Proof.
  assert (E : reputation_try json_loads Reputation.init nan_relevance = Ok NaN).
  { unfold reputation_try, nan_relevance. cbn. reflexivity. }
  unfold calculate_reputation_score. rewrite E.
  repeat apply conj; [ reflexivity | reflexivity | intros H; exact H ].
Qed.

Lemma lookup_finite d k v :
  finite_record d = true -> lookup d k = Some v -> finite v = true.
Proof.
  unfold finite_record. induction d as [ | [k' v'] d IH]; simpl; intros H L.
  - discriminate.
  - apply andb_true_iff in H as [Hv Hd].
    destruct (String.eqb k k').
    + injection L as <-. exact Hv.
    + apply IH; assumption.
Qed.

Lemma get_finite d k : finite_record d = true -> finite (get d k) = true.
Proof.
  intros H. unfold get. destruct (lookup d k) as [v | ] eqn:L.
  - apply (lookup_finite _ _ _ H L).
  - reflexivity.
Qed.

Lemma get_default_finite d k dflt :
  finite_record d = true -> finite dflt = true ->
  finite (get_default d k dflt) = true.
Proof.
  intros H Hd. unfold get_default. destruct (lookup d k) as [v | ] eqn:L.
  - apply (lookup_finite _ _ _ H L).
  - exact Hd.
Qed.

Lemma or_else_finite x y :
  finite x = true -> finite y = true -> finite (or_else x y) = true.
Proof. intros Hx Hy. unfold or_else. destruct (truthy x); assumption. Qed.

Lemma number_of_finite v n :
  finite v = true -> number_of v = Ok n -> finite_number n = true.
Proof.
  destruct v as [pv | | ]; try discriminate. intros _.
  destruct pv; simpl; intros H; try discriminate; injection H as <-; reflexivity.
Qed.

Lemma to_float_finite n f :
  finite_number n = true -> to_float n = Ok f -> finite_float f = true.
Proof.
  destruct n as [z | g]; simpl; intros Hn H.
  - destruct (Z.ltb _ _); [ | discriminate ]. injection H as <-. reflexivity.
  - injection H as <-. exact Hn.
Qed.

Lemma fadd_finite a b :
  finite_float a = true -> finite_float b = true -> finite_float (fadd a b) = true.
Proof. destruct a; try discriminate; destruct b; try discriminate; reflexivity. Qed.

Lemma fmul_finite a b :
  finite_float a = true -> finite_float b = true -> finite_float (fmul a b) = true.
Proof. destruct a; try discriminate; destruct b; try discriminate; reflexivity. Qed.

Lemma fdiv_finite a c : finite_float a = true -> finite_float (fdiv a c) = true.
Proof. destruct a; try discriminate; reflexivity. Qed.

Lemma fmin_finite a b :
  finite_float a = true -> finite_float b = true -> finite_float (fmin a b) = true.
Proof. intros Ha Hb. unfold fmin. destruct (flt b a); assumption. Qed.

Lemma fmax_finite a b :
  finite_float a = true -> finite_float b = true -> finite_float (fmax a b) = true.
Proof. intros Ha Hb. unfold fmax. destruct (flt a b); assumption. Qed.

Lemma num_add_finite a b n :
  finite_number a = true -> finite_number b = true ->
  num_add a b = Ok n -> finite_number n = true.
Proof.
  intros Ha Hb. unfold num_add.
  destruct a as [x | f]; destruct b as [y | g];
    try (intros [= <-]; reflexivity);
    unfold bind;
    match goal with
    | |- match to_float ?u with _ => _ end = _ -> _ =>
        destruct (to_float u) as [p | ] eqn:P; [ | discriminate ]
    end;
    match goal with
    | |- match to_float ?u with _ => _ end = _ -> _ =>
        destruct (to_float u) as [q | ] eqn:Q; [ | discriminate ]
    end;
    intros [= <-]; simpl;
    apply fadd_finite; (eapply to_float_finite; [ | eassumption ]; assumption).
Qed.

Lemma num_mul_finite a b n :
  finite_number a = true -> finite_number b = true ->
  num_mul a b = Ok n -> finite_number n = true.
Proof.
  intros Ha Hb. unfold num_mul.
  destruct a as [x | f]; destruct b as [y | g];
    try (intros [= <-]; reflexivity);
    unfold bind;
    match goal with
    | |- match to_float ?u with _ => _ end = _ -> _ =>
        destruct (to_float u) as [p | ] eqn:P; [ | discriminate ]
    end;
    match goal with
    | |- match to_float ?u with _ => _ end = _ -> _ =>
        destruct (to_float u) as [q | ] eqn:Q; [ | discriminate ]
    end;
    intros [= <-]; simpl;
    apply fmul_finite; (eapply to_float_finite; [ | eassumption ]; assumption).
Qed.

Lemma math_log10_finite n f :
  finite_number n = true -> math_log10 n = Ok f -> finite_float f = true.
Proof.
  destruct n as [z | [x | negative | ]]; simpl; try discriminate; intros _ H.
  - destruct (Z.ltb 0 z); [ | discriminate ]. injection H as <-. reflexivity.
  - destruct (Rlt_dec 0 x); [ | discriminate ]. injection H as <-. reflexivity.
Qed.

Lemma max_number_finite a b :
  finite_number a = true -> finite_number b = true ->
  finite_number (max_number a b) = true.
Proof. intros Ha Hb. unfold max_number. destruct (num_lt a b); assumption. Qed.

(** Destructs the next call of a [bind] chain in hypothesis [H]. *)
Tactic Notation "next_call" hyp(H) ident(name) :=
  match type of H with
  | bind ?e _ = _ => destruct e as [name | ] eqn:?; cbn [bind] in H; [ | discriminate H ]
  end.

Lemma article_score_finite v f :
  finite v = true -> _calculate_article_score v = Ok f -> finite_float f = true.
Proof.
  intros Hv H. unfold _calculate_article_score in H.
  next_call H n.
  pose proof (number_of_finite _ _ Hv Heqe) as Hn.
  destruct (num_le n (Int 0)); [ injection H as <-; reflexivity | ].
  next_call H m. next_call H l. injection H as <-.
  apply fmin_finite; [ | reflexivity ]. apply fdiv_finite.
  eapply math_log10_finite; [ | eassumption ].
  eapply num_add_finite; [ exact Hn | | eassumption ]. reflexivity.
Qed.

Lemma social_score_finite t l f :
  finite t = true -> finite l = true ->
  _calculate_social_score t l = Ok f -> finite_float f = true.
Proof.
  intros Ht Hl H. unfold _calculate_social_score in H.
  next_call H tn. pose proof (number_of_finite _ _ Ht Heqe) as Htn.
  next_call H li. pose proof (number_of_finite _ _ Hl Heqe0) as Hln.
  next_call H l2.
  assert (Hl2 : finite_number l2 = true)
    by (eapply num_mul_finite; [ exact Hln | | eassumption ]; reflexivity).
  next_call H total.
  assert (Htot : finite_number total = true)
    by (eapply num_add_finite; [ exact Htn | exact Hl2 | eassumption ]).
  destruct (num_le total (Int 0)); [ injection H as <-; reflexivity | ].
  next_call H m. next_call H lg. injection H as <-.
  apply fmin_finite; [ | reflexivity ]. apply fdiv_finite.
  eapply math_log10_finite; [ | eassumption ].
  eapply num_add_finite; [ exact Htot | | eassumption ]. reflexivity.
Qed.

Lemma engagement_score_finite d f :
  _calculate_engagement_score d = Ok f -> finite_float f = true.
Proof.
  intros H. unfold _calculate_engagement_score in H.
  next_call H tw.
  destruct (num_le tw (Int 0)); [ injection H as <-; reflexivity | ].
  next_call H major. injection H as <-. reflexivity.
Qed.

Lemma publication_score_finite v f :
  _calculate_publication_quality_score v = Ok f -> finite_float f = true.
Proof.
  destruct v as [pv | | ]; simpl; try discriminate.
  destruct (Reputation._calculate_publication_quality_score pv); simpl;
    [ | discriminate ].
  intros [= <-]. reflexivity.
Qed.

Lemma academic_score_finite c h p sp f :
  finite c = true -> finite h = true -> finite p = true ->
  _calculate_academic_score c h p sp = Ok f -> finite_float f = true.
Proof.
  intros Hc Hh Hp H. unfold _calculate_academic_score in H.
  destruct (is_zero c && is_zero h && is_zero p)%bool;
    [ injection H as <-; reflexivity | ].
  next_call H cn. pose proof (number_of_finite _ _ Hc Heqe) as Hcn.
  next_call H hn. pose proof (number_of_finite _ _ Hh Heqe0) as Hhn.
  next_call H pn. pose proof (number_of_finite _ _ Hp Heqe1) as Hpn.
  next_call H lc. next_call H hf. next_call H lp. injection H as <-.
  assert (Hlc : finite_float lc = true).
  { eapply math_log10_finite; [ | eassumption ].
    apply max_number_finite; [ exact Hcn | reflexivity ]. }
  assert (Hlp : finite_float lp = true).
  { eapply math_log10_finite; [ | eassumption ].
    apply max_number_finite; [ exact Hpn | reflexivity ]. }
  pose proof (to_float_finite _ _ Hhn Heqe3) as Hhf.
  apply fmin_finite; [ | reflexivity ].
  repeat apply fadd_finite; apply fmul_finite; try reflexivity;
    (apply fmin_finite; [ apply fdiv_finite; assumption | reflexivity ]).
Qed.

Lemma expertise_score_finite json_loads a d f :
  finite a = true -> finite_record d = true ->
  _calculate_expertise_score json_loads a d = Ok f -> finite_float f = true.
Proof.
  intros Ha Hd H. unfold _calculate_expertise_score in H.
  next_call H n. pose proof (number_of_finite _ _ Ha Heqe) as Hn.
  next_call H n'.
  assert (Hn' : finite_number n' = true).
  { destruct (truthy _).
    - eapply num_add_finite; [ exact Hn | | eassumption ]. reflexivity.
    - injection Heqe0 as <-. exact Hn. }
  next_call H specs. next_call H bonus. next_call H e. injection H as <-.
  apply fmin_finite; [ | reflexivity ].
  apply fadd_finite; [ | reflexivity ].
  eapply to_float_finite; eassumption.
Qed.

(** X30.  Whatever the record holds, non-finite floats and integers beyond
    the floats included, and whatever the weights are, the reputation
    score is a number between 0 and 1 or it is NaN; and it is a number
    between 0 and 1 when the record holds no infinity and no NaN. *)
Theorem reputation_score_in_unit_interval_or_nan
  (json_loads : string -> exc value) (self : Reputation.ReputationAnalyzer)
  (journalist_data : record) :
  (in_unit_interval (calculate_reputation_score json_loads self journalist_data)
   \/ calculate_reputation_score json_loads self journalist_data = NaN)
  /\ (finite_record journalist_data = true ->
      in_unit_interval (calculate_reputation_score json_loads self journalist_data)).
Proof.
  split.
  - unfold calculate_reputation_score.
    destruct (reputation_try json_loads self journalist_data) as [v | ] eqn:E.
    + apply reputation_try_clamp in E as [f ->].
      destruct (clamp_float f) as [H | [_ H]]; [ left; exact H | right; exact H ].
    + left. simpl. lra.
  - intros Hd. unfold calculate_reputation_score.
    destruct (reputation_try json_loads self journalist_data) as [v | ] eqn:E;
      [ | simpl; lra ].
    unfold reputation_try in E.
    assert (Hg : forall k, finite (or_else (get journalist_data k) (Val (PInt 0))) = true).
    { intros k. apply or_else_finite; [ apply get_finite, Hd | reflexivity ]. }
    next_call E article. pose proof (article_score_finite _ _ (Hg _) Heqe) as Har.
    next_call E social.
    pose proof (social_score_finite _ _ _ (Hg _) (Hg _) Heqe0) as Hso.
    next_call E engagement. pose proof (engagement_score_finite _ _ Heqe1) as Hen.
    next_call E publication. pose proof (publication_score_finite _ _ Heqe2) as Hpu.
    next_call E expertise.
    pose proof (expertise_score_finite _ _ _ _ (Hg _) Hd Heqe3) as Hex.
    next_call E academic.
    pose proof (academic_score_finite _ _ _ _ _ (Hg _) (Hg _) (Hg _) Heqe4) as Hac.
    injection E as <-.
    match goal with
    | |- in_unit_interval (fmin (fmax ?f _) _) =>
        assert (Hf : finite_float f = true);
          [ | destruct (clamp_float f) as [H | [Hnan _]];
              [ exact H | rewrite Hnan in Hf; discriminate Hf ] ]
    end.
    destruct (is_academic_platform _);
      repeat apply fadd_finite; try apply fmul_finite; try assumption; reflexivity.
Qed.

Lemma reputation_score_in_unit_interval_or_nan_witness :
  in_unit_interval
    (calculate_reputation_score (fun _ => Raise) Reputation.init lee).
Proof.
  apply (proj2 (reputation_score_in_unit_interval_or_nan
                  (fun _ => Raise) Reputation.init lee)).
  reflexivity.
Defined.

End FloatFacts.
